(** * EdgeQL backtest engine: a shallow embedding of [BacktestNode.py]

    The engine of [src/nodes/python/BacktestNode.py] is a sequential fold over
    the rows of a price/signal table.  This development embeds it as pure
    functions over an explicit engine state and proves the properties of the
    specification about the trade ledger, the equity curve and the metrics.

    Numbers.  Python's [float] is idealised as exact rational arithmetic
    ([Q]); every equation between amounts is stated with [==] ([Qeq]).
    A Python float division raises [ZeroDivisionError] on a zero divisor,
    which is kept: [py_div] is fallible and a failure aborts the run.
    Overflow, rounding, infinities and NaN prices have no counterpart in [Q];
    a NaN signal is [None].

    Time.  A timestamp is an integer (nanoseconds since the epoch, as
    [pd.to_datetime] stores it); [str(timestamp)] is injective on them, so the
    [entry_time]/[exit_time] strings are represented by the timestamp itself.

    Input.  [run] starts from the rows of the combined dataframe that
    [_extract_input_data] hands over; the search through the input dictionary
    is not modelled. *)

From Stdlib Require Import QArith Qabs ZArith List String Bool Lia Lqa.
From Stdlib Require Import Sorting.Sorted Sorting.Permutation.
Import ListNotations.

Local Open Scope Q_scope.

(** ** Errors and the error monad *)

Inductive error : Type :=
| ValueError (msg : string)
| ZeroDivisionError
| TypeError.

Inductive result (A : Type) : Type :=
| Ok (a : A)
| Err (e : error).

Arguments Ok {A} a.
Arguments Err {A} e.

Definition bind {A B : Type} (m : result A) (k : A -> result B) : result B :=
  match m with
  | Ok a => k a
  | Err e => Err e
  end.

Notation "x <- m ;; k" := (bind m (fun x => k))
  (at level 61, m at next level, right associativity).

(** ** Comparisons and division as Python evaluates them *)

Definition Qltb (x y : Q) : bool := negb (Qle_bool y x).
Definition Qgtb (x y : Q) : bool := Qltb y x.

(** [a / b] on Python floats. *)
Definition py_div (a b : Q) : result Q :=
  if Qeq_bool b 0 then Err ZeroDivisionError else Ok (a / b).

(** ** Data model *)

Definition Timestamp := Z.

Record BacktestParams : Type := {
  initial_capital : Q;
  commission : Q;
  slippage : Q;
  position_size : Q;
  max_positions : Z
}.

(** The pydantic field validators of [BacktestParams]. *)
Definition validate_initial_capital (v : Q) : result Q :=
  if Qle_bool v 0 then Err (ValueError "Initial capital must be positive")
  else Ok v.

Definition validate_fees (v : Q) : result Q :=
  if Qltb v 0 then Err (ValueError "Commission and slippage must be non-negative")
  else Ok v.

Definition validate_position_size (v : Q) : result Q :=
  if Qle_bool v 0 || Qgtb v 1
  then Err (ValueError "Position size must be between 0 and 1")
  else Ok v.

Definition validate_params (p : BacktestParams) : result BacktestParams :=
  _ <- validate_initial_capital (initial_capital p) ;;
  _ <- validate_fees (commission p) ;;
  _ <- validate_fees (slippage p) ;;
  _ <- validate_position_size (position_size p) ;;
  Ok p.

Inductive Side : Type := long | short.
Inductive Status : Type := status_open | status_closed.

Record Trade : Type := {
  entry_time : Timestamp;
  exit_time : option Timestamp;
  entry_price : Q;
  exit_price : option Q;
  quantity : Q;
  side : Side;
  pnl : option Q;
  return_pct : option Q;
  commission_paid : Q;
  slippage_cost : Q;
  status : Status
}.

(** One row of the combined dataframe; [signal = None] is a NaN signal. *)
Record Row : Type := {
  timestamp : Timestamp;
  open : Q;
  high : Q;
  low : Q;
  close : Q;
  volume : Q;
  signal : option Q
}.

Inductive PositionState : Type := pos_long | pos_flat.

(** One entry of [self.equity_curve]. *)
Record EquityPoint : Type := {
  ep_timestamp : Timestamp;
  equity : Q;
  drawdown : Q;
  position : PositionState
}.

(** What the engine prints while it runs. *)
Inductive Printed : Type :=
| EnteredLong (qty price : Q)
| ClosedPosition (net_pnl ret : Q) (reason : string).

(** The mutable fields of a [BacktestNode] object, and its standard output. *)
Record BacktestNode : Type := {
  params : BacktestParams;
  current_position : option Trade;
  trades : list Trade;
  equity_curve : list EquityPoint;
  capital : Q;
  stdout : list Printed
}.

(** [BacktestNode.__init__] after validation. *)
Definition init_node (p : BacktestParams) : BacktestNode :=
  {| params := p;
     current_position := None;
     trades := [];
     equity_curve := [];
     capital := initial_capital p;
     stdout := [] |}.

(** ** The simulation engine *)

Definition _calculate_current_equity (st : BacktestNode) (row : Row) : Q :=
  match current_position st with
  | None => capital st
  | Some p =>
      let current_price := close row in
      let unrealized_pnl := (current_price - entry_price p) * quantity p in
      let unrealized_pnl :=
        match side p with
        | short => - unrealized_pnl
        | long => unrealized_pnl
        end in
      capital st + unrealized_pnl
  end.

(** The comparison step of a maximum: keep [m] unless [y] is strictly
    larger. *)
Definition max_step (m y : Q) : Q := if Qgtb y m then y else m.

(** Python's [max] over a list: the first element, replaced only by a strictly
    larger one; [max([])] raises. *)
Definition py_max (l : list Q) : result Q :=
  match l with
  | [] => Err (ValueError "max() arg is an empty sequence")
  | x :: rest => Ok (fold_left max_step rest x)
  end.

Definition _calculate_current_drawdown (st : BacktestNode) (current_equity : Q)
  : result Q :=
  match equity_curve st with
  | [] => Ok 0
  | _ :: _ =>
      peak_equity <- py_max (map equity (equity_curve st) ++ [current_equity]) ;;
      py_div (peak_equity - current_equity) peak_equity
  end.

Definition _enter_long_position (st : BacktestNode) (ts : Timestamp) (price : Q)
  : result BacktestNode :=
  let position_value := capital st * position_size (params st) in
  let commission_cost := position_value * commission (params st) in
  quantity <- py_div (position_value - commission_cost) price ;;
  Ok {| params := params st;
        current_position := Some
          {| entry_time := ts;
             exit_time := None;
             entry_price := price;
             exit_price := None;
             quantity := quantity;
             side := long;
             pnl := None;
             return_pct := None;
             commission_paid := commission_cost;
             slippage_cost := position_value * slippage (params st);
             status := status_open |};
        trades := trades st;
        equity_curve := equity_curve st;
        capital := capital st - commission_cost;
        stdout := stdout st ++ [EnteredLong quantity price] |}.

Definition _close_position (st : BacktestNode) (row : Row) (reason : string)
  : result BacktestNode :=
  match current_position st with
  | None => Ok st
  | Some p =>
      let price := close row in
      let exit_price :=
        match side p with
        | long => price * (1 - slippage (params st))
        | short => price * (1 + slippage (params st))
        end in
      let pnl := (exit_price - entry_price p) * quantity p in
      let pnl := match side p with short => - pnl | long => pnl end in
      let exit_value := exit_price * quantity p in
      let exit_commission := exit_value * commission (params st) in
      let net_pnl := pnl - exit_commission in
      return_pct <- py_div net_pnl (entry_price p * quantity p) ;;
      let closed :=
        {| entry_time := entry_time p;
           exit_time := Some (timestamp row);
           entry_price := entry_price p;
           exit_price := Some exit_price;
           quantity := quantity p;
           side := side p;
           pnl := Some net_pnl;
           return_pct := Some return_pct;
           commission_paid := commission_paid p + exit_commission;
           slippage_cost := slippage_cost p;
           status := status_closed |} in
      Ok {| params := params st;
            current_position := None;
            trades := trades st ++ [closed];
            equity_curve := equity_curve st;
            capital := capital st + net_pnl;
            stdout := stdout st ++ [ClosedPosition net_pnl return_pct reason] |}
  end.

(** [_process_signal]: [signal > 0] is a buy, [signal < 0] a sell. *)
Definition _process_signal (st : BacktestNode) (sig : Q) (row : Row)
  : result BacktestNode :=
  let price := close row in
  if Qgtb sig 0 then
    let execution_price := price * (1 + slippage (params st)) in
    match current_position st with
    | None => _enter_long_position st (timestamp row) execution_price
    | Some p =>
        match side p with
        | short =>
            st' <- _close_position st row "signal_reversal" ;;
            _enter_long_position st' (timestamp row) execution_price
        | long => Ok st
        end
    end
  else if Qltb sig 0 then
    match current_position st with
    | Some p =>
        match side p with
        | long => _close_position st row "signal_exit"
        | short => Ok st
        end
    | None => Ok st
    end
  else Ok st.

(** [signal != 0] as the loop tests it; a NaN differs from 0 and then fails
    both comparisons of [_process_signal]. *)
Definition dispatch_signal (st : BacktestNode) (row : Row) : result BacktestNode :=
  match signal row with
  | None => Ok st
  | Some sig =>
      if Qeq_bool sig 0 then Ok st else _process_signal st sig row
  end.

(** [self.equity_curve.append(point)]. *)
Definition record_point (st : BacktestNode) (pt : EquityPoint) : BacktestNode :=
  {| params := params st;
     current_position := current_position st;
     trades := trades st;
     equity_curve := equity_curve st ++ [pt];
     capital := capital st;
     stdout := stdout st |}.

(** The body of the [for idx, row in data.iterrows()] loop. *)
Definition step (st : BacktestNode) (row : Row) : result BacktestNode :=
  let current_equity := _calculate_current_equity st row in
  dd <- _calculate_current_drawdown st current_equity ;;
  let st1 :=
    record_point st
      {| ep_timestamp := timestamp row;
         equity := current_equity;
         drawdown := dd;
         position := match current_position st with
                     | Some _ => pos_long
                     | None => pos_flat
                     end |} in
  dispatch_signal st1 row.

Fixpoint run_loop (st : BacktestNode) (data : list Row) : result BacktestNode :=
  match data with
  | [] => Ok st
  | row :: rest => st' <- step st row ;; run_loop st' rest
  end.

(** The tail of [_run_backtest_simulation]: close what is still open against
    [data.iloc[-1]]. *)
Definition close_remaining (st : BacktestNode) (data : list Row)
  : result BacktestNode :=
  match current_position st with
  | None => Ok st
  | Some _ =>
      match rev data with
      | last_row :: _ => _close_position st last_row "end_of_period"
      | [] => Err (ValueError "single positional indexer is out-of-bounds")
      end
  end.

Definition _run_backtest_simulation (st : BacktestNode) (data : list Row)
  : result BacktestNode :=
  let st0 :=
    {| params := params st;
       current_position := None;
       trades := [];
       equity_curve := [];
       capital := initial_capital (params st);
       stdout := stdout st |} in
  st' <- run_loop st0 data ;;
  close_remaining st' data.

(** ** Input preparation: [_merge_signals_and_prices]

    The node receives one combined dataframe; the merge copies it, fills the
    missing signals with 0 and sorts the rows by timestamp.  The sort is
    modelled as a stable insertion sort (rows with distinct timestamps have
    one sorted order, whatever the algorithm). *)

Definition fillna (row : Row) : Row :=
  {| timestamp := timestamp row;
     open := open row;
     high := high row;
     low := low row;
     close := close row;
     volume := volume row;
     signal := match signal row with
               | None => Some 0
               | Some s => Some s
               end |}.

Fixpoint insert_row (r : Row) (l : list Row) : list Row :=
  match l with
  | [] => [r]
  | x :: rest =>
      if (timestamp r <? timestamp x)%Z then r :: x :: rest
      else x :: insert_row r rest
  end.

Definition sort_values (l : list Row) : list Row :=
  fold_left (fun acc r => insert_row r acc) l [].

Definition _merge_signals_and_prices (data : list Row) : list Row :=
  sort_values (map fillna data).

(** ** The metrics engine

    [annual_return] and [sharpe_ratio] need a real power and a square root and
    are left out of the record: no property below is about them.  (In Python
    they can make a run fail that completes here, never the reverse, so every
    theorem about completed runs covers the completed runs of the code.) *)

Record BacktestResults : Type := {
  total_return : Q;
  max_drawdown : Q;
  max_drawdown_duration : nat;
  num_trades : nat;
  win_rate : Q;
  profit_factor : Q;
  avg_trade_return : Q;
  res_trades : list Trade;
  res_equity_curve : list EquityPoint;
  final_capital : Q
}.

(** [pd.Series.expanding().max()]. *)
Fixpoint expanding_max_from (m : Q) (l : list Q) : list Q :=
  match l with
  | [] => []
  | x :: rest =>
      let m' := max_step m x in
      m' :: expanding_max_from m' rest
  end.

Definition expanding_max (l : list Q) : list Q :=
  match l with
  | [] => []
  | x :: rest => x :: expanding_max_from x rest
  end.

(** [(equity_series - running_max) / running_max], elementwise.  A pandas
    division does not raise; the running maximum of an engine curve is at least
    the initial capital (lemma [running_max_engine_pos]), so the divisor is
    never 0 on the curves the metrics receive. *)
Fixpoint drawdown_series (eq rm : list Q) : list Q :=
  match eq, rm with
  | e :: eq', m :: rm' => (e - m) / m :: drawdown_series eq' rm'
  | _, _ => []
  end.

(** [Series.min()] of a non-empty series. *)
Definition series_min (x : Q) (l : list Q) : Q :=
  fold_left (fun m y => if Qltb y m then y else m) l x.

Definition metric_max_drawdown (equity_series : list Q) : Q :=
  let running_max := expanding_max equity_series in
  match drawdown_series equity_series running_max with
  | [] => 0
  | d :: rest => Qabs (series_min d rest)
  end.

Fixpoint duration_loop (is_drawdown : list bool) (max_duration current_duration : nat)
  : nat :=
  match is_drawdown with
  | [] => max_duration
  | true :: rest =>
      duration_loop rest (Nat.max max_duration (S current_duration))
                    (S current_duration)
  | false :: rest => duration_loop rest max_duration 0%nat
  end.

Fixpoint series_lt (a b : list Q) : list bool :=
  match a, b with
  | x :: a', y :: b' => Qltb x y :: series_lt a' b'
  | _, _ => []
  end.

Definition _calculate_max_drawdown_duration (equity_series : list Q) : nat :=
  let running_max := expanding_max equity_series in
  duration_loop (series_lt equity_series running_max) 0 0.

(** [t.pnl] and [t.return_pct] used as numbers: [None] raises [TypeError]. *)
Definition pnl_of (t : Trade) : result Q :=
  match pnl t with
  | Some x => Ok x
  | None => Err TypeError
  end.

Definition return_pct_of (t : Trade) : result Q :=
  match return_pct t with
  | Some x => Ok x
  | None => Err TypeError
  end.

(** [[t for t in trades if test t.pnl]]. *)
Fixpoint select_trades (test : Q -> bool) (l : list Trade) : result (list Trade) :=
  match l with
  | [] => Ok []
  | t :: rest =>
      x <- pnl_of t ;;
      sel <- select_trades test rest ;;
      Ok (if test x then t :: sel else sel)
  end.

(** [sum(f(t) for t in l)], starting from 0. *)
Fixpoint py_sum_from (f : Trade -> result Q) (acc : Q) (l : list Trade) : result Q :=
  match l with
  | [] => Ok acc
  | t :: rest => x <- f t ;; py_sum_from f (acc + x) rest
  end.

Definition py_sum (f : Trade -> result Q) (l : list Trade) : result Q :=
  py_sum_from f 0 l.

Definition len {A : Type} (l : list A) : Q := inject_Z (Z.of_nat (List.length l)).

Record TradeStats : Type := {
  ts_win_rate : Q;
  ts_profit_factor : Q;
  ts_avg_trade_return : Q
}.

(** The "Trade statistics" block of [_calculate_performance_metrics]. *)
Definition trade_statistics (trades : list Trade) : result TradeStats :=
  match trades with
  | [] => Ok {| ts_win_rate := 0; ts_profit_factor := 0; ts_avg_trade_return := 0 |}
  | _ :: _ =>
      winning_trades <- select_trades (fun x => Qgtb x 0) trades ;;
      losing_trades <- select_trades (fun x => Qle_bool x 0) trades ;;
      win_rate <- py_div (len winning_trades) (len trades) ;;
      total_wins <- match winning_trades with
                    | [] => Ok 0
                    | _ :: _ => py_sum pnl_of winning_trades
                    end ;;
      total_losses <- match losing_trades with
                      | [] => Ok 1
                      | _ :: _ => s <- py_sum pnl_of losing_trades ;; Ok (Qabs s)
                      end ;;
      profit_factor <- (if Qgtb total_losses 0
                        then py_div total_wins total_losses
                        else Ok 0) ;;
      total_ret <- py_sum return_pct_of trades ;;
      avg_trade_return <- py_div total_ret (len trades) ;;
      Ok {| ts_win_rate := win_rate;
            ts_profit_factor := profit_factor;
            ts_avg_trade_return := avg_trade_return |}
  end.

Definition last_equity (curve : list EquityPoint) : result Q :=
  match rev curve with
  | [] => Err (ValueError "No equity curve data available")
  | pt :: _ => Ok (equity pt)
  end.

Definition _calculate_performance_metrics (st : BacktestNode) (data : list Row)
  : result BacktestResults :=
  final_capital <- last_equity (equity_curve st) ;;
  total_return <- py_div (final_capital - initial_capital (params st))
                         (initial_capital (params st)) ;;
  let equity_series := map equity (equity_curve st) in
  let max_drawdown := metric_max_drawdown equity_series in
  let drawdown_duration := _calculate_max_drawdown_duration equity_series in
  stats <- trade_statistics (trades st) ;;
  Ok {| total_return := total_return;
        max_drawdown := max_drawdown;
        max_drawdown_duration := drawdown_duration;
        num_trades := List.length (trades st);
        win_rate := ts_win_rate stats;
        profit_factor := ts_profit_factor stats;
        avg_trade_return := ts_avg_trade_return stats;
        res_trades := trades st;
        res_equity_curve := equity_curve st;
        final_capital := final_capital |}.

(** [BacktestNode(params).run(inputs)] on the rows of the combined dataframe:
    construction (validation), merge, simulation, metrics.  The node after
    the run is returned with the results, so that [self.capital] can be
    compared with what is reported. *)
Definition run (p : BacktestParams) (data : list Row)
  : result (BacktestNode * BacktestResults) :=
  p' <- validate_params p ;;
  let combined_data := _merge_signals_and_prices data in
  st <- _run_backtest_simulation (init_node p') combined_data ;;
  results <- _calculate_performance_metrics st combined_data ;;
  Ok (st, results).

(** [trade.model_dump()]: the fields a Trade is reported with. *)
Inductive Value : Type :=
| VNone
| VStr (s : string)
| VNum (q : Q)
| VTime (t : Timestamp).

Definition opt_value {A : Type} (f : A -> Value) (o : option A) : Value :=
  match o with
  | None => VNone
  | Some a => f a
  end.

Definition model_dump (t : Trade) : list (string * Value) :=
  [ ("entry_time", VTime (entry_time t));
    ("exit_time", opt_value VTime (exit_time t));
    ("entry_price", VNum (entry_price t));
    ("exit_price", opt_value VNum (exit_price t));
    ("quantity", VNum (quantity t));
    ("side", VStr match side t with long => "long" | short => "short" end);
    ("pnl", opt_value VNum (pnl t));
    ("return_pct", opt_value VNum (return_pct t));
    ("commission_paid", VNum (commission_paid t));
    ("slippage_cost", VNum (slippage_cost t));
    ("status", VStr match status t with
                    | status_open => "open"
                    | status_closed => "closed"
                    end) ]%string.

Fixpoint dict_get (k : string) (d : list (string * Value)) : option Value :=
  match d with
  | [] => None
  | (k', v) :: rest => if String.eqb k k' then Some v else dict_get k rest
  end.

(** ** Ledger vocabulary for the statements

    Amounts read off a [Trade] record, sums over a ledger, and the shape of
    the records the engine produces. *)

Definition pnl_value (t : Trade) : Q :=
  match pnl t with
  | Some x => x
  | None => 0
  end.

(** [exit_price * quantity * commission], the commission charged at exit. *)
Definition exit_commission (p : BacktestParams) (t : Trade) : Q :=
  match exit_price t with
  | Some xp => xp * quantity t * commission p
  | None => 0
  end.

(** [commission_paid] is entry plus exit commission; the entry part is what
    [_enter_long_position] took from the capital. *)
Definition entry_commission (p : BacktestParams) (t : Trade) : Q :=
  commission_paid t - exit_commission p t.

Definition total (f : Trade -> Q) (l : list Trade) : Q :=
  fold_right (fun t acc => f t + acc) 0 l.

Definition closed_trade (p : BacktestParams) (t : Trade) : Prop :=
  status t = status_closed /\ side t = long /\
  exists xp x r ts,
    exit_price t = Some xp /\ pnl t = Some x /\
    return_pct t = Some r /\ exit_time t = Some ts /\
    x == (xp - entry_price t) * quantity t - xp * quantity t * commission p /\
    r == x / (entry_price t * quantity t).

Definition open_trade (t : Trade) : Prop :=
  status t = status_open /\ side t = long /\
  exit_price t = None /\ pnl t = None /\
  return_pct t = None /\ exit_time t = None.

Definition held_commission (st : BacktestNode) : Q :=
  match current_position st with
  | Some q => commission_paid q
  | None => 0
  end.

(** The engine invariant: the ledger holds closed long trades, the live
    position is an open long trade, and the capital is the initial capital
    plus realised P&L minus the entry commissions taken so far. *)
Record Inv (p : BacktestParams) (st : BacktestNode) : Prop := {
  inv_params : params st = p;
  inv_ledger : Forall (closed_trade p) (trades st);
  inv_position : forall q, current_position st = Some q -> open_trade q;
  inv_capital :
    capital st == initial_capital p + total pnl_value (trades st)
                  - total (entry_commission p) (trades st)
                  - held_commission st;
  inv_zero_fee :
    commission p == 0 ->
    capital st == initial_capital p + total pnl_value (trades st)
}.

(** Number of records with [status = "open"]. *)
Definition is_open (t : Trade) : bool :=
  match status t with
  | status_open => true
  | status_closed => false
  end.

Definition open_positions (st : BacktestNode) : nat :=
  List.length (filter is_open (trades st)) +
  match current_position st with
  | Some q => if is_open q then 1 else 0
  | None => 0
  end.

(** ** Concrete inputs used by the examples *)

(** A bar whose four prices are [c], with signal [s]. *)
Definition bar (t : Timestamp) (c : Q) (s : Q) : Row :=
  {| timestamp := t; open := c; high := c; low := c; close := c;
     volume := 1; signal := Some s |}.

(** 1 % commission, no slippage, the whole capital per trade. *)
Definition fee_params : BacktestParams :=
  {| initial_capital := 10000; commission := 1 # 100; slippage := 0;
     position_size := 1; max_positions := 1 |}.

(** Buy at 100 on the first bar, sell at 100 on the second. *)
Definition round_trip : list Row := [bar 1%Z 100 1; bar 2%Z 100 (-1)].

(** No commission, no slippage. *)
Definition free_params : BacktestParams :=
  {| initial_capital := 10000; commission := 0; slippage := 0;
     position_size := 1; max_positions := 1 |}.

(** Buy at 100, hold at 110, sell at 120. *)
Definition rally : list Row :=
  [bar 1%Z 100 1; bar 2%Z 110 0; bar 3%Z 120 (-1)].

(** The same row with another signal value. *)
Definition with_signal (row : Row) (s : option Q) : Row :=
  {| timestamp := timestamp row; open := open row; high := high row;
     low := low row; close := close row; volume := volume row;
     signal := s |}.

(** Order of two rows by timestamp. *)
Definition ts_le (a b : Row) : Prop := (timestamp a <= timestamp b)%Z.

(** Two bars given in descending timestamp order, no signal. *)
Definition unsorted_bars : list Row := [bar 2%Z 100 0; bar 1%Z 100 0].

(** A buy on the first bar, nothing afterwards. *)
Definition buy_and_hold : list Row := [bar 1%Z 100 1; bar 2%Z 110 0].

(** A sealed trade record: [pnl] and [return_pct] are numbers. *)
Definition recorded (t : Trade) : Prop :=
  exists x r, pnl t = Some x /\ return_pct t = Some r.

Definition return_value (t : Trade) : Q :=
  match return_pct t with
  | Some r => r
  | None => 0
  end.

(** A sealed long trade with the given [pnl] (the other amounts are
    arbitrary); used to build example ledgers. *)
Definition sealed (x : Q) : Trade :=
  {| entry_time := 1%Z; exit_time := Some 2%Z;
     entry_price := 100; exit_price := Some 100;
     quantity := 1; side := long;
     pnl := Some x; return_pct := Some (x / 100);
     commission_paid := 0; slippage_cost := 0;
     status := status_closed |}.

(** Example ledgers: two winners; a winner and a trade that broke even. *)
Definition winners_only : list Trade := [sealed 30; sealed 12].
Definition win_and_flat : list Trade := [sealed 30; sealed 0].

(** An engine state after a run that left the given ledger and a one-point
    equity curve. *)
Definition ledger_node (l : list Trade) : BacktestNode :=
  {| params := free_params;
     current_position := None;
     trades := l;
     equity_curve := [{| ep_timestamp := 1%Z; equity := 10000;
                         drawdown := 0; position := pos_flat |}];
     capital := 10000;
     stdout := [] |}.

(** ** Drawdown: the specification's formula and the stored values *)

(** [running_max(equity[0..i])] in the specification's words: the maximum of
    the first [i + 1] equities. *)
Definition running_max_upto (eq : list Q) (i : nat) : Q :=
  match firstn (S i) eq with
  | [] => 0
  | x :: rest => fold_left max_step rest x
  end.

(** [(equity[i] - running_max(equity[0..i])) / running_max(equity[0..i])]. *)
Definition spec_drawdown_at (eq : list Q) (i : nat) : Q :=
  (nth i eq 0 - running_max_upto eq i) / running_max_upto eq i.

(** [abs(min over i of ...)], following the specification. *)
Definition spec_max_drawdown (eq : list Q) : Q :=
  match map (spec_drawdown_at eq) (seq 0 (List.length eq)) with
  | [] => 0
  | d :: rest => Qabs (series_min d rest)
  end.

(** The drawdowns [_calculate_current_drawdown] stores along a curve with the
    given equities: 0 for the first point, then [(peak - e) / peak] against
    the running peak. *)
Fixpoint peak_drawdowns (m : Q) (l : list Q) : list Q :=
  match l with
  | [] => []
  | e :: rest =>
      let m' := max_step m e in
      (m' - e) / m' :: peak_drawdowns m' rest
  end.

Definition engine_drawdowns (eq : list Q) : list Q :=
  match eq with
  | [] => []
  | e0 :: rest => 0 :: peak_drawdowns e0 rest
  end.

Definition curve_ok (curve : list EquityPoint) : Prop :=
  map drawdown curve = engine_drawdowns (map equity curve).

(** ** Solvency

    With a commission rate below 1, a slippage rate below 1 and positive
    prices, the capital stays positive while flat, and a live position has a
    positive quantity bought for no more than the capital. *)

Definition solvent (st : BacktestNode) : Prop :=
  match current_position st with
  | None => 0 < capital st
  | Some q =>
      0 < quantity q /\ 0 < entry_price q /\
      entry_price q * quantity q <= capital st
  end.

(** A 200 % commission rate (the validator only refuses negative rates). *)
Definition usury_params : BacktestParams :=
  {| initial_capital := 100; commission := 2; slippage := 0;
     position_size := 1; max_positions := 1 |}.

(** One bar at price 1 with a buy signal. *)
Definition single_buy : list Row := [bar 1%Z 1 1].

(** ** Further vocabulary: health of a state, counts, times *)

(** The state of a run with sound fees and positive prices: the engine
    invariant, solvency, positive equity along the curve and positive
    quantities and prices in the ledger. *)
Record Healthy (p : BacktestParams) (st : BacktestNode) : Prop := {
  healthy_inv : Inv p st;
  healthy_solvent : solvent st;
  healthy_curve : Forall (fun pt => 0 < equity pt) (equity_curve st);
  healthy_ledger :
    Forall (fun t => 0 < quantity t /\ 0 < entry_price t) (trades st)
}.


(** A signal that the loop does not act on: 0, or missing. *)
Definition inert (r : Row) : Prop :=
  match signal r with
  | None => True
  | Some s => s == 0
  end.

(** Three bars at different prices with no signal at all. *)
Definition idle_bars : list Row :=
  [bar 1%Z 100 0; bar 2%Z 90 0; bar 3%Z 120 0].

(** An engine that has not traded: flat, empty ledger, capital [C], and a
    curve that stays at [C]. *)
Definition Quiet (C : Q) (st : BacktestNode) : Prop :=
  current_position st = None /\ trades st = [] /\ capital st = C /\
  stdout st = [] /\
  Forall (fun pt => equity pt = C /\ position pt = pos_flat /\ drawdown pt == 0)
         (equity_curve st).

(** The times a trade record carries, in the order they happened. *)
Definition trade_times (t : Trade) : list Timestamp :=
  match exit_time t with
  | Some x => [entry_time t; x]
  | None => [entry_time t]
  end.

Definition ledger_times (l : list Trade) : list Timestamp :=
  flat_map trade_times l.

(** The times of the ledger followed by the entry time of the live
    position. *)
Definition state_times (st : BacktestNode) : list Timestamp :=
  ledger_times (trades st) ++
  match current_position st with
  | Some q => [entry_time q]
  | None => []
  end.

(** Chronology up to time [T]. *)
Definition Chron (T : Timestamp) (st : BacktestNode) : Prop :=
  StronglySorted Z.le (state_times st) /\
  Forall (fun x => (x <= T)%Z) (state_times st).

(** The timestamp of the last row of [data], or [T] when there is none. *)
Definition last_timestamp (T : Timestamp) (data : list Row) : Timestamp :=
  fold_left (fun _ r => timestamp r) data T.

(** Where a trade comes from: the bar it was entered on and the bar it was
    exited on. *)
Definition entered_on (p : BacktestParams) (b : Row) (t : Trade) : Prop :=
  entry_time t = timestamp b /\
  entry_price t = close b * (1 + slippage p) /\
  exists sig, signal b = Some sig /\ 0 < sig.

Definition exited_on (p : BacktestParams) (b : Row) (t : Trade) : Prop :=
  exit_time t = Some (timestamp b) /\
  exit_price t = Some (close b * (1 - slippage p)).

Definition sell_bar (b : Row) : Prop :=
  exists sig, signal b = Some sig /\ sig < 0.

(** Every trade of the ledger was entered on a buy bar of [rows] and exited on
    a sell bar of [rows]; the live position was entered on a buy bar. *)
Definition Prov (p : BacktestParams) (rows : list Row) (st : BacktestNode)
  : Prop :=
  Forall (fun t => exists b_in b_out,
              In b_in rows /\ In b_out rows /\
              entered_on p b_in t /\ exited_on p b_out t /\ sell_bar b_out)
         (trades st) /\
  forall q, current_position st = Some q ->
            exists b_in, In b_in rows /\ entered_on p b_in q.



(** Counting what was printed and what the bars asked for. *)
Definition is_entered (pr : Printed) : bool :=
  match pr with
  | EnteredLong _ _ => true
  | ClosedPosition _ _ _ => false
  end.

Definition count_entered (out : list Printed) : nat :=
  List.length (filter is_entered out).

Definition is_buy (r : Row) : bool :=
  match signal r with
  | Some s => Qgtb s 0
  | None => false
  end.

Definition is_sell (r : Row) : bool :=
  match signal r with
  | Some s => Qltb s 0
  | None => false
  end.

Definition count_rows (f : Row -> bool) (rows : list Row) : nat :=
  List.length (filter f rows).

Definition live (st : BacktestNode) : nat :=
  match current_position st with
  | Some _ => 1
  | None => 0
  end.

Definition exit_printed (pr : Printed) : Prop :=
  match pr with
  | EnteredLong _ _ => True
  | ClosedPosition _ _ reason => reason = "signal_exit"%string
  end.

(** After [nb] buy bars and [ns] sell bars. *)
Definition Tally (nb ns : nat) (st : BacktestNode) : Prop :=
  count_entered (stdout st) = (List.length (trades st) + live st)%nat /\
  (List.length (trades st) + live st <= nb)%nat /\
  (List.length (trades st) <= ns)%nat /\
  Forall exit_printed (stdout st).


(** The round trip, given latest bar first. *)
Definition round_trip_reversed : list Row :=
  [bar 2%Z 100 (-1); bar 1%Z 100 1].

(** The conditions the validators of [BacktestParams] check. *)
Definition acceptable (p : BacktestParams) : Prop :=
  0 < initial_capital p /\ 0 <= commission p /\ 0 <= slippage p /\
  0 < position_size p /\ position_size p <= 1.

(** Parameters with a negative commission rate. *)
Definition negative_fee_params : BacktestParams :=
  {| initial_capital := 10000; commission := - (1 # 100); slippage := 0;
     position_size := 1; max_positions := 1 |}.

(** With no fees and a constant price [k] nothing is gained or lost. *)
Definition Flatline (p : BacktestParams) (k : Q) (st : BacktestNode) : Prop :=
  capital st == initial_capital p /\
  (forall q, current_position st = Some q -> entry_price q == k) /\
  Forall (fun t => pnl_value t == 0 /\ return_value t == 0) (trades st) /\
  Forall (fun pt => equity pt == initial_capital p) (equity_curve st).

(** Constant price 50: buy on the first bar, sell on the third. *)
Definition flat_market : list Row :=
  [bar 1%Z 50 1; bar 2%Z 50 0; bar 3%Z 50 (-1); bar 4%Z 50 0].

(** ** The node's input adapter: [run], [_extract_input_data],
       [_is_ohlcv_data]

    A dataframe is a list of column labels and its records.  The cells under
    the labels [timestamp], [open], [high], [low], [close], [volume] and
    [signal] are the fields of a [Row]; a field is read only where the code
    reads the cell, after the label was found, and cells under other labels
    are never read.  An input value is either a dictionary, of which the
    entries ["type"] and ["data"] matter (the latter as the frame that
    [pd.DataFrame] builds from it), or something else.  The dictionary of
    inputs is the list of its items in insertion order. *)

Record Frame : Type := {
  columns : list string;
  records : list Row
}.

Inductive InputValue : Type :=
| OtherValue
| DictValue (type : option string) (data : option Frame).

(** What can be raised below [run]: an error of the engine, a missing key,
    or the [.str] accessor refusing an index without string labels. *)
Inductive raised : Type :=
| Raised (e : error)
| KeyError (key : string)
| AttributeError.

(** The outcome of [run]: every exception leaves it as
    [RuntimeError("BacktestNode failed: ...")]; the cause is kept. *)
Inductive outcome (A : Type) : Type :=
| Returned (a : A)
| RuntimeError (cause : raised).

Arguments Returned {A} a.
Arguments RuntimeError {A} cause.

Definition obind {A B : Type} (m : outcome A) (k : A -> outcome B) : outcome B :=
  match m with
  | Returned a => k a
  | RuntimeError c => RuntimeError c
  end.

Notation "x <- m ;;; k" := (obind m (fun x => k))
  (at level 61, m at next level, right associativity).

Definition lift {A : Type} (r : result A) : outcome A :=
  match r with
  | Ok a => Returned a
  | Err e => RuntimeError (Raised e)
  end.

(** [str.lower] on the letters A-Z (no other character lowers to a letter of
    the required labels). *)
Definition lower_ascii (c : Ascii.ascii) : Ascii.ascii :=
  let n := Ascii.nat_of_ascii c in
  if (65 <=? n)%nat && (n <=? 90)%nat then Ascii.ascii_of_nat (n + 32) else c.

Fixpoint lower (s : string) : string :=
  match s with
  | EmptyString => EmptyString
  | String c rest => String (lower_ascii c) (lower rest)
  end.

Definition required_columns : list string :=
  ["open"; "high"; "low"; "close"; "volume"]%string.

(** [label in df.columns]. *)
Definition has_label (k : string) (df : Frame) : bool :=
  existsb (String.eqb k) (columns df).

(** [required_columns.issubset(set(df.columns.str.lower()))]; a frame without
    columns has no string labels and [.str] raises on it. *)
Definition _is_ohlcv_data (df : Frame) : outcome bool :=
  match columns df with
  | [] => RuntimeError AttributeError
  | _ :: _ =>
      Returned (forallb (fun c => existsb (String.eqb c) (map lower (columns df)))
                        required_columns)
  end.

(** [df["signal"] = 0]. *)
Definition assign_signal_zero (df : Frame) : Frame :=
  {| columns := if has_label "signal" df then columns df
                else columns df ++ ["signal"%string];
     records := map (fun r => with_signal r (Some 0)) (records df) |}.

(** The loop of [_extract_input_data] over the items of [inputs]. *)
Fixpoint extract_loop (inputs : list (string * InputValue))
         (combined_data : option Frame) : outcome (option Frame) :=
  match inputs with
  | [] => Returned combined_data
  | (_, input_data) :: rest =>
      match input_data with
      | DictValue (Some ty) data =>
          if String.eqb ty "dataframe" then
            match data with
            | None => RuntimeError (KeyError "data")
            | Some df =>
                ohlcv <- _is_ohlcv_data df ;;;
                if ohlcv && has_label "signal" df then Returned (Some df)
                else if ohlcv
                     then extract_loop rest (Some (assign_signal_zero df))
                     else extract_loop rest combined_data
            end
          else extract_loop rest combined_data
      | _ => extract_loop rest combined_data
      end
  end.

Definition _extract_input_data (inputs : list (string * InputValue))
  : outcome Frame :=
  combined_data <- extract_loop inputs None ;;;
  match combined_data with
  | None =>
      RuntimeError (Raised (ValueError
        "No signals data found in inputs. Expected dataframe with OHLCV data and 'signal' column"))
  | Some df => Returned df
  end.

(** [_merge_signals_and_prices] on the frame it gets from [run] (the same
    object twice): copy, fill or create the signal column, sort by the
    [timestamp] column. *)
Definition merge_combined (df : Frame) : outcome Frame :=
  let filled :=
    if has_label "signal" df
    then {| columns := columns df; records := map fillna (records df) |}
    else assign_signal_zero df in
  if has_label "timestamp" filled
  then Returned {| columns := columns filled;
                   records := sort_values (records filled) |}
  else RuntimeError (KeyError "timestamp").

(** The cells the loop body reads from a row, in the order it reads them. *)
Definition row_keys : list string :=
  ["timestamp"; "open"; "high"; "low"; "close"; "signal"]%string.

Definition missing_key (df : Frame) : option string :=
  find (fun k => negb (has_label k df)) row_keys.

(** [BacktestNode.run(inputs)] on a constructed node. *)
Definition BacktestNode_run (node : BacktestNode)
           (inputs : list (string * InputValue))
  : outcome (BacktestNode * BacktestResults) :=
  match inputs with
  | [] => RuntimeError (Raised (ValueError "BacktestNode requires input data"))
  | _ :: _ =>
      df <- _extract_input_data inputs ;;;
      combined_data <- merge_combined df ;;;
      match records combined_data, missing_key combined_data with
      | _ :: _, Some k => RuntimeError (KeyError k)
      | _, _ =>
          lift (st <- _run_backtest_simulation node (records combined_data) ;;
                results <- _calculate_performance_metrics
                             st (records combined_data) ;;
                Ok (st, results))
      end
  end.

(** The labels of a well-formed table, and the same in capitals. *)
Definition canonical_labels : list string :=
  ["timestamp"; "open"; "high"; "low"; "close"; "volume"; "signal"]%string.

Definition capital_labels : list string :=
  ["timestamp"; "Open"; "High"; "Low"; "Close"; "Volume"; "signal"]%string.

Definition price_labels : list string :=
  ["timestamp"; "open"; "high"; "low"; "close"; "volume"]%string.

Definition dataframe (df : Frame) : InputValue :=
  DictValue (Some "dataframe"%string) (Some df).

(** An input the extraction loop passes over without choosing it and without
    failing. *)
Definition passed_over (v : InputValue) : Prop :=
  match v with
  | DictValue (Some ty) data =>
      String.eqb ty "dataframe" = true ->
      exists df, data = Some df /\
        (_is_ohlcv_data df = Returned false \/
         (_is_ohlcv_data df = Returned true /\ has_label "signal" df = false))
  | _ => True
  end.

(** An input that is not an OHLCV dataframe at all. *)
Definition no_prices (v : InputValue) : Prop :=
  match v with
  | DictValue (Some ty) data =>
      String.eqb ty "dataframe" = true ->
      exists df, data = Some df /\ _is_ohlcv_data df = Returned false
  | _ => True
  end.

(** Example tables: prices with signals, prices only, capitalised labels. *)
Definition signal_frame : Frame :=
  {| columns := canonical_labels; records := round_trip |}.

Definition price_frame : Frame :=
  {| columns := price_labels; records := round_trip |}.

Definition capital_frame : Frame :=
  {| columns := capital_labels; records := round_trip |}.

(** Inputs as the pipeline supplies them, followed by a malformed one. *)
Definition pipeline_inputs : list (string * InputValue) :=
  [ ("price_data", dataframe price_frame);
    ("signals", dataframe signal_frame);
    ("broken", DictValue (Some "dataframe") None) ]%string.

(** Inputs among which nothing is an OHLCV dataframe. *)
Definition useless_inputs : list (string * InputValue) :=
  [ ("signals", DictValue (Some "signals") (Some signal_frame));
    ("note", OtherValue) ]%string.

(** Only prices, no signals. *)
Definition price_only_inputs : list (string * InputValue) :=
  [ ("signals", DictValue (Some "signals") (Some signal_frame));
    ("price_data", dataframe price_frame) ]%string.

(** * Properties *)

(** ** Reflection of the boolean comparisons *)

Lemma Qltb_true (x y : Q) : Qltb x y = true <-> x < y.
Proof.
  unfold Qltb. rewrite negb_true_iff. split; intro H.
  - apply Qnot_le_lt. intro Hle. apply Qle_bool_iff in Hle. congruence.
  - destruct (Qle_bool y x) eqn:E; [|reflexivity].
    apply Qle_bool_iff in E. exfalso. apply (Qlt_not_le _ _ H E).
Qed.

Lemma Qltb_false (x y : Q) : Qltb x y = false <-> y <= x.
Proof.
  unfold Qltb. rewrite negb_false_iff. apply Qle_bool_iff.
Qed.

Lemma Qgtb_true (x y : Q) : Qgtb x y = true <-> y < x.
Proof. apply Qltb_true. Qed.

Lemma Qgtb_false (x y : Q) : Qgtb x y = false <-> x <= y.
Proof. apply Qltb_false. Qed.

Lemma Qle_bool_false (x y : Q) : Qle_bool x y = false <-> y < x.
Proof.
  split; intro H.
  - apply Qnot_le_lt. intro Hle. apply Qle_bool_iff in Hle. congruence.
  - destruct (Qle_bool x y) eqn:E; [|reflexivity].
    apply Qle_bool_iff in E. exfalso. apply (Qlt_not_le _ _ H E).
Qed.

Lemma Qeq_bool_false (x y : Q) : Qeq_bool x y = false <-> ~ x == y.
Proof.
  split; intro H.
  - intro E. apply Qeq_bool_iff in E. congruence.
  - destruct (Qeq_bool x y) eqn:E; [|reflexivity].
    apply Qeq_bool_iff in E. contradiction.
Qed.

(** ** The error monad *)

Lemma bind_Ok {A B : Type} (m : result A) (k : A -> result B) (b : B) :
  bind m k = Ok b -> exists a, m = Ok a /\ k a = Ok b.
Proof.
  destruct m as [a|e]; cbn; intro H; [eauto | discriminate].
Qed.

Lemma py_div_Ok (a b q : Q) :
  py_div a b = Ok q -> ~ b == 0 /\ q = a / b.
Proof.
  unfold py_div. destruct (Qeq_bool b 0) eqn:E; intro H; [discriminate|].
  apply Qeq_bool_false in E. split; [assumption | congruence].
Qed.

Lemma py_div_nonzero (a b : Q) : ~ b == 0 -> py_div a b = Ok (a / b).
Proof.
  intro H. unfold py_div. apply Qeq_bool_false in H. now rewrite H.
Qed.

Ltac inv_bind H :=
  let a := fresh "a" in
  let Ha := fresh "Ha" in
  apply bind_Ok in H; destruct H as [a [Ha H]].

Ltac inv_Ok H := injection H as <-.

(** ** The engine invariant *)

Lemma total_snoc (f : Trade -> Q) (l : list Trade) (t : Trade) :
  total f (l ++ [t]) == total f l + f t.
Proof.
  induction l as [|a l IH]; cbn [total app fold_right] in *.
  - lra.
  - fold (total f (l ++ [t])) in *. fold (total f l) in *. lra.
Qed.

Section EngineInvariant.

Variable p : BacktestParams.

Lemma init_Inv : Inv p (init_node p).
Proof.
  constructor; unfold held_commission; cbn.
  - reflexivity.
  - constructor.
  - discriminate.
  - lra.
  - intros _. lra.
Qed.

Lemma enter_Inv (st st' : BacktestNode) (ts : Timestamp) (price : Q) :
  Inv p st -> current_position st = None ->
  _enter_long_position st ts price = Ok st' ->
  Inv p st'.
Proof.
  intros [Hp Hl Hq Hc Hz] Hnone H.
  unfold _enter_long_position in H. inv_bind H. inv_Ok H.
  unfold held_commission in Hc. rewrite Hnone in Hc.
  constructor; cbn [params trades current_position capital].
  - assumption.
  - assumption.
  - intros q Eq. inv_Ok Eq. repeat split.
  - unfold held_commission. cbn. rewrite Hc. ring.
  - intro Hc0. rewrite (Hz Hc0). rewrite Hp, Hc0. ring.
Qed.

Lemma close_Inv (st st' : BacktestNode) (row : Row) (reason : string) :
  Inv p st -> _close_position st row reason = Ok st' ->
  Inv p st' /\ current_position st' = None.
Proof.
  intros HI H. unfold _close_position in H.
  destruct (current_position st) as [q|] eqn:Eq.
  2:{ inv_Ok H. split; assumption. }
  destruct HI as [Hp Hl Hq Hc Hz].
  destruct (Hq q Eq) as (Hst & Hside & _).
  rewrite Hside, Hp in H. inv_bind H. inv_Ok H.
  apply py_div_Ok in Ha as [Hnz ->].
  unfold held_commission in Hc. rewrite Eq in Hc.
  split; [|reflexivity].
  constructor; cbn [params trades current_position capital].
  - reflexivity.
  - apply Forall_app. split; [assumption|]. constructor; [|constructor].
    unfold closed_trade; cbn. split; [reflexivity|]. split; [reflexivity|].
    do 4 eexists. repeat split; reflexivity.
  - discriminate.
  - unfold held_commission. cbn [current_position].
    rewrite !total_snoc. unfold pnl_value at 2, entry_commission at 2.
    unfold exit_commission. cbn. rewrite Hc. ring.
  - intro Hc0. rewrite total_snoc. unfold pnl_value at 2. cbn.
    rewrite (Hz Hc0). ring.
Qed.

Lemma process_Inv (st st' : BacktestNode) (sig : Q) (row : Row) :
  Inv p st -> _process_signal st sig row = Ok st' -> Inv p st'.
Proof.
  intros HI H. unfold _process_signal in H.
  destruct (Qgtb sig 0).
  - destruct (current_position st) as [q|] eqn:Eq.
    + destruct (inv_position _ _ HI q Eq) as (_ & Hside & _).
      rewrite Hside in H. now inv_Ok H.
    + eapply enter_Inv; eassumption.
  - destruct (Qltb sig 0); [|now inv_Ok H].
    destruct (current_position st) as [q|] eqn:Eq; [|now inv_Ok H].
    destruct (side q); [|now inv_Ok H].
    eapply close_Inv; eassumption.
Qed.

Lemma dispatch_Inv (st st' : BacktestNode) (row : Row) :
  Inv p st -> dispatch_signal st row = Ok st' -> Inv p st'.
Proof.
  intros HI H. unfold dispatch_signal in H.
  destruct (signal row) as [sig|]; [|now inv_Ok H].
  destruct (Qeq_bool sig 0); [now inv_Ok H|].
  eapply process_Inv; eassumption.
Qed.

(** Appending an equity point touches neither ledger, position nor capital. *)
Lemma record_point_Inv (st : BacktestNode) (pt : EquityPoint) :
  Inv p st -> Inv p (record_point st pt).
Proof.
  intros [Hp Hl Hq Hc Hz]. constructor; assumption.
Qed.

Lemma step_Inv (st st' : BacktestNode) (row : Row) :
  Inv p st -> step st row = Ok st' -> Inv p st'.
Proof.
  intros HI H. unfold step in H. inv_bind H.
  eapply dispatch_Inv; [|exact H]. now apply record_point_Inv.
Qed.

Lemma run_loop_Inv (data : list Row) :
  forall st st', Inv p st -> run_loop st data = Ok st' -> Inv p st'.
Proof.
  induction data as [|row rest IH]; intros st st' HI H; cbn in H.
  - now inv_Ok H.
  - inv_bind H. eapply IH; [|exact H]. eapply step_Inv; eassumption.
Qed.

Lemma close_remaining_Inv (st st' : BacktestNode) (data : list Row) :
  Inv p st -> close_remaining st data = Ok st' ->
  Inv p st' /\ current_position st' = None.
Proof.
  intros HI H. unfold close_remaining in H.
  destruct (current_position st) eqn:Eq.
  - destruct (rev data); [discriminate|].
    eapply close_Inv; eassumption.
  - inv_Ok H. split; assumption.
Qed.

End EngineInvariant.

(** ** Shape of one step and of a whole run *)

Lemma enter_fields (st st' : BacktestNode) (ts : Timestamp) (price : Q) :
  _enter_long_position st ts price = Ok st' ->
  ~ price == 0 /\
  equity_curve st' = equity_curve st /\ trades st' = trades st /\
  params st' = params st /\
  capital st' =
    capital st - capital st * position_size (params st) * commission (params st) /\
  exists q, current_position st' = Some q /\ side q = long /\
    entry_price q = price /\ entry_time q = ts /\
    quantity q =
      (capital st * position_size (params st)
       - capital st * position_size (params st) * commission (params st)) / price /\
    commission_paid q =
      capital st * position_size (params st) * commission (params st).
Proof.
  intro H. unfold _enter_long_position in H. inv_bind H. inv_Ok H.
  apply py_div_Ok in Ha as [Hnz ->]. cbn.
  repeat split; try assumption. eexists. repeat split.
Qed.

Lemma close_fields (st st' : BacktestNode) (row : Row) (reason : string) (q : Trade) :
  current_position st = Some q -> side q = long ->
  _close_position st row reason = Ok st' ->
  let xp := close row * (1 - slippage (params st)) in
  let net := (xp - entry_price q) * quantity q
             - xp * quantity q * commission (params st) in
  ~ entry_price q * quantity q == 0 /\
  equity_curve st' = equity_curve st /\ params st' = params st /\
  current_position st' = None /\
  capital st' = capital st + net /\
  stdout st' = stdout st ++
    [ClosedPosition net (net / (entry_price q * quantity q)) reason] /\
  exists t, trades st' = trades st ++ [t] /\
    exit_time t = Some (timestamp row) /\ exit_price t = Some xp /\
    pnl t = Some net /\ status t = status_closed /\
    entry_price t = entry_price q /\ quantity t = quantity q /\
    entry_time t = entry_time q /\
    commission_paid t = commission_paid q + xp * quantity q * commission (params st).
Proof.
  intros Eq Hside H. unfold _close_position in H.
  rewrite Eq, Hside in H. inv_bind H. inv_Ok H.
  apply py_div_Ok in Ha as [Hnz ->]. cbn.
  repeat split; try assumption. eexists. repeat split.
Qed.

Lemma enter_curve (st st' : BacktestNode) (ts : Timestamp) (price : Q) :
  _enter_long_position st ts price = Ok st' ->
  equity_curve st' = equity_curve st /\ params st' = params st.
Proof.
  intro H. apply enter_fields in H as (_ & Hc & _ & Hp & _). auto.
Qed.

Lemma close_curve (st st' : BacktestNode) (row : Row) (reason : string) :
  _close_position st row reason = Ok st' ->
  equity_curve st' = equity_curve st /\ params st' = params st.
Proof.
  unfold _close_position. intro H.
  destruct (current_position st); [|inv_Ok H; auto].
  inv_bind H. inv_Ok H. auto.
Qed.

Lemma process_curve (st st' : BacktestNode) (sig : Q) (row : Row) :
  _process_signal st sig row = Ok st' ->
  equity_curve st' = equity_curve st /\ params st' = params st.
Proof.
  unfold _process_signal. intro H.
  destruct (Qgtb sig 0).
  - destruct (current_position st) as [q|].
    + destruct (side q); [inv_Ok H; auto|].
      inv_bind H. apply close_curve in Ha as [Hc Hp].
      apply enter_curve in H as [Hc' Hp']. split; congruence.
    + eapply enter_curve; eassumption.
  - destruct (Qltb sig 0); [|inv_Ok H; auto].
    destruct (current_position st) as [q|]; [|inv_Ok H; auto].
    destruct (side q); [|inv_Ok H; auto].
    eapply close_curve; eassumption.
Qed.

Lemma dispatch_curve (st st' : BacktestNode) (row : Row) :
  dispatch_signal st row = Ok st' ->
  equity_curve st' = equity_curve st /\ params st' = params st.
Proof.
  unfold dispatch_signal. intro H.
  destruct (signal row) as [sig|]; [|inv_Ok H; split; reflexivity].
  destruct (Qeq_bool sig 0); [inv_Ok H; split; reflexivity|].
  eapply process_curve; eassumption.
Qed.

(** On an engine state a step records the equity of the state it starts from
    and then does one of three things: nothing, enter, or exit. *)
Lemma step_cases (p : BacktestParams) (st st' : BacktestNode) (row : Row) :
  Inv p st -> step st row = Ok st' ->
  exists pt,
    equity pt = _calculate_current_equity st row /\
    ep_timestamp pt = timestamp row /\
    _calculate_current_drawdown st (equity pt) = Ok (drawdown pt) /\
    (st' = record_point st pt
     \/ (current_position st = None /\
         exists sig, signal row = Some sig /\ 0 < sig /\
           _enter_long_position (record_point st pt) (timestamp row)
             (close row * (1 + slippage p)) = Ok st')
     \/ (exists q sig, current_position st = Some q /\ side q = long /\
           signal row = Some sig /\ sig < 0 /\
           _close_position (record_point st pt) row "signal_exit" = Ok st')).
Proof.
  intros HI H. unfold step in H. inv_bind H.
  match type of H with
  | dispatch_signal (record_point _ ?pt) _ = _ => exists pt
  end.
  split; [reflexivity|]. split; [reflexivity|]. split; [exact Ha|].
  unfold dispatch_signal in H.
  destruct (signal row) as [sig|] eqn:Es; [|inv_Ok H; now left].
  destruct (Qeq_bool sig 0); [inv_Ok H; now left|].
  unfold _process_signal in H. cbn [current_position record_point params] in H.
  rewrite (inv_params _ _ HI) in H.
  destruct (Qgtb sig 0) eqn:Eg.
  - apply Qgtb_true in Eg.
    destruct (current_position st) as [q|] eqn:Eq.
    + destruct (inv_position _ _ HI q Eq) as (_ & Hside & _).
      rewrite Hside in H. inv_Ok H. now left.
    + right; left. split; [reflexivity|]. eauto.
  - destruct (Qltb sig 0) eqn:El; [|inv_Ok H; now left].
    apply Qltb_true in El.
    destruct (current_position st) as [q|] eqn:Eq; [|inv_Ok H; now left].
    destruct (inv_position _ _ HI q Eq) as (_ & Hside & _).
    rewrite Hside in H. right; right. exists q, sig. auto.
Qed.

Lemma step_curve (st st' : BacktestNode) (row : Row) :
  step st row = Ok st' ->
  exists pt, equity_curve st' = equity_curve st ++ [pt] /\
    equity pt = _calculate_current_equity st row /\
    ep_timestamp pt = timestamp row /\
    _calculate_current_drawdown st (equity pt) = Ok (drawdown pt) /\
    params st' = params st.
Proof.
  intro H. unfold step in H. inv_bind H.
  apply dispatch_curve in H as [Hc Hp].
  eexists. split; [exact Hc|]. cbn. repeat split; assumption.
Qed.

Lemma run_loop_snoc (l : list Row) (r : Row) :
  forall st, run_loop st (l ++ [r]) = (st' <- run_loop st l ;; step st' r).
Proof.
  induction l as [|x l IH]; intro st; cbn.
  - destruct (step st r); reflexivity.
  - destruct (step st x) as [st1|e]; cbn; [apply IH | reflexivity].
Qed.

Lemma run_loop_app (l1 l2 : list Row) :
  forall st, run_loop st (l1 ++ l2) = (st' <- run_loop st l1 ;; run_loop st' l2).
Proof.
  induction l1 as [|x l IH]; intro st; cbn.
  - reflexivity.
  - destruct (step st x) as [st1|e]; cbn; [apply IH | reflexivity].
Qed.

Lemma run_loop_curve (data : list Row) :
  forall st st', run_loop st data = Ok st' ->
    map ep_timestamp (equity_curve st') =
    map ep_timestamp (equity_curve st) ++ map timestamp data.
Proof.
  induction data as [|row rest IH]; intros st st' H; cbn in H.
  - inv_Ok H. cbn. now rewrite app_nil_r.
  - inv_bind H. apply step_curve in Ha as (pt & Hc & _ & Ht & _).
    rewrite (IH _ _ H), Hc, map_app. cbn. rewrite Ht, <- app_assoc. reflexivity.
Qed.

Lemma close_remaining_curve (st st' : BacktestNode) (data : list Row) :
  close_remaining st data = Ok st' -> equity_curve st' = equity_curve st.
Proof.
  unfold close_remaining, _close_position. intro H.
  destruct (current_position st); [|now inv_Ok H].
  destruct (rev data); [discriminate|].
  inv_bind H. now inv_Ok H.
Qed.

Lemma validate_params_Ok (p p' : BacktestParams) :
  validate_params p = Ok p' ->
  p' = p /\ 0 < initial_capital p /\ 0 <= commission p /\ 0 <= slippage p /\
  0 < position_size p /\ position_size p <= 1.
Proof.
  unfold validate_params, validate_initial_capital, validate_fees,
    validate_position_size.
  destruct (Qle_bool (initial_capital p) 0) eqn:E1; [discriminate|].
  destruct (Qltb (commission p) 0) eqn:E2; [discriminate|].
  destruct (Qltb (slippage p) 0) eqn:E3; [discriminate|].
  destruct (Qle_bool (position_size p) 0) eqn:E4; [discriminate|].
  destruct (Qgtb (position_size p) 1) eqn:E5; [discriminate|].
  cbn. intro H. inv_Ok H.
  apply Qle_bool_false in E1, E4. apply Qltb_false in E2, E3.
  apply Qgtb_false in E5. repeat split; assumption.
Qed.

(** What a completed run is made of. *)
Lemma run_Ok (p : BacktestParams) (data : list Row)
      (st : BacktestNode) (res : BacktestResults) :
  run p data = Ok (st, res) ->
  validate_params p = Ok p /\
  exists st_n,
    run_loop (init_node p) (_merge_signals_and_prices data) = Ok st_n /\
    close_remaining st_n (_merge_signals_and_prices data) = Ok st /\
    _calculate_performance_metrics st (_merge_signals_and_prices data) = Ok res.
Proof.
  intro H. unfold run in H. inv_bind H.
  pose proof (validate_params_Ok _ _ Ha) as [-> _].
  split; [assumption|].
  inv_bind H. inv_bind H. injection H as <- <-.
  unfold _run_backtest_simulation in Ha0. inv_bind Ha0.
  eexists. split; [exact Ha2|]. split; assumption.
Qed.

Lemma metrics_Ok (st : BacktestNode) (data : list Row) (res : BacktestResults) :
  _calculate_performance_metrics st data = Ok res ->
  res_trades res = trades st /\
  res_equity_curve res = equity_curve st /\
  last_equity (equity_curve st) = Ok (final_capital res) /\
  max_drawdown res = metric_max_drawdown (map equity (equity_curve st)) /\
  num_trades res = List.length (trades st) /\
  exists stats, trade_statistics (trades st) = Ok stats /\
    win_rate res = ts_win_rate stats /\
    profit_factor res = ts_profit_factor stats /\
    avg_trade_return res = ts_avg_trade_return stats.
Proof.
  intro H. unfold _calculate_performance_metrics in H.
  inv_bind H. inv_bind H. inv_bind H. inv_Ok H. cbn.
  repeat split; try assumption. eexists. repeat split. assumption.
Qed.

(** ** The ledger of a completed run *)

Lemma run_Inv (p : BacktestParams) (data : list Row)
      (st : BacktestNode) (res : BacktestResults) :
  run p data = Ok (st, res) -> Inv p st /\ current_position st = None.
Proof.
  intro H. apply run_Ok in H as (_ & st_n & Hloop & Hfin & _).
  eapply close_remaining_Inv; [|exact Hfin].
  eapply run_loop_Inv; [apply init_Inv | exact Hloop].
Qed.

(** C2 (as the code has it).  Every trade in the ledger of a completed run is
    closed and its [pnl] is the gross price difference minus the EXIT
    commission only: [pnl = (exit_price - entry_price) * quantity
    - exit_price * quantity * commission]; the entry commission is taken from
    the capital when the position is opened and is not part of [pnl].
    [return_pct = pnl / (entry_price * quantity)]. *)
Theorem trade_pnl_net_of_exit_commission
        (p : BacktestParams) (data : list Row)
        (st : BacktestNode) (res : BacktestResults) (t : Trade) :
  run p data = Ok (st, res) ->
  In t (res_trades res) ->
  exists xp x r,
    status t = status_closed /\
    exit_price t = Some xp /\ pnl t = Some x /\ return_pct t = Some r /\
    x == (xp - entry_price t) * quantity t - exit_commission p t /\
    exit_commission p t == xp * quantity t * commission p /\
    r == x / (entry_price t * quantity t).
Proof.
  intros Hrun Hin.
  pose proof (run_Inv _ _ _ _ Hrun) as [HI _].
  apply run_Ok in Hrun as (_ & st_n & _ & _ & Hm).
  apply metrics_Ok in Hm as (Ht & _). rewrite Ht in Hin.
  pose proof (inv_ledger _ _ HI) as Hl. rewrite Forall_forall in Hl.
  destruct (Hl t Hin) as (Hs & _ & xp & x & r & ts & Hxp & Hx & Hr & _ & Ex & Er).
  exists xp, x, r. unfold exit_commission. rewrite Hxp.
  split; [assumption|]. split; [reflexivity|]. do 2 (split; [assumption|]).
  split; [exact Ex|]. split; [reflexivity | exact Er].
Qed.

Lemma trade_pnl_net_of_exit_commission_witness :
  exists st res t,
    run fee_params round_trip = Ok (st, res) /\ In t (res_trades res) /\
    exists xp x r,
      status t = status_closed /\
      exit_price t = Some xp /\ pnl t = Some x /\ return_pct t = Some r /\
      x == (xp - entry_price t) * quantity t - exit_commission fee_params t /\
      exit_commission fee_params t == xp * quantity t * commission fee_params /\
      r == x / (entry_price t * quantity t).
Proof.
  remember (run fee_params round_trip) as out eqn:E.
  vm_compute in E.
  match type of E with
  | _ = Ok (?st, ?res) =>
      exists st, res;
      match eval cbv in (res_trades res) with
      | ?t :: _ => exists t
      end
  end.
  split; [exact E|]. split; [left; reflexivity|].
  subst out.
  refine (trade_pnl_net_of_exit_commission fee_params round_trip _ _ _ _ _).
  - vm_compute. reflexivity.
  - left. reflexivity.
Defined.

(** C2 (as stated) fails: on the round trip with 1 % commission the entry
    commission is 100 and the exit commission 99, the recorded [pnl] is -99
    and not -199. *)
Lemma pnl_excludes_entry_commission :
  exists st res t xp x,
    run fee_params round_trip = Ok (st, res) /\ res_trades res = [t] /\
    exit_price t = Some xp /\ pnl t = Some x /\
    entry_commission fee_params t == 100 /\
    exit_commission fee_params t == 99 /\
    x == -99 /\
    ~ x == (xp - entry_price t) * quantity t
           - entry_commission fee_params t - exit_commission fee_params t.
Proof.
  remember (run fee_params round_trip) as out eqn:E.
  vm_compute in E.
  match type of E with
  | _ = Ok (?st, ?res) =>
      exists st, res;
      match eval cbv in (res_trades res) with
      | ?t :: _ => exists t
      end
  end.
  do 2 eexists. split; [exact E|].
  split; [reflexivity|]. split; [reflexivity|]. split; [reflexivity|].
  repeat split; vm_compute; congruence.
Qed.

(** ** Capital accounting *)

Lemma py_sum_from_pnl (p : BacktestParams) (l : list Trade) :
  Forall (closed_trade p) l ->
  forall acc, exists v,
    py_sum_from pnl_of acc l = Ok v /\ v == acc + total pnl_value l.
Proof.
  induction 1 as [|t l Ht _ IH]; intro acc; cbn.
  - exists acc. split; [reflexivity | lra].
  - destruct Ht as (_ & _ & xp & x & r & ts & _ & Hx & _).
    unfold pnl_of at 1, pnl_value at 1. rewrite Hx. cbn.
    destruct (IH (acc + x)) as (v & Hv & Ev).
    exists v. split; [assumption|].
    fold (total pnl_value l). lra.
Qed.

Lemma last_equity_snoc (c : list EquityPoint) (pt : EquityPoint) :
  last_equity (c ++ [pt]) = Ok (equity pt).
Proof.
  unfold last_equity. rewrite rev_unit. reflexivity.
Qed.

(** A completed run has a last bar; the reported final capital is the equity
    computed on that bar from the state the bar starts in. *)
Lemma run_last_bar (p : BacktestParams) (data : list Row)
      (st : BacktestNode) (res : BacktestResults) :
  run p data = Ok (st, res) ->
  exists l r st_m st_n,
    _merge_signals_and_prices data = l ++ [r] /\
    run_loop (init_node p) l = Ok st_m /\ Inv p st_m /\
    step st_m r = Ok st_n /\
    close_remaining st_n (l ++ [r]) = Ok st /\
    final_capital res = _calculate_current_equity st_m r.
Proof.
  intro H. apply run_Ok in H as (_ & st_n & Hloop & Hfin & Hm).
  apply metrics_Ok in Hm as (_ & _ & Hlast & _).
  set (m := _merge_signals_and_prices data) in *. clearbody m.
  destruct m as [|x l _] using rev_ind.
  - cbn in Hloop. inv_Ok Hloop. cbn in Hfin. inv_Ok Hfin. discriminate.
  - rewrite run_loop_snoc in Hloop. inv_bind Hloop.
    exists l, x, a, st_n.
    split; [reflexivity|]. split; [assumption|].
    split; [eapply run_loop_Inv; [apply init_Inv | eassumption]|].
    split; [assumption|]. split; [assumption|].
    apply step_curve in Hloop as (pt & Hc & He & _).
    apply close_remaining_curve in Hfin.
    rewrite Hfin, Hc, last_equity_snoc in Hlast.
    injection Hlast as Hlast. congruence.
Qed.

(** With no commission and no slippage the equity recorded on the last bar
    is the capital the run ends with. *)
Lemma last_bar_zero_fee (p : BacktestParams) (l : list Row) (r : Row)
      (st_m st_n st : BacktestNode) :
  commission p == 0 -> slippage p == 0 ->
  Inv p st_m -> step st_m r = Ok st_n ->
  close_remaining st_n (l ++ [r]) = Ok st ->
  capital st == _calculate_current_equity st_m r.
Proof.
  intros Hc Hs HI Hstep Hfin.
  pose proof (inv_params _ _ HI) as Hp.
  unfold close_remaining in Hfin. rewrite rev_unit in Hfin.
  unfold _calculate_current_equity.
  destruct (step_cases _ _ _ _ HI Hstep)
    as (pt & _ & _ & _ & [-> | [(Hnone & sig & _ & _ & Hent) | (q & sig & Hq & Hside & _ & _ & Hcl)]]).
  - cbn [record_point current_position] in Hfin.
    destruct (current_position st_m) as [q|] eqn:Eq.
    + destruct (inv_position _ _ HI q Eq) as (_ & Hside & _).
      eapply close_fields in Hfin; [|exact Eq|exact Hside].
      destruct Hfin as (_ & _ & _ & _ & Hcap & _).
      rewrite Hcap, Hside. cbn [record_point capital params].
      rewrite Hp, Hc, Hs. ring.
    + inv_Ok Hfin. reflexivity.
  - rewrite Hnone.
    apply enter_fields in Hent
      as (_ & _ & _ & Hp' & Hcap & q & Hq & Hside & Hep & _ & Hqty & _).
    rewrite Hq in Hfin.
    eapply close_fields in Hfin; [|exact Hq|exact Hside].
    destruct Hfin as (_ & _ & _ & _ & Hcap' & _).
    rewrite Hcap', Hcap, Hp', Hep. cbn [record_point capital params].
    rewrite Hp, Hc, Hs. ring.
  - rewrite Hq, Hside.
    pose proof Hcl as Hcl'.
    eapply close_fields in Hcl; [|exact Hq|exact Hside].
    destruct Hcl as (_ & _ & _ & Hnone & Hcap & _).
    rewrite Hnone in Hfin. inv_Ok Hfin.
    rewrite Hcap. cbn [record_point capital params].
    rewrite Hp, Hc, Hs. ring.
Qed.

(** C1 (as the code has it).  After a completed run the engine's capital is
    the initial capital plus the sum of the trades' [pnl] minus the entry
    commissions of those trades; the reported [final_capital] is the equity
    recorded on the last bar, and it equals [initial_capital + sum(pnl)] when
    commission and slippage are both 0. *)
Theorem capital_conservation
        (p : BacktestParams) (data : list Row)
        (st : BacktestNode) (res : BacktestResults) :
  run p data = Ok (st, res) ->
  exists total_pnl,
    py_sum pnl_of (res_trades res) = Ok total_pnl /\
    capital st == initial_capital p + total_pnl
                  - total (entry_commission p) (res_trades res) /\
    (commission p == 0 -> slippage p == 0 ->
     final_capital res == initial_capital p + total_pnl).
Proof.
  intro Hrun.
  pose proof (run_Inv _ _ _ _ Hrun) as [HI Hnone].
  pose proof (run_last_bar _ _ _ _ Hrun)
    as (l & r & st_m & st_n & _ & _ & HIm & Hstep & Hfin & Hfc).
  apply run_Ok in Hrun as (_ & _ & _ & _ & Hm).
  apply metrics_Ok in Hm as (Ht & _). rewrite Ht.
  destruct (py_sum_from_pnl p _ (inv_ledger _ _ HI) 0) as (v & Hv & Ev).
  exists v. split; [exact Hv|].
  pose proof (inv_capital _ _ HI) as Hcap.
  unfold held_commission in Hcap. rewrite Hnone in Hcap.
  split.
  - rewrite Hcap, Ev. ring.
  - intros Hc Hs. rewrite Hfc.
    rewrite <- (last_bar_zero_fee p l r st_m st_n st Hc Hs HIm Hstep Hfin).
    rewrite (inv_zero_fee _ _ HI Hc), Ev. ring.
Qed.

Lemma capital_conservation_witness :
  exists st res total_pnl,
    run free_params rally = Ok (st, res) /\
    py_sum pnl_of (res_trades res) = Ok total_pnl /\
    capital st == initial_capital free_params + total_pnl
                  - total (entry_commission free_params) (res_trades res) /\
    final_capital res == initial_capital free_params + total_pnl.
Proof.
  remember (run free_params rally) as out eqn:E.
  vm_compute in E.
  match type of E with
  | _ = Ok (?st, ?res) =>
      destruct (capital_conservation free_params rally st res)
        as (v & Hv & Hcap & Hfin);
      [vm_compute; reflexivity | exists st, res, v]
  end.
  split; [exact E|]. split; [exact Hv|]. split; [exact Hcap|].
  apply Hfin; reflexivity.
Defined.

(** C1 (as stated) fails: with 1 % commission the round trip reports
    [final_capital = 9900] (the equity on the last bar, before the sale is
    processed) while [initial_capital + sum(pnl) = 10000 - 99 = 9901]. *)
Lemma final_capital_not_initial_plus_pnl :
  exists st res total_pnl,
    run fee_params round_trip = Ok (st, res) /\
    py_sum pnl_of (res_trades res) = Ok total_pnl /\
    final_capital res == 9900 /\
    initial_capital fee_params + total_pnl == 9901 /\
    ~ final_capital res == initial_capital fee_params + total_pnl.
Proof.
  remember (run fee_params round_trip) as out eqn:E.
  vm_compute in E.
  match type of E with
  | _ = Ok (?st, ?res) => exists st, res
  end.
  eexists. split; [exact E|]. split; [vm_compute; reflexivity|].
  repeat split; vm_compute; congruence.
Qed.

(** ** Signal dispatch *)

(** C4 (as the code has it).  A bar whose signal is 0 or missing is inert: the
    step changes neither position, ledger nor capital.  Every other value is
    acted on by its sign: a positive signal behaves exactly as +1 and a
    negative one exactly as -1. *)
Theorem signal_dispatch_by_sign (st : BacktestNode) (row : Row) :
  (forall st',
     signal row = None \/ (exists sig, signal row = Some sig /\ sig == 0) ->
     step st row = Ok st' ->
     current_position st' = current_position st /\
     trades st' = trades st /\ capital st' = capital st) /\
  (forall sig, signal row = Some sig -> 0 < sig ->
     step st row = step st (with_signal row (Some 1))) /\
  (forall sig, signal row = Some sig -> sig < 0 ->
     step st row = step st (with_signal row (Some (-1)))).
Proof.
  split; [|split].
  - intros st' Hsig H. unfold step in H. inv_bind H.
    unfold dispatch_signal in H.
    destruct Hsig as [E0 | (sig & E0 & E)]; rewrite E0 in H.
    + inv_Ok H. auto.
    + apply Qeq_bool_iff in E. rewrite E in H. inv_Ok H. auto.
  - intros sig Hs Hpos. unfold step.
    change (_calculate_current_equity st (with_signal row (Some 1)))
      with (_calculate_current_equity st row).
    cbn [timestamp with_signal].
    destruct (_calculate_current_drawdown st _) as [dd|e]; [|reflexivity].
    cbn [bind]. unfold dispatch_signal, _process_signal.
    rewrite Hs. cbn [signal with_signal close timestamp].
    change (Qeq_bool 1 0) with false. change (Qgtb 1 0) with true.
    assert (Qeq_bool sig 0 = false) as -> by (apply Qeq_bool_false; lra).
    apply Qgtb_true in Hpos. rewrite Hpos. reflexivity.
  - intros sig Hs Hneg. unfold step.
    change (_calculate_current_equity st (with_signal row (Some (-1))))
      with (_calculate_current_equity st row).
    cbn [timestamp with_signal].
    destruct (_calculate_current_drawdown st _) as [dd|e]; [|reflexivity].
    cbn [bind]. unfold dispatch_signal, _process_signal.
    rewrite Hs. cbn [signal with_signal close timestamp].
    change (Qeq_bool (-1) 0) with false. change (Qgtb (-1) 0) with false.
    change (Qltb (-1) 0) with true.
    assert (Qeq_bool sig 0 = false) as -> by (apply Qeq_bool_false; lra).
    assert (Qgtb sig 0 = false) as -> by (apply Qgtb_false; lra).
    apply Qltb_true in Hneg. rewrite Hneg. reflexivity.
Qed.

Lemma signal_dispatch_by_sign_witness :
  (exists st',
     step (init_node fee_params) (bar 1%Z 100 0) = Ok st' /\
     current_position st' = None /\ trades st' = [] /\
     capital st' = initial_capital fee_params) /\
  step (init_node fee_params) (bar 1%Z 100 2)
  = step (init_node fee_params) (bar 1%Z 100 1) /\
  step (init_node fee_params) (bar 1%Z 100 (-3))
  = step (init_node fee_params) (bar 1%Z 100 (-1)).
Proof.
  destruct (signal_dispatch_by_sign (init_node fee_params) (bar 1%Z 100 0))
    as (H0 & _ & _).
  destruct (signal_dispatch_by_sign (init_node fee_params) (bar 1%Z 100 2))
    as (_ & Hbuy & _).
  destruct (signal_dispatch_by_sign (init_node fee_params) (bar 1%Z 100 (-3)))
    as (_ & _ & Hsell).
  split; [|split].
  - remember (step (init_node fee_params) (bar 1%Z 100 0)) as out eqn:E.
    vm_compute in E.
    match type of E with
    | _ = Ok ?st' => exists st'
    end.
    split; [exact E|]. subst out. apply H0.
    + right. exists 0. split; reflexivity.
    + vm_compute. reflexivity.
  - apply (Hbuy 2); reflexivity.
  - apply (Hsell (-3)); reflexivity.
Defined.

(** C4 (as stated) fails: on a flat engine a bar with signal 2, and one with
    signal 1/2, opens a position and takes the entry commission. *)
Lemma fractional_signal_is_a_buy :
  exists st2 sth,
    step (init_node fee_params) (bar 1%Z 100 2) = Ok st2 /\
    step (init_node fee_params) (bar 1%Z 100 (1 # 2)) = Ok sth /\
    current_position (init_node fee_params) = None /\
    current_position st2 <> None /\ current_position sth <> None /\
    capital st2 == 9900 /\ capital sth == 9900 /\
    ~ capital st2 == capital (init_node fee_params).
Proof.
  remember (step (init_node fee_params) (bar 1%Z 100 2)) as o2 eqn:E2.
  remember (step (init_node fee_params) (bar 1%Z 100 (1 # 2))) as oh eqn:Eh.
  vm_compute in E2, Eh.
  match type of E2 with _ = Ok ?a =>
    match type of Eh with _ = Ok ?b => exists a, b end end.
  split; [exact E2|]. split; [exact Eh|].
  repeat split; vm_compute; congruence.
Qed.

(** ** Position exclusivity *)

Lemma Inv_open_positions (p : BacktestParams) (st : BacktestNode) :
  Inv p st -> (open_positions st <= 1)%nat.
Proof.
  intros HI. unfold open_positions.
  assert (filter is_open (trades st) = []) as ->.
  { pose proof (inv_ledger _ _ HI) as Hl.
    induction Hl as [|t l Ht _ IH]; [reflexivity|].
    cbn. destruct Ht as (Hs & _). unfold is_open. rewrite Hs. exact IH. }
  cbn. destruct (current_position st) as [q|]; [|lia].
  destruct (is_open q); lia.
Qed.

(** C6.  After any prefix of the bars at most one position is open; a buy
    signal while a long position is open changes nothing, and a sell signal
    while flat changes nothing (at the level of the signal handler the state
    is returned as it is; at the level of the bar only the equity point is
    added). *)
Theorem single_position_invariant :
  (forall p pre st,
     run_loop (init_node p) pre = Ok st -> (open_positions st <= 1)%nat) /\
  (forall st sig row q,
     current_position st = Some q -> side q = long -> 0 < sig ->
     _process_signal st sig row = Ok st) /\
  (forall st sig row,
     current_position st = None -> sig < 0 ->
     _process_signal st sig row = Ok st) /\
  (forall st st' sig row,
     signal row = Some sig ->
     (0 < sig /\ (exists q, current_position st = Some q /\ side q = long)
      \/ sig < 0 /\ current_position st = None) ->
     step st row = Ok st' ->
     current_position st' = current_position st /\
     trades st' = trades st /\ capital st' = capital st).
Proof.
  assert (Hbuy : forall st sig row q,
             current_position st = Some q -> side q = long -> 0 < sig ->
             _process_signal st sig row = Ok st).
  { intros st sig row q Hq Hside Hpos. unfold _process_signal.
    apply Qgtb_true in Hpos. rewrite Hpos, Hq, Hside. reflexivity. }
  assert (Hsell : forall st sig row,
             current_position st = None -> sig < 0 ->
             _process_signal st sig row = Ok st).
  { intros st sig row Hq Hneg. unfold _process_signal.
    assert (Qgtb sig 0 = false) as -> by (apply Qgtb_false; lra).
    apply Qltb_true in Hneg. rewrite Hneg, Hq. reflexivity. }
  split; [|split; [exact Hbuy | split; [exact Hsell|]]].
  - intros p pre st H. apply (Inv_open_positions p).
    eapply run_loop_Inv; [apply init_Inv | exact H].
  - intros st st' sig row Hs Hcase H. unfold step in H. inv_bind H.
    unfold dispatch_signal in H. rewrite Hs in H.
    destruct (Qeq_bool sig 0); [inv_Ok H; auto|].
    destruct Hcase as [(Hpos & q & Hq & Hside) | (Hneg & Hq)].
    + erewrite Hbuy in H; [inv_Ok H; auto| exact Hq | exact Hside | exact Hpos].
    + rewrite Hsell in H; [inv_Ok H; auto | exact Hq | exact Hneg].
Qed.

Lemma single_position_invariant_witness :
  exists st st',
    run_loop (init_node fee_params) [bar 1%Z 100 1] = Ok st /\
    (open_positions st <= 1)%nat /\
    _process_signal st 1 (bar 2%Z 110 1) = Ok st /\
    _process_signal (init_node fee_params) (-1) (bar 1%Z 100 (-1))
    = Ok (init_node fee_params) /\
    step (init_node fee_params) (bar 1%Z 100 (-1)) = Ok st' /\
    current_position st' = None /\ trades st' = [] /\
    capital st' = initial_capital fee_params.
Proof.
  destruct single_position_invariant as (Hone & Hbuy & Hsell & Hstep).
  remember (run_loop (init_node fee_params) [bar 1%Z 100 1]) as o1 eqn:E1.
  remember (step (init_node fee_params) (bar 1%Z 100 (-1))) as o2 eqn:E2.
  vm_compute in E1, E2.
  match type of E1 with _ = Ok ?a =>
    match type of E2 with _ = Ok ?b => exists a, b end end.
  split; [exact E1|]. subst o1 o2.
  split; [apply (Hone fee_params [bar 1%Z 100 1]); vm_compute; reflexivity|].
  split; [eapply Hbuy; reflexivity|].
  split; [apply Hsell; reflexivity|].
  split; [reflexivity|].
  eapply (Hstep (init_node fee_params) _ (-1) (bar 1%Z 100 (-1))).
  - reflexivity.
  - right. split; reflexivity.
  - vm_compute. reflexivity.
Defined.

(** ** Sorting by timestamp *)

Lemma insert_row_perm (r : Row) (l : list Row) :
  Permutation (r :: l) (insert_row r l).
Proof.
  induction l as [|x l IH]; cbn.
  - apply Permutation_refl.
  - destruct (timestamp r <? timestamp x)%Z.
    + apply Permutation_refl.
    + eapply perm_trans; [apply perm_swap|]. now apply perm_skip.
Qed.

Lemma insert_row_sorted (r : Row) (l : list Row) :
  StronglySorted ts_le l -> StronglySorted ts_le (insert_row r l).
Proof.
  induction 1 as [|x l Hs IH Hx]; cbn.
  - constructor; constructor.
  - destruct (timestamp r <? timestamp x)%Z eqn:E.
    + apply Z.ltb_lt in E. constructor.
      * now constructor.
      * constructor; [unfold ts_le; lia|].
        eapply Forall_impl; [|exact Hx]. unfold ts_le. intros; lia.
    + apply Z.ltb_ge in E. constructor; [exact IH|].
      eapply Permutation_Forall; [apply insert_row_perm|].
      constructor; [exact E | exact Hx].
Qed.

Lemma sort_values_from (l : list Row) :
  forall acc, StronglySorted ts_le acc ->
    StronglySorted ts_le (fold_left (fun a r => insert_row r a) l acc) /\
    Permutation (l ++ acc) (fold_left (fun a r => insert_row r a) l acc).
Proof.
  induction l as [|x l IH]; intros acc Hacc; cbn.
  - split; [assumption | apply Permutation_refl].
  - destruct (IH (insert_row x acc) (insert_row_sorted x acc Hacc)) as [Hs Hp].
    split; [exact Hs|].
    eapply perm_trans; [|exact Hp].
    eapply perm_trans; [apply Permutation_middle|].
    apply Permutation_app_head. apply insert_row_perm.
Qed.

Lemma sort_values_sorted (l : list Row) : StronglySorted ts_le (sort_values l).
Proof. apply sort_values_from. constructor. Qed.

Lemma sort_values_perm (l : list Row) : Permutation l (sort_values l).
Proof.
  destruct (sort_values_from l [] (SSorted_nil _)) as [_ H].
  now rewrite app_nil_r in H.
Qed.

Lemma sorted_last_max (l : list Row) (x : Row) :
  StronglySorted ts_le (l ++ [x]) -> Forall (fun a => ts_le a x) (l ++ [x]).
Proof.
  induction l as [|a l IH]; cbn; intro H.
  - constructor; [unfold ts_le; lia | constructor].
  - inversion H as [|? ? Hs Ha]; subst. constructor.
    + rewrite Forall_forall in Ha. apply Ha. apply in_or_app. right. now left.
    + now apply IH.
Qed.

Lemma merge_sorted (data : list Row) :
  StronglySorted ts_le (_merge_signals_and_prices data).
Proof. apply sort_values_sorted. Qed.

Lemma merge_timestamps (data : list Row) :
  Permutation (map timestamp data)
              (map timestamp (_merge_signals_and_prices data)).
Proof.
  unfold _merge_signals_and_prices.
  eapply perm_trans; [|apply Permutation_map, sort_values_perm].
  rewrite map_map. apply Permutation_refl.
Qed.

Lemma sorted_timestamps (l : list Row) :
  StronglySorted ts_le l -> StronglySorted Z.le (map timestamp l).
Proof.
  induction 1 as [|x l Hs IH Hx]; cbn; constructor; [exact IH|].
  rewrite Forall_map. exact Hx.
Qed.

(** ** Input contract *)

(** C5 (as the code has it).  An empty series makes the run fail with an error
    and no output (the metrics stage finds the equity curve empty).  A series
    that is not in timestamp order is not rejected: the rows are sorted by
    timestamp before the loop, so the equity curve of a completed run follows
    the sorted rows, in ascending timestamp order, one point per input row. *)
Theorem input_series_contract (p : BacktestParams) (data : list Row) :
  (validate_params p = Ok p ->
   run p [] = Err (ValueError "No equity curve data available")) /\
  (forall st res,
     run p data = Ok (st, res) ->
     map ep_timestamp (res_equity_curve res)
     = map timestamp (sort_values (map fillna data)) /\
     StronglySorted Z.le (map ep_timestamp (res_equity_curve res)) /\
     Permutation (map timestamp data)
                 (map ep_timestamp (res_equity_curve res))).
Proof.
  split.
  - intro Hv. unfold run. rewrite Hv. reflexivity.
  - intros st res H. apply run_Ok in H as (_ & st_n & Hloop & Hfin & Hm).
    apply metrics_Ok in Hm as (_ & Hc & _).
    apply close_remaining_curve in Hfin. apply run_loop_curve in Hloop.
    cbn in Hloop. rewrite Hc, Hfin, Hloop.
    split; [reflexivity|]. split.
    + apply sorted_timestamps, merge_sorted.
    + apply merge_timestamps.
Qed.

Lemma input_series_contract_witness :
  run fee_params [] = Err (ValueError "No equity curve data available") /\
  exists st res,
    run fee_params unsorted_bars = Ok (st, res) /\
    map ep_timestamp (res_equity_curve res)
    = map timestamp (sort_values (map fillna unsorted_bars)) /\
    StronglySorted Z.le (map ep_timestamp (res_equity_curve res)) /\
    Permutation (map timestamp unsorted_bars)
                (map ep_timestamp (res_equity_curve res)).
Proof.
  split.
  - apply (proj1 (input_series_contract fee_params [])). reflexivity.
  - remember (run fee_params unsorted_bars) as out eqn:E.
    vm_compute in E.
    match type of E with
    | _ = Ok (?st, ?res) =>
        exists st, res; split; [exact E|];
        apply (proj2 (input_series_contract fee_params unsorted_bars) st res)
    end.
    vm_compute. reflexivity.
Defined.

(** C5 (as stated) fails: two bars given with timestamps 2, 1 are not
    rejected; the run completes and its equity curve is in the order 1, 2. *)
Lemma unsorted_input_is_sorted_not_rejected :
  ~ StronglySorted Z.le (map timestamp unsorted_bars) /\
  exists st res,
    run fee_params unsorted_bars = Ok (st, res) /\
    map ep_timestamp (res_equity_curve res) = [1%Z; 2%Z] /\
    map timestamp unsorted_bars = [2%Z; 1%Z].
Proof.
  split.
  - intro H. cbn in H. inversion H as [|? ? _ Hall]; subst.
    inversion Hall as [|? ? Hle _]; subst. lia.
  - remember (run fee_params unsorted_bars) as out eqn:E.
    vm_compute in E.
    match type of E with
    | _ = Ok (?st, ?res) => exists st, res
    end.
    split; [exact E|]. split; reflexivity.
Qed.

(** ** End-of-period close *)

Lemma step_buy_live (p : BacktestParams) (st st' : BacktestNode)
      (row : Row) (sig : Q) :
  Inv p st -> signal row = Some sig -> 0 < sig ->
  step st row = Ok st' ->
  exists q, current_position st' = Some q.
Proof.
  intros HI Hs Hpos H. unfold step in H. inv_bind H.
  unfold dispatch_signal in H. rewrite Hs in H.
  assert (Qeq_bool sig 0 = false) as E by (apply Qeq_bool_false; lra).
  rewrite E in H. unfold _process_signal in H.
  apply Qgtb_true in Hpos. rewrite Hpos in H.
  cbn [record_point current_position] in H.
  destruct (current_position st) as [q|] eqn:Eq.
  - destruct (inv_position _ _ HI q Eq) as (_ & Hside & _).
    rewrite Hside in H. inv_Ok H. cbn. eauto.
  - apply enter_fields in H as (_ & _ & _ & _ & _ & q & Hq & _). eauto.
Qed.

Lemma step_hold_live (p : BacktestParams) (st st' : BacktestNode)
      (row : Row) (q : Trade) :
  Inv p st -> current_position st = Some q ->
  (forall s, signal row = Some s -> 0 <= s) ->
  step st row = Ok st' ->
  current_position st' = Some q.
Proof.
  intros HI Hq Hnosell H.
  destruct (inv_position _ _ HI q Hq) as (_ & Hside & _).
  unfold step in H. inv_bind H.
  unfold dispatch_signal in H.
  destruct (signal row) as [sig|] eqn:Es; [|inv_Ok H; exact Hq].
  destruct (Qeq_bool sig 0); [inv_Ok H; exact Hq|].
  unfold _process_signal in H. cbn [record_point current_position] in H.
  rewrite Hq, Hside in H.
  destruct (Qgtb sig 0); [inv_Ok H; exact Hq|].
  assert (Qltb sig 0 = false) as E
      by (apply Qltb_false; apply Hnosell; reflexivity).
  rewrite E in H. inv_Ok H. exact Hq.
Qed.

Lemma run_loop_hold_live (p : BacktestParams) (post : list Row) :
  Forall (fun r => forall s, signal r = Some s -> 0 <= s) post ->
  forall st st' q,
    Inv p st -> current_position st = Some q ->
    run_loop st post = Ok st' ->
    current_position st' = Some q.
Proof.
  induction 1 as [|r post Hr _ IH]; intros st st' q HI Hq H; cbn in H.
  - inv_Ok H. exact Hq.
  - inv_bind H. eapply IH; [| |exact H].
    + eapply step_Inv; eassumption.
    + eapply step_hold_live; eassumption.
Qed.

(** C3 (as the code has it).  When the sorted series has a buy signal that no
    sell follows, the position is still live after the last bar and is
    force-closed against that bar: the last trade of the ledger is closed,
    its [exit_time] is the last bar's timestamp (the largest of the input),
    its [exit_price] is that bar's close less slippage, and the reason
    ["end_of_period"] is what the engine prints for it.  The reason is not
    stored: a reported trade has no [close_reason] field. *)
Theorem end_of_period_forced_close
        (p : BacktestParams) (data pre post : list Row) (b : Row) (sig : Q)
        (st : BacktestNode) (res : BacktestResults) :
  run p data = Ok (st, res) ->
  _merge_signals_and_prices data = pre ++ b :: post ->
  signal b = Some sig -> 0 < sig ->
  Forall (fun r => forall s, signal r = Some s -> 0 <= s) post ->
  exists rows last_row ledger t net ret out,
    _merge_signals_and_prices data = rows ++ [last_row] /\
    (forall r, In r data -> (timestamp r <= timestamp last_row)%Z) /\
    res_trades res = ledger ++ [t] /\
    status t = status_closed /\
    exit_time t = Some (timestamp last_row) /\
    exit_price t = Some (close last_row * (1 - slippage p)) /\
    pnl t = Some net /\
    stdout st = out ++ [ClosedPosition net ret "end_of_period"] /\
    dict_get "close_reason" (model_dump t) = None.
Proof.
  intros Hrun Hsplit Hs Hpos Hpost.
  apply run_Ok in Hrun as (_ & st_n & Hloop & Hfin & Hm).
  apply metrics_Ok in Hm as (Ht & _).
  pose proof (merge_sorted data) as Hsorted.
  pose proof (sort_values_perm (map fillna data)) as Hperm.
  fold (_merge_signals_and_prices data) in Hperm.
  assert (HIn : Inv p st_n)
    by (eapply run_loop_Inv; [apply init_Inv | exact Hloop]).
  assert (exists q, current_position st_n = Some q) as [q Hq].
  { rewrite Hsplit in Hloop.
    change (pre ++ b :: post) with (pre ++ [b] ++ post) in Hloop.
    rewrite app_assoc, run_loop_app in Hloop. inv_bind Hloop.
    rewrite run_loop_snoc in Ha. inv_bind Ha.
    assert (HI0 : Inv p a0)
      by (eapply run_loop_Inv; [apply init_Inv | exact Ha0]).
    destruct (step_buy_live p a0 a b sig HI0 Hs Hpos Ha) as [q Hq].
    exists q. eapply run_loop_hold_live; [exact Hpost | | exact Hq | exact Hloop].
    eapply step_Inv; eassumption. }
  destruct (inv_position _ _ HIn q Hq) as (_ & Hside & _).
  unfold close_remaining in Hfin. rewrite Hq in Hfin.
  destruct (rev (_merge_signals_and_prices data)) as [|last_row rest] eqn:Er.
  { discriminate. }
  assert (Hrows : _merge_signals_and_prices data = rev rest ++ [last_row]).
  { rewrite <- (rev_involutive (_merge_signals_and_prices data)), Er.
    reflexivity. }
  eapply close_fields in Hfin; [|exact Hq|exact Hside].
  destruct Hfin as (_ & _ & _ & _ & _ & Hout & t & Htr & Hxt & Hxp & Hpnl & Hst & _).
  rewrite (inv_params _ _ HIn) in *.
  exists (rev rest), last_row, (trades st_n), t. do 2 eexists. exists (stdout st_n).
  split; [exact Hrows|]. split.
  { intros r Hr. rewrite Hrows in Hsorted, Hperm.
    apply sorted_last_max in Hsorted. rewrite Forall_forall in Hsorted.
    change (timestamp r) with (timestamp (fillna r)).
    apply (Hsorted (fillna r)).
    eapply Permutation_in; [exact Hperm|]. now apply in_map. }
  split; [congruence|]. split; [exact Hst|]. split; [exact Hxt|].
  split; [exact Hxp|]. split; [exact Hpnl|]. split; [exact Hout|].
  reflexivity.
Qed.

Lemma end_of_period_forced_close_witness :
  exists st res rows last_row ledger t net ret out,
    run fee_params buy_and_hold = Ok (st, res) /\
    _merge_signals_and_prices buy_and_hold = rows ++ [last_row] /\
    (forall r, In r buy_and_hold -> (timestamp r <= timestamp last_row)%Z) /\
    res_trades res = ledger ++ [t] /\
    status t = status_closed /\
    exit_time t = Some (timestamp last_row) /\
    exit_price t = Some (close last_row * (1 - slippage fee_params)) /\
    pnl t = Some net /\
    stdout st = out ++ [ClosedPosition net ret "end_of_period"] /\
    dict_get "close_reason" (model_dump t) = None.
Proof.
  remember (run fee_params buy_and_hold) as o eqn:E.
  vm_compute in E.
  match type of E with
  | _ = Ok (?st, ?res) =>
      destruct (end_of_period_forced_close fee_params buy_and_hold
                  [] [bar 2%Z 110 0] (bar 1%Z 100 1) 1 st res)
        as (rows & last_row & ledger & t & net & ret & out & H);
      [ vm_compute; reflexivity
      | vm_compute; reflexivity
      | reflexivity
      | reflexivity
      | constructor; [|constructor]; cbn; intros s Hs;
        injection Hs as <-; discriminate
      | exists st, res, rows, last_row, ledger, t, net, ret, out ]
  end.
  split; [exact E | exact H].
Defined.

(** C3 (as stated) fails on the field it names: after a buy that is held to
    the end, the last trade is dumped without any [close_reason] key, so it
    is not ["end_of_period"]. *)
Lemma trade_has_no_close_reason :
  exists st res t,
    run fee_params buy_and_hold = Ok (st, res) /\
    res_trades res = [t] /\
    exit_time t = Some 2%Z /\
    dict_get "close_reason" (model_dump t) = None /\
    dict_get "close_reason" (model_dump t) <> Some (VStr "end_of_period").
Proof.
  remember (run fee_params buy_and_hold) as o eqn:E.
  vm_compute in E.
  match type of E with
  | _ = Ok (?st, ?res) =>
      exists st, res;
      match eval cbv in (res_trades res) with
      | ?t :: _ => exists t
      end
  end.
  split; [exact E|]. repeat split; discriminate.
Qed.

(** ** Trade statistics *)

Lemma closed_recorded (p : BacktestParams) (t : Trade) :
  closed_trade p t -> recorded t.
Proof.
  intros (_ & _ & xp & x & r & ts & _ & Hx & Hr & _). exists x, r. auto.
Qed.

(** The ledger a completed run reports holds sealed trades only. *)
Lemma run_ledger_recorded (p : BacktestParams) (data : list Row)
      (st : BacktestNode) (res : BacktestResults) :
  run p data = Ok (st, res) -> Forall recorded (res_trades res).
Proof.
  intro H. pose proof (run_Inv _ _ _ _ H) as [HI _].
  apply run_Ok in H as (_ & _ & _ & _ & Hm).
  apply metrics_Ok in Hm as (-> & _).
  eapply Forall_impl; [|exact (inv_ledger _ _ HI)].
  intros t. apply closed_recorded.
Qed.

Lemma py_sum_from_recorded_pnl (l : list Trade) :
  Forall recorded l ->
  forall acc, exists v,
    py_sum_from pnl_of acc l = Ok v /\ v == acc + total pnl_value l.
Proof.
  induction 1 as [|t l Ht _ IH]; intro acc; cbn.
  - exists acc. split; [reflexivity | lra].
  - destruct Ht as (x & r & Hx & _).
    unfold pnl_of at 1, pnl_value at 1. rewrite Hx. cbn.
    destruct (IH (acc + x)) as (v & Hv & Ev).
    exists v. split; [assumption|].
    fold (total pnl_value l). lra.
Qed.

Lemma py_sum_from_recorded_return (l : list Trade) :
  Forall recorded l ->
  forall acc, exists v,
    py_sum_from return_pct_of acc l = Ok v /\ v == acc + total return_value l.
Proof.
  induction 1 as [|t l Ht _ IH]; intro acc; cbn.
  - exists acc. split; [reflexivity | lra].
  - destruct Ht as (x & r & _ & Hr).
    unfold return_pct_of at 1, return_value at 1. rewrite Hr. cbn.
    destruct (IH (acc + r)) as (v & Hv & Ev).
    exists v. split; [assumption|].
    fold (total return_value l). lra.
Qed.

(** The comprehension keeps exactly the trades whose [pnl] passes the test. *)
Lemma select_trades_spec (test : Q -> bool) (l : list Trade) :
  Forall recorded l ->
  exists sel,
    select_trades test l = Ok sel /\
    Forall recorded sel /\
    forall t, In t sel <-> In t l /\ test (pnl_value t) = true.
Proof.
  induction 1 as [|t l Ht _ IH]; cbn.
  - exists []. split; [reflexivity|]. split; [constructor|].
    intro t. cbn. tauto.
  - destruct IH as (sel & Hsel & Hrec & Hin).
    pose proof Ht as (x & r & Hx & _).
    unfold pnl_of. rewrite Hx, Hsel. cbn.
    assert (Hv : pnl_value t = x) by (unfold pnl_value; now rewrite Hx).
    destruct (test x) eqn:E; eexists; (split; [reflexivity|]); split.
    + now constructor.
    + intro u. cbn. rewrite Hin. split.
      * intros [<- | [H1 H2]]; [rewrite Hv|]; auto.
      * intros [[<- | H1] H2]; auto.
    + assumption.
    + intro u. rewrite Hin. cbn. split.
      * intros [H1 H2]; auto.
      * intros [[<- | H1] H2]; [rewrite Hv in H2; congruence | auto].
Qed.

Lemma len_cons_nonzero {A : Type} (a : A) (l : list A) : ~ len (a :: l) == 0.
Proof.
  unfold len. cbn [List.length]. intro H.
  assert (0 < inject_Z (Z.of_nat (S (List.length l)))).
  { change 0 with (inject_Z 0). rewrite <- Zlt_Qlt. lia. }
  lra.
Qed.

(** On a ledger of sealed trades the statistics are computed without error,
    from the winners ([pnl > 0]) and the losers ([pnl <= 0]). *)
Lemma trade_statistics_Ok (t0 : Trade) (l : list Trade) :
  Forall recorded (t0 :: l) ->
  exists winners losers total_wins total_losses stats,
    select_trades (fun x => Qgtb x 0) (t0 :: l) = Ok winners /\
    select_trades (fun x => Qle_bool x 0) (t0 :: l) = Ok losers /\
    py_sum pnl_of winners = Ok total_wins /\
    py_sum pnl_of losers = Ok total_losses /\
    total_wins == total pnl_value winners /\
    total_losses == total pnl_value losers /\
    trade_statistics (t0 :: l) = Ok stats /\
    ts_win_rate stats = len winners / len (t0 :: l) /\
    ts_profit_factor stats =
      (let wins := match winners with [] => 0 | _ :: _ => total_wins end in
       let losses := match losers with
                     | [] => 1
                     | _ :: _ => Qabs total_losses
                     end in
       if Qgtb losses 0 then wins / losses else 0).
Proof.
  intro Hrec.
  destruct (select_trades_spec (fun x => Qgtb x 0) _ Hrec) as (w & Hw & Hwr & _).
  destruct (select_trades_spec (fun x => Qle_bool x 0) _ Hrec) as (lo & Hl & Hlr & _).
  destruct (py_sum_from_recorded_pnl w Hwr 0) as (vw & Hvw & Evw).
  destruct (py_sum_from_recorded_pnl lo Hlr 0) as (vl & Hvl & Evl).
  destruct (py_sum_from_recorded_return _ Hrec 0) as (vr & Hvr & _).
  exists w, lo, vw, vl.
  unfold trade_statistics. rewrite Hw, Hl. cbn [bind].
  rewrite (py_div_nonzero _ _ (len_cons_nonzero t0 l)). cbn [bind].
  fold (py_sum pnl_of w) in Hvw. fold (py_sum pnl_of lo) in Hvl.
  fold (py_sum return_pct_of (t0 :: l)) in Hvr.
  assert (Hwins : match w with [] => Ok 0 | _ :: _ => py_sum pnl_of w end
                  = Ok match w with [] => 0 | _ :: _ => vw end)
    by (destruct w; [reflexivity | exact Hvw]).
  assert (Hloss : match lo with
                  | [] => Ok 1
                  | _ :: _ => s <- py_sum pnl_of lo ;; Ok (Qabs s)
                  end
                  = Ok match lo with [] => 1 | _ :: _ => Qabs vl end)
    by (destruct lo; [reflexivity | rewrite Hvl; reflexivity]).
  rewrite Hwins, Hloss. cbn [bind].
  set (wins := match w with [] => 0 | _ :: _ => vw end).
  set (losses := match lo with [] => 1 | _ :: _ => Qabs vl end).
  destruct (Qgtb losses 0) eqn:Eg.
  - apply Qgtb_true in Eg.
    rewrite (py_div_nonzero wins losses) by lra. cbn [bind].
    rewrite Hvr. cbn [bind].
    rewrite (py_div_nonzero _ _ (len_cons_nonzero t0 l)). cbn [bind].
    eexists. do 2 (split; [reflexivity|]). do 2 (split; [assumption|]).
    do 2 (split; [lra|]). split; [reflexivity|]. split; reflexivity.
  - cbn [bind]. rewrite Hvr. cbn [bind].
    rewrite (py_div_nonzero _ _ (len_cons_nonzero t0 l)). cbn [bind].
    eexists. do 2 (split; [reflexivity|]). do 2 (split; [assumption|]).
    do 2 (split; [lra|]). split; [reflexivity|]. split; reflexivity.
Qed.

Lemma total_all_zero (l : list Trade) :
  Forall (fun t => pnl_value t == 0) l -> total pnl_value l == 0.
Proof.
  induction 1 as [|t l Ht _ IH]; cbn.
  - lra.
  - fold (total pnl_value l). lra.
Qed.

(** C7.  On a ledger of sealed trades with at least one winner and no loser
    the divisor of the profit factor is 1 and [profit_factor] is the sum of
    the winners' [pnl]; on the empty ledger the statistics are all 0.  The
    reported [profit_factor] is this statistic. *)
Theorem profit_factor_without_losers
        (ledger : list Trade) (w : Trade) (ws : list Trade) :
  Forall recorded ledger ->
  select_trades (fun x => Qgtb x 0) ledger = Ok (w :: ws) ->
  select_trades (fun x => Qle_bool x 0) ledger = Ok [] ->
  (exists stats total_wins,
     trade_statistics ledger = Ok stats /\
     py_sum pnl_of (w :: ws) = Ok total_wins /\
     ts_profit_factor stats = total_wins / 1 /\
     ts_profit_factor stats == total_wins /\
     forall st data res,
       ledger = trades st ->
       _calculate_performance_metrics st data = Ok res ->
       profit_factor res == total_wins) /\
  trade_statistics [] =
    Ok {| ts_win_rate := 0; ts_profit_factor := 0; ts_avg_trade_return := 0 |}.
Proof.
  intros Hrec Hw Hl. split; [|reflexivity].
  destruct ledger as [|t0 l]; [discriminate|].
  destruct (trade_statistics_Ok t0 l Hrec)
    as (w' & lo & vw & vl & stats & Hw' & Hl' & Hvw & _ & _ & _ & Hst & _ & Hpf).
  rewrite Hw in Hw'. rewrite Hl in Hl'.
  injection Hw' as <-. injection Hl' as <-.
  cbn in Hpf.
  exists stats, vw. split; [exact Hst|]. split; [exact Hvw|].
  split; [exact Hpf|].
  assert (E : ts_profit_factor stats == vw) by (rewrite Hpf; field).
  split; [exact E|].
  intros st data res Ht Hm.
  apply metrics_Ok in Hm as (_ & _ & _ & _ & _ & stats' & Hs' & _ & Hp & _).
  rewrite <- Ht, Hst in Hs'. injection Hs' as <-. rewrite Hp. exact E.
Qed.

Lemma profit_factor_without_losers_witness :
  exists stats total_wins res,
    trade_statistics winners_only = Ok stats /\
    py_sum pnl_of winners_only = Ok total_wins /\
    ts_profit_factor stats = total_wins / 1 /\
    ts_profit_factor stats == total_wins /\
    total_wins == 42 /\
    _calculate_performance_metrics (ledger_node winners_only) [] = Ok res /\
    profit_factor res == total_wins.
Proof.
  destruct (profit_factor_without_losers winners_only (sealed 30) [sealed 12])
    as [(stats & v & Hst & Hv & Hpf & E & Hres) _].
  - repeat constructor; unfold recorded; cbn; eauto.
  - reflexivity.
  - reflexivity.
  - remember (_calculate_performance_metrics (ledger_node winners_only) [])
      as o eqn:Eo.
    vm_compute in Eo.
    match type of Eo with
    | _ = Ok ?res => exists stats, v, res
    end.
    do 4 (split; [assumption|]).
    split; [vm_compute in Hv; injection Hv as <-; reflexivity|].
    split; [exact Eo|].
    eapply (Hres (ledger_node winners_only) []); [reflexivity|].
    vm_compute. reflexivity.
Defined.

(** C10.  A sealed trade with [pnl] exactly 0 is a loser for the metrics: it
    is selected by [pnl <= 0] and not by [pnl > 0], so it does not count in
    the numerator of [win_rate]; when every loser has [pnl] 0 (and there is
    one), the losers' sum is 0 and [profit_factor] is 0, winners or not. *)
Theorem zero_pnl_trade_is_a_loser
        (ledger : list Trade) (l : Trade) (ls : list Trade) :
  Forall recorded ledger ->
  select_trades (fun x => Qle_bool x 0) ledger = Ok (l :: ls) ->
  Forall (fun t => pnl_value t == 0) (l :: ls) ->
  exists stats winners losers_sum,
    trade_statistics ledger = Ok stats /\
    select_trades (fun x => Qgtb x 0) ledger = Ok winners /\
    py_sum pnl_of (l :: ls) = Ok losers_sum /\ losers_sum == 0 /\
    ts_profit_factor stats = 0 /\
    ts_win_rate stats = len winners / len ledger /\
    (forall t, In t ledger -> pnl_value t == 0 ->
               In t (l :: ls) /\ ~ In t winners) /\
    forall st data res,
      ledger = trades st ->
      _calculate_performance_metrics st data = Ok res ->
      profit_factor res = 0 /\ win_rate res = len winners / len ledger.
Proof.
  intros Hrec Hl Hzero.
  destruct ledger as [|t0 rest]; [discriminate|].
  destruct (trade_statistics_Ok t0 rest Hrec)
    as (w & lo & vw & vl & stats & Hw & Hl' & _ & Hvl & _ & Evl & Hst & Hwr & Hpf).
  rewrite Hl in Hl'. injection Hl' as <-.
  assert (Ez : vl == 0) by (rewrite Evl; now apply total_all_zero).
  assert (Epf : ts_profit_factor stats = 0).
  { rewrite Hpf. cbn.
    assert (Qgtb (Qabs vl) 0 = false) as ->; [|reflexivity].
    apply Qgtb_false. rewrite Ez. cbn. lra. }
  exists stats, w, vl.
  split; [exact Hst|]. split; [exact Hw|]. split; [exact Hvl|].
  split; [exact Ez|]. split; [exact Epf|]. split; [exact Hwr|]. split.
  - intros t Hin Ht.
    destruct (select_trades_spec (fun x => Qle_bool x 0) _ Hrec)
      as (lo' & Hlo' & _ & Hlin).
    destruct (select_trades_spec (fun x => Qgtb x 0) _ Hrec)
      as (w' & Hw'' & _ & Hwin).
    rewrite Hl in Hlo'. injection Hlo' as <-.
    rewrite Hw in Hw''. injection Hw'' as <-.
    split.
    + apply Hlin. split; [exact Hin|]. apply Qle_bool_iff. lra.
    + intro Hc. apply Hwin in Hc as [_ Hc]. apply Qgtb_true in Hc. lra.
  - intros st data res Ht Hm.
    apply metrics_Ok in Hm as (_ & _ & _ & _ & _ & stats' & Hs' & Hwr' & Hp & _).
    rewrite <- Ht, Hst in Hs'. injection Hs' as <-.
    rewrite Hp, Hwr', Epf, Hwr. split; reflexivity.
Qed.

Lemma zero_pnl_trade_is_a_loser_witness :
  exists stats winners losers_sum,
    trade_statistics win_and_flat = Ok stats /\
    select_trades (fun x => Qgtb x 0) win_and_flat = Ok winners /\
    winners = [sealed 30] /\
    py_sum pnl_of [sealed 0] = Ok losers_sum /\ losers_sum == 0 /\
    ts_profit_factor stats = 0 /\
    ts_win_rate stats = len winners / len win_and_flat /\
    (exists res,
       _calculate_performance_metrics (ledger_node win_and_flat) [] = Ok res /\
       profit_factor res = 0 /\
       win_rate res = len winners / len win_and_flat) /\
    In (sealed 0) [sealed 0] /\ ~ In (sealed 0) winners.
Proof.
  destruct (zero_pnl_trade_is_a_loser win_and_flat (sealed 0) [])
    as (stats & w & v & Hst & Hw & Hv & Ez & Hpf & Hwr & Hin & Hres).
  - repeat constructor; unfold recorded; cbn; eauto.
  - reflexivity.
  - repeat constructor.
  - exists stats, w, v.
    split; [exact Hst|]. split; [exact Hw|].
    split.
    { assert (Hsel : select_trades (fun x => Qgtb x 0) win_and_flat
                     = Ok [sealed 30]) by reflexivity.
      congruence. }
    split; [exact Hv|]. split; [exact Ez|]. split; [exact Hpf|].
    split; [exact Hwr|]. split.
    { remember (_calculate_performance_metrics (ledger_node win_and_flat) [])
        as o eqn:Eo.
      vm_compute in Eo.
      match type of Eo with
      | _ = Ok ?res => exists res
      end.
      split; [exact Eo|].
      eapply (Hres (ledger_node win_and_flat) []); [reflexivity|].
      vm_compute. reflexivity. }
    apply (Hin (sealed 0)); [right; left; reflexivity | reflexivity].
Defined.

(** ** Drawdown *)

Lemma py_max_fold (x : Q) (l : list Q) :
  py_max (x :: l) = Ok (fold_left max_step l x).
Proof. reflexivity. Qed.

Lemma expanding_max_from_step (m x : Q) (l : list Q) :
  expanding_max_from m (x :: l)
  = max_step m x :: expanding_max_from (max_step m x) l.
Proof. reflexivity. Qed.

Lemma peak_drawdowns_snoc (l : list Q) (e : Q) :
  forall m,
    peak_drawdowns m (l ++ [e])
    = peak_drawdowns m l
      ++ [(max_step (fold_left max_step l m) e - e)
          / max_step (fold_left max_step l m) e].
Proof.
  induction l as [|x l IH]; intro m; cbn.
  - reflexivity.
  - now rewrite IH.
Qed.

Lemma step_curve_ok (st st' : BacktestNode) (row : Row) :
  curve_ok (equity_curve st) -> step st row = Ok st' ->
  curve_ok (equity_curve st').
Proof.
  unfold curve_ok. intros Hok H.
  apply step_curve in H as (pt & Hc & _ & _ & Hdd & _).
  rewrite Hc, !map_app. cbn [map].
  unfold _calculate_current_drawdown in Hdd.
  destruct (equity_curve st) as [|pt0 c] eqn:Ec.
  - injection Hdd as <-. reflexivity.
  - cbn [map app] in *. rewrite py_max_fold in Hdd. cbn [bind] in Hdd.
    apply py_div_Ok in Hdd as [_ Hdd].
    rewrite fold_left_app in Hdd. cbn [fold_left] in Hdd.
    unfold engine_drawdowns in *. rewrite peak_drawdowns_snoc.
    rewrite <- Hdd.
    change (drawdown pt0 :: map drawdown c ++ [drawdown pt])
      with ((drawdown pt0 :: map drawdown c) ++ [drawdown pt]).
    rewrite Hok. reflexivity.
Qed.

Lemma run_loop_curve_ok (data : list Row) :
  forall st st', curve_ok (equity_curve st) -> run_loop st data = Ok st' ->
    curve_ok (equity_curve st').
Proof.
  induction data as [|row rest IH]; intros st st' Hok H; cbn in H.
  - now inv_Ok H.
  - inv_bind H. eapply IH; [|exact H]. eapply step_curve_ok; eassumption.
Qed.

(** The pandas series and the specification's indexed formula coincide. *)
Lemma drawdown_series_indexed (l : list Q) :
  forall m,
    drawdown_series l (expanding_max_from m l)
    = map (fun i => (nth i l 0 - fold_left max_step (firstn (S i) l) m)
                    / fold_left max_step (firstn (S i) l) m)
          (seq 0 (List.length l)).
Proof.
  induction l as [|e l IH]; intro m.
  - reflexivity.
  - rewrite expanding_max_from_step. cbn [drawdown_series List.length seq map].
    rewrite firstn_cons, firstn_O. cbn [fold_left nth].
    f_equal. rewrite IH, <- seq_shift, map_map. reflexivity.
Qed.

Lemma metric_is_spec_max_drawdown (eq : list Q) :
  metric_max_drawdown eq = spec_max_drawdown eq.
Proof.
  unfold metric_max_drawdown, spec_max_drawdown.
  destruct eq as [|e0 rest]; [reflexivity|].
  cbn [expanding_max drawdown_series List.length seq map].
  rewrite drawdown_series_indexed, <- seq_shift, map_map.
  reflexivity.
Qed.

Lemma max_step_ge (m y : Q) : m <= max_step m y.
Proof.
  unfold max_step. destruct (Qgtb y m) eqn:E.
  - apply Qgtb_true in E. lra.
  - lra.
Qed.

Lemma fold_max_ge (l : list Q) : forall b, b <= fold_left max_step l b.
Proof.
  induction l as [|x l IH]; intro b; cbn.
  - lra.
  - pose proof (max_step_ge b x). pose proof (IH (max_step b x)). lra.
Qed.

(** The least relative drawdown is minus the largest stored drawdown. *)
Lemma min_max_dual (l : list Q) :
  forall m a b, a == - b ->
    series_min a (drawdown_series l (expanding_max_from m l))
    == - fold_left max_step (peak_drawdowns m l) b.
Proof.
  induction l as [|e l IH]; intros m a b Hab.
  - exact Hab.
  - rewrite expanding_max_from_step.
    cbn [drawdown_series peak_drawdowns series_min fold_left].
    apply IH. set (m' := max_step m e).
    assert (Hx : (e - m') / m' == - ((m' - e) / m'))
      by (unfold Qdiv; ring).
    unfold max_step.
    destruct (Qltb ((e - m') / m') a) eqn:E1;
      destruct (Qgtb ((m' - e) / m') b) eqn:E2;
      try apply Qltb_true in E1; try apply Qltb_false in E1;
      try apply Qgtb_true in E2; try apply Qgtb_false in E2; lra.
Qed.

Lemma engine_max_drawdown (e0 : Q) (rest : list Q) :
  exists worst,
    py_max (engine_drawdowns (e0 :: rest)) = Ok worst /\
    metric_max_drawdown (e0 :: rest) == worst.
Proof.
  eexists. split; [apply py_max_fold|].
  unfold metric_max_drawdown. cbn [expanding_max drawdown_series].
  assert (H0 : (e0 - e0) / e0 == - 0) by (unfold Qdiv; ring).
  rewrite (min_max_dual rest e0 _ 0 H0).
  rewrite Qabs_opp. apply Qabs_pos. apply fold_max_ge.
Qed.

Lemma expanding_max_from_ge (l : list Q) :
  forall m, Forall (fun x => m <= x) (expanding_max_from m l).
Proof.
  induction l as [|e l IH]; intro m.
  - constructor.
  - rewrite expanding_max_from_step. pose proof (max_step_ge m e) as Hge.
    constructor; [exact Hge|].
    eapply Forall_impl; [|apply IH]. cbn. intros x Hx. lra.
Qed.

Lemma run_loop_curve_prefix (data : list Row) :
  forall st st', run_loop st data = Ok st' ->
    exists more, equity_curve st' = equity_curve st ++ more.
Proof.
  induction data as [|row rest IH]; intros st st' H; cbn in H.
  - inv_Ok H. exists []. now rewrite app_nil_r.
  - inv_bind H. apply step_curve in Ha as (pt & Hc & _).
    destruct (IH _ _ H) as (more & Hm).
    exists (pt :: more). rewrite Hm, Hc, <- app_assoc. reflexivity.
Qed.

(** The curve of a completed run starts at the initial capital, so its
    running maximum is positive throughout. *)
Lemma running_max_engine_pos (p : BacktestParams) (data : list Row)
      (st : BacktestNode) (res : BacktestResults) :
  run p data = Ok (st, res) ->
  exists rest,
    map equity (res_equity_curve res) = initial_capital p :: rest /\
    Forall (fun m => 0 < m) (expanding_max (map equity (res_equity_curve res))).
Proof.
  intro H. pose proof H as Hrun.
  apply run_Ok in H as (Hv & st_n & Hloop & Hfin & Hm).
  apply validate_params_Ok in Hv as (_ & Hpos & _).
  apply metrics_Ok in Hm as (_ & Hc & Hlast & _).
  apply close_remaining_curve in Hfin. rewrite Hc, Hfin. rewrite Hfin in Hlast.
  destruct (_merge_signals_and_prices data) as [|r l].
  { cbn in Hloop. inv_Ok Hloop. discriminate. }
  cbn [run_loop] in Hloop. inv_bind Hloop.
  apply step_curve in Ha as (pt & Hpt & He & _).
  apply run_loop_curve_prefix in Hloop as (more & Hmore).
  rewrite Hmore, Hpt. cbn in He.
  cbn [init_node equity_curve app map]. rewrite He.
  eexists. split; [reflexivity|].
  cbn [expanding_max]. constructor; [exact Hpos|].
  eapply Forall_impl; [|apply expanding_max_from_ge]. cbn. intros x Hx. lra.
Qed.

(** C8.  For every completed run the [max_drawdown] metric is the
    specification's [abs(min_i (equity[i] - running_max_i) / running_max_i)]
    (the running maxima being positive), and it agrees with the largest of
    the per-point drawdowns stored in the equity curve. *)
Theorem max_drawdown_agrees_with_curve
        (p : BacktestParams) (data : list Row)
        (st : BacktestNode) (res : BacktestResults) :
  run p data = Ok (st, res) ->
  max_drawdown res = spec_max_drawdown (map equity (res_equity_curve res)) /\
  Forall (fun m => 0 < m)
         (expanding_max (map equity (res_equity_curve res))) /\
  exists worst,
    py_max (map drawdown (res_equity_curve res)) = Ok worst /\
    max_drawdown res == worst.
Proof.
  intro Hrun.
  destruct (running_max_engine_pos _ _ _ _ Hrun) as (rest & Heq & Hpos).
  apply run_Ok in Hrun as (_ & st_n & Hloop & Hfin & Hm).
  apply metrics_Ok in Hm as (_ & Hc & _ & Hmd & _).
  apply close_remaining_curve in Hfin.
  assert (Hok : curve_ok (equity_curve st)).
  { rewrite Hfin. eapply run_loop_curve_ok; [|exact Hloop]. reflexivity. }
  rewrite Hc in *. rewrite Hmd.
  split; [apply metric_is_spec_max_drawdown|]. split; [exact Hpos|].
  rewrite Hok, Heq. apply engine_max_drawdown.
Qed.

Lemma max_drawdown_agrees_with_curve_witness :
  exists st res worst,
    run fee_params round_trip = Ok (st, res) /\
    max_drawdown res = spec_max_drawdown (map equity (res_equity_curve res)) /\
    py_max (map drawdown (res_equity_curve res)) = Ok worst /\
    max_drawdown res == worst /\ worst == 1 # 100.
Proof.
  remember (run fee_params round_trip) as o eqn:E.
  vm_compute in E.
  match type of E with
  | _ = Ok (?st, ?res) =>
      destruct (max_drawdown_agrees_with_curve fee_params round_trip st res)
        as (Hspec & _ & worst & Hw & Ew);
      [vm_compute; reflexivity | exists st, res, worst]
  end.
  split; [exact E|]. split; [exact Hspec|]. split; [exact Hw|].
  split; [exact Ew|].
  vm_compute in Hw. injection Hw as <-. reflexivity.
Defined.

(** ** Solvency and the last equity point *)

Section Solvency.

Variable p : BacktestParams.
Hypothesis commission_lt_1 : commission p < 1.
Hypothesis commission_ge_0 : 0 <= commission p.
Hypothesis slippage_lt_1 : slippage p < 1.
Hypothesis slippage_ge_0 : 0 <= slippage p.
Hypothesis size_pos : 0 < position_size p.
Hypothesis size_le_1 : position_size p <= 1.

Lemma enter_solvent (st st' : BacktestNode) (ts : Timestamp) (price : Q) :
  params st = p -> current_position st = None -> 0 < capital st ->
  0 < price ->
  _enter_long_position st ts price = Ok st' ->
  solvent st'.
Proof.
  intros Hp Hnone Hcap Hprice H.
  apply enter_fields in H
    as (Hnz & _ & _ & _ & Hcap' & q & Hq & _ & Hep & _ & Hqty & _).
  unfold solvent. rewrite Hq, Hcap', Hep, Hqty, Hp.
  set (V := capital st * position_size p).
  assert (HV : 0 < V) by (unfold V; nra).
  assert (HVc : 0 < V - V * commission p) by nra.
  split; [|split].
  - apply Qlt_shift_div_l; [exact Hprice | lra].
  - exact Hprice.
  - assert (E : price * ((V - V * commission p) / price)
                == V - V * commission p) by (field; exact Hnz).
    rewrite E. unfold V. nra.
Qed.

Lemma close_solvent (st st' : BacktestNode) (row : Row) (reason : string) :
  Inv p st -> solvent st -> 0 < close row ->
  _close_position st row reason = Ok st' ->
  solvent st'.
Proof.
  intros HI Hsol Hclose H. unfold solvent in Hsol.
  destruct (current_position st) as [q|] eqn:Eq.
  - destruct (inv_position _ _ HI q Eq) as (_ & Hside & _).
    destruct Hsol as (Hqty & Hep & Hle).
    eapply close_fields in H; [|exact Eq|exact Hside].
    destruct H as (_ & _ & _ & Hnone & Hcap & _).
    unfold solvent. rewrite Hnone, Hcap, (inv_params _ _ HI).
    set (xp := close row * (1 - slippage p)).
    assert (Hxp : 0 < xp) by (unfold xp; nra).
    assert (Hxq : 0 < xp * quantity q) by nra.
    assert (Hnet : 0 < xp * quantity q * (1 - commission p)) by nra.
    nra.
  - unfold _close_position in H. rewrite Eq in H. inv_Ok H.
    unfold solvent. now rewrite Eq.
Qed.

Lemma step_solvent (st st' : BacktestNode) (row : Row) :
  Inv p st -> solvent st -> 0 < close row ->
  step st row = Ok st' ->
  solvent st'.
Proof.
  intros HI Hsol Hclose H.
  destruct (step_cases _ _ _ _ HI H)
    as (pt & _ & _ & _ & [-> | [(Hnone & sig & _ & _ & Hent) | (q & sig & Hq & Hside & _ & _ & Hcl)]]).
  - exact Hsol.
  - unfold solvent in Hsol. rewrite Hnone in Hsol.
    eapply enter_solvent; [| | |  | exact Hent].
    + exact (inv_params _ _ HI).
    + exact Hnone.
    + exact Hsol.
    + nra.
  - eapply close_solvent; [| | exact Hclose | exact Hcl].
    + now apply record_point_Inv.
    + exact Hsol.
Qed.

Lemma run_loop_solvent (data : list Row) :
  Forall (fun r => 0 < close r) data ->
  forall st st', Inv p st -> solvent st ->
    run_loop st data = Ok st' -> solvent st'.
Proof.
  induction 1 as [|r l Hr _ IH]; intros st st' HI Hsol H; cbn in H.
  - now inv_Ok H.
  - inv_bind H. eapply IH; [| |exact H].
    + eapply step_Inv; eassumption.
    + eapply step_solvent; eassumption.
Qed.

(** The equity recorded on the last bar exceeds the capital after an
    end-of-period close by at least the exit commission of that close. *)
Lemma last_bar_gap (l : list Row) (r : Row) (st_m st_n st : BacktestNode) :
  0 < commission p -> 0 < close r ->
  Inv p st_m -> solvent st_m -> solvent st_n ->
  step st_m r = Ok st_n -> current_position st_n <> None ->
  close_remaining st_n (l ++ [r]) = Ok st ->
  exists t,
    trades st = trades st_n ++ [t] /\
    0 < exit_commission p t /\
    capital st + exit_commission p t <= _calculate_current_equity st_m r.
Proof.
  intros Hc Hclose HI Hsol_m Hsol_n Hstep Hlive Hfin.
  pose proof (inv_params _ _ HI) as Hp.
  pose proof (step_Inv _ _ _ _ HI Hstep) as HIn.
  unfold close_remaining in Hfin. rewrite rev_unit in Hfin.
  destruct (current_position st_n) as [q|] eqn:Eq; [|congruence].
  destruct (inv_position _ _ HIn q Eq) as (_ & Hside & _).
  eapply close_fields in Hfin; [|exact Eq|exact Hside].
  destruct Hfin as (_ & _ & _ & _ & Hcap & _ & t & Htr & _ & Hxp & _ & _ & _ & Hqt & _).
  rewrite (inv_params _ _ HIn) in *.
  exists t. split; [exact Htr|].
  unfold exit_commission. rewrite Hxp, Hqt, Hcap.
  unfold solvent in Hsol_n. rewrite Eq in Hsol_n.
  destruct Hsol_n as (Hqty & Hep & _).
  set (xp := close r * (1 - slippage p)).
  assert (Hxp0 : 0 < xp) by (unfold xp; nra).
  assert (Hxq : 0 < xp * quantity q) by nra.
  split; [nra|].
  unfold _calculate_current_equity.
  destruct (step_cases _ _ _ _ HI Hstep)
    as (pt & _ & _ & _ & [-> | [(Hnone & sig & _ & _ & Hent) | (q' & sig & Hq' & _ & _ & _ & Hcl)]]).
  - cbn [record_point current_position capital] in *.
    rewrite Eq, Hside.
    assert (Hcq : 0 < close r * quantity q) by nra.
    assert (0 <= close r * quantity q * slippage p) by nra.
    unfold xp. lra.
  - rewrite Hnone. unfold solvent in Hsol_m. rewrite Hnone in Hsol_m.
    apply enter_fields in Hent
      as (_ & _ & _ & _ & Hcap' & q0 & Hq0 & _ & Hep' & _).
    rewrite Eq in Hq0. injection Hq0 as <-.
    rewrite Hcap', Hep'. cbn [record_point capital params]. rewrite Hp.
    assert (0 < capital st_m * position_size p) by nra.
    assert (0 <= capital st_m * position_size p * commission p) by nra.
    assert (Hcq : 0 < close r * quantity q) by nra.
    assert (0 <= close r * quantity q * slippage p) by nra.
    unfold xp. lra.
  - eapply close_fields in Hcl; [| exact Hq' | ].
    + destruct Hcl as (_ & _ & _ & Hnone & _). congruence.
    + destruct (inv_position _ _ HI q' Hq') as (_ & Hs' & _). exact Hs'.
Qed.

End Solvency.

Lemma merge_close_pos (data : list Row) :
  Forall (fun r => 0 < close r) data ->
  Forall (fun r => 0 < close r) (_merge_signals_and_prices data).
Proof.
  intro H. unfold _merge_signals_and_prices.
  eapply Permutation_Forall; [apply sort_values_perm|].
  rewrite Forall_map. exact H.
Qed.

(** C9 (as the code has it).  On every bar the equity point is appended from
    the state the bar starts in, before the bar's signal is processed.  So
    when a run ends with a live position, with a commission rate strictly
    between 0 and 1, a slippage rate below 1 and positive close prices, the
    reported [final_capital] (the last equity point) leaves out the exit
    commission of the end-of-period close: it is at least the engine's
    capital after the run plus that (positive) commission, and so differs
    from that capital. *)
Theorem equity_point_precedes_signal :
  (forall st row st',
     step st row = Ok st' ->
     exists pt,
       equity_curve st' = equity_curve st ++ [pt] /\
       ep_timestamp pt = timestamp row /\
       equity pt = _calculate_current_equity st row) /\
  (forall p data st res st_n,
     0 < commission p -> commission p < 1 -> slippage p < 1 ->
     Forall (fun r => 0 < close r) data ->
     run p data = Ok (st, res) ->
     run_loop (init_node p) (_merge_signals_and_prices data) = Ok st_n ->
     current_position st_n <> None ->
     exists ledger t,
       res_trades res = ledger ++ [t] /\
       0 < exit_commission p t /\
       capital st + exit_commission p t <= final_capital res /\
       ~ final_capital res == capital st).
Proof.
  split.
  - intros st row st' H.
    apply step_curve in H as (pt & Hc & He & Ht & _). eauto.
  - intros p data st res st_n Hc0 Hc1 Hs1 Hprices Hrun Hloop Hlive.
    pose proof (run_last_bar _ _ _ _ Hrun)
      as (l & r & st_m & st_n0 & Hsplit & Hloop_m & HIm & Hstep & Hfin & Hfc).
    apply run_Ok in Hrun as (Hv & _ & _ & _ & Hm).
    apply validate_params_Ok in Hv as (_ & Hinit & Hcge & Hsge & Hsz & Hsz1).
    apply metrics_Ok in Hm as (Htr & _).
    apply merge_close_pos in Hprices. rewrite Hsplit in Hprices, Hloop.
    apply Forall_app in Hprices as [Hl Hr].
    inversion Hr as [|? ? Hclose _]; subst.
    rewrite run_loop_snoc, Hloop_m in Hloop. cbn [bind] in Hloop.
    assert (st_n0 = st_n) as -> by congruence.
    assert (Hsol_m : solvent st_m).
    { eapply (run_loop_solvent p) with (st := init_node p) (data := l);
        try eassumption; first [apply init_Inv | exact Hinit]. }
    assert (Hsol_n : solvent st_n).
    { eapply (step_solvent p) with (st := st_m) (row := r); eassumption. }
    assert (Hlast : exists t,
               trades st = trades st_n ++ [t] /\
               0 < exit_commission p t /\
               capital st + exit_commission p t
               <= _calculate_current_equity st_m r).
    { eapply (last_bar_gap p) with (l := l); eassumption. }
    destruct Hlast as (t & Ht & Hpos & Hgap).
    exists (trades st_n), t. rewrite Htr, Hfc.
    split; [exact Ht|]. split; [exact Hpos|]. split; [exact Hgap|].
    intro E. lra.
Qed.

Lemma equity_point_precedes_signal_witness :
  (exists st' pt,
     step (init_node fee_params) (bar 1%Z 100 1) = Ok st' /\
     equity_curve st' = [pt] /\ equity pt == 10000 /\ capital st' == 9900) /\
  exists st res ledger t,
    run fee_params buy_and_hold = Ok (st, res) /\
    res_trades res = ledger ++ [t] /\
    0 < exit_commission fee_params t /\
    capital st + exit_commission fee_params t <= final_capital res /\
    ~ final_capital res == capital st.
Proof.
  destruct equity_point_precedes_signal as [Hpoint Hgap].
  split.
  - remember (step (init_node fee_params) (bar 1%Z 100 1)) as o eqn:E.
    vm_compute in E.
    match type of E with
    | _ = Ok ?a =>
        destruct (Hpoint (init_node fee_params) (bar 1%Z 100 1) a)
          as (pt & Hc & _ & He);
        [vm_compute; reflexivity | exists a, pt]
    end.
    split; [exact E|]. split; [exact Hc|].
    split; [rewrite He|]; reflexivity.
  - remember (run fee_params buy_and_hold) as o eqn:E.
    remember (run_loop (init_node fee_params)
                (_merge_signals_and_prices buy_and_hold)) as o' eqn:E'.
    vm_compute in E, E'.
    match type of E with
    | _ = Ok (?st, ?res) =>
        match type of E' with
        | _ = Ok ?st_n =>
            destruct (Hgap fee_params buy_and_hold st res st_n)
              as (ledger & t & H);
            [ reflexivity | reflexivity | reflexivity
            | repeat constructor
            | vm_compute; reflexivity
            | vm_compute; reflexivity
            | discriminate
            | exists st, res, ledger, t ]
        end
    end.
    split; [exact E | exact H].
Defined.

(** C9 (as stated) fails: a positive commission alone does not make the two
    differ.  With a commission rate of 2 and a buy on the only bar, the run
    ends with a live position, the end-of-period close pays back what the
    entry took, and [final_capital] equals the engine's capital (100). *)
Lemma final_capital_can_equal_capital :
  exists st res st_n q,
    run usury_params single_buy = Ok (st, res) /\
    0 < commission usury_params /\
    run_loop (init_node usury_params)
             (_merge_signals_and_prices single_buy) = Ok st_n /\
    current_position st_n = Some q /\
    final_capital res == 100 /\ capital st == 100 /\
    final_capital res == capital st.
Proof.
  remember (run usury_params single_buy) as o eqn:E.
  remember (run_loop (init_node usury_params)
              (_merge_signals_and_prices single_buy)) as o' eqn:E'.
  vm_compute in E, E'.
  match type of E with
  | _ = Ok (?st, ?res) =>
      match type of E' with
      | _ = Ok ?st_n => exists st, res, st_n
      end
  end.
  eexists. split; [exact E|]. split; [reflexivity|]. split; [exact E'|].
  split; [reflexivity|]. repeat split.
Qed.

(** * Further properties of the engine *)

(** ** Which errors a run can raise *)









Lemma run_loop_length (data : list Row) :
  forall st st', run_loop st data = Ok st' ->
    List.length (equity_curve st')
    = (List.length (equity_curve st) + List.length data)%nat.
Proof.
  intros st st' H. apply run_loop_curve in H.
  apply (f_equal (@List.length _)) in H.
  rewrite length_app, !length_map in H. exact H.
Qed.

(** The metrics are computed without error from a state that satisfies the
    engine invariant and has a non-empty equity curve. *)
Lemma metrics_total (p : BacktestParams) (st : BacktestNode) (data : list Row) :
  Inv p st -> 0 < initial_capital p -> equity_curve st <> [] ->
  exists res, _calculate_performance_metrics st data = Ok res.
Proof.
  intros HI Hinit Hne. unfold _calculate_performance_metrics.
  destruct (equity_curve st) as [|x c] eqn:Ec using rev_ind; [congruence|].
  clear IHc. rewrite last_equity_snoc. cbn [bind].
  rewrite (inv_params _ _ HI).
  rewrite py_div_nonzero by lra. cbn [bind].
  assert (Hrec : Forall recorded (trades st)).
  { eapply Forall_impl; [|exact (inv_ledger _ _ HI)].
    intro t. apply closed_recorded. }
  destruct (trades st) as [|t0 l] eqn:Et.
  - cbn. eauto.
  - destruct (trade_statistics_Ok t0 l Hrec)
      as (w & lo & vw & vl & stats & _ & _ & _ & _ & _ & _ & Hst & _).
    rewrite Hst. cbn [bind]. eauto.
Qed.

Lemma merge_length (data : list Row) :
  List.length (_merge_signals_and_prices data) = List.length data.
Proof.
  unfold _merge_signals_and_prices.
  rewrite <- (Permutation_length (sort_values_perm (map fillna data))).
  apply length_map.
Qed.




(** ** Drawdown bounds *)

Lemma max_step_cases (m y : Q) :
  (max_step m y = y /\ m < y) \/ (max_step m y = m /\ y <= m).
Proof.
  unfold max_step. destruct (Qgtb y m) eqn:E.
  - apply Qgtb_true in E. now left.
  - apply Qgtb_false in E. now right.
Qed.

Lemma peak_drawdowns_nonneg (l : list Q) :
  forall m, 0 < m -> Forall (fun d => 0 <= d) (peak_drawdowns m l).
Proof.
  induction l as [|e l IH]; intros m Hm; cbn [peak_drawdowns].
  - constructor.
  - pose proof (max_step_ge m e) as Hge.
    constructor.
    + apply Qle_shift_div_l; [lra|].
      destruct (max_step_cases m e) as [[-> H] | [-> H]]; lra.
    + apply IH. lra.
Qed.

Lemma peak_drawdowns_lt_1 (l : list Q) :
  forall m, 0 < m -> Forall (fun e => 0 < e) l ->
    Forall (fun d => d < 1) (peak_drawdowns m l).
Proof.
  induction l as [|e l IH]; intros m Hm Hl; cbn [peak_drawdowns].
  - constructor.
  - inversion Hl as [|? ? He Hl']; subst.
    pose proof (max_step_ge m e) as Hge.
    constructor.
    + apply Qlt_shift_div_r; lra.
    + apply IH; [lra | exact Hl'].
Qed.

Lemma fold_max_upper (l : list Q) :
  forall b x, In x l -> x <= fold_left max_step l b.
Proof.
  induction l as [|y l IH]; intros b x Hin; cbn in *.
  - contradiction.
  - destruct Hin as [-> | Hin].
    + pose proof (fold_max_ge l (max_step b x)).
      destruct (max_step_cases b x) as [[E H1] | [E H1]]; rewrite E in *; lra.
    + now apply IH.
Qed.

Lemma metric_max_drawdown_fold (e0 : Q) (rest : list Q) :
  metric_max_drawdown (e0 :: rest)
  == fold_left max_step (peak_drawdowns e0 rest) 0.
Proof.
  destruct (engine_max_drawdown e0 rest) as (w & Hw & E).
  cbn [engine_drawdowns] in Hw. rewrite py_max_fold in Hw.
  injection Hw as <-. exact E.
Qed.

(** The curve of a completed run: its stored drawdowns and its equities. *)
Lemma run_curve_shape (p : BacktestParams) (data : list Row)
      (st : BacktestNode) (res : BacktestResults) :
  run p data = Ok (st, res) ->
  exists rest,
    0 < initial_capital p /\
    map equity (res_equity_curve res) = initial_capital p :: rest /\
    map drawdown (res_equity_curve res)
    = 0 :: peak_drawdowns (initial_capital p) rest /\
    max_drawdown res
    == fold_left max_step (peak_drawdowns (initial_capital p) rest) 0 /\
    max_drawdown_duration res
    = _calculate_max_drawdown_duration (initial_capital p :: rest).
Proof.
  intro Hrun.
  destruct (running_max_engine_pos _ _ _ _ Hrun) as (rest & Heq & _).
  pose proof Hrun as Hrun'.
  apply run_Ok in Hrun as (Hv & st_n & Hloop & Hfin & Hm).
  apply validate_params_Ok in Hv as (_ & Hinit & _).
  pose proof Hm as Hm'.
  apply metrics_Ok in Hm as (_ & Hc & _ & Hmd & _).
  apply close_remaining_curve in Hfin.
  assert (Hok : curve_ok (equity_curve st)).
  { rewrite Hfin. eapply run_loop_curve_ok; [|exact Hloop]. reflexivity. }
  exists rest. split; [exact Hinit|]. split; [exact Heq|].
  rewrite Hc in *. unfold curve_ok in Hok. rewrite Heq in Hok.
  split; [exact Hok|]. split.
  - rewrite Hmd, Heq. apply metric_max_drawdown_fold.
  - unfold _calculate_performance_metrics in Hm'.
    inv_bind Hm'. inv_bind Hm'. inv_bind Hm'. inv_Ok Hm'.
    cbn [max_drawdown_duration]. now rewrite Heq.
Qed.

(** X2.  In a completed run every stored drawdown is non-negative and none
    exceeds the [max_drawdown] metric; the first point's drawdown is 0. *)
Theorem drawdown_bounds
        (p : BacktestParams) (data : list Row)
        (st : BacktestNode) (res : BacktestResults) :
  run p data = Ok (st, res) ->
  Forall (fun pt => 0 <= drawdown pt /\ drawdown pt <= max_drawdown res)
         (res_equity_curve res) /\
  exists pt0 rest, res_equity_curve res = pt0 :: rest /\ drawdown pt0 = 0.
Proof.
  intro Hrun.
  destruct (run_curve_shape _ _ _ _ Hrun) as (rest & Hinit & Heq & Hdd & Hmd & _).
  split.
  - assert (Hall : Forall (fun d => 0 <= d /\ d <= max_drawdown res)
                          (map drawdown (res_equity_curve res))).
    { rewrite Hdd. constructor.
      - split; [lra|]. rewrite Hmd. apply fold_max_ge.
      - pose proof (peak_drawdowns_nonneg rest _ Hinit) as Hnn.
        rewrite Forall_forall in *. intros d Hd. split; [now apply Hnn|].
        rewrite Hmd. now apply fold_max_upper. }
    rewrite Forall_map in Hall. exact Hall.
  - destruct (res_equity_curve res) as [|pt0 c]; [discriminate|].
    exists pt0, c. split; [reflexivity|]. cbn in Hdd. congruence.
Qed.

Lemma drawdown_bounds_witness :
  exists st res,
    run fee_params round_trip = Ok (st, res) /\
    Forall (fun pt => 0 <= drawdown pt /\ drawdown pt <= max_drawdown res)
           (res_equity_curve res).
Proof.
  remember (run fee_params round_trip) as o eqn:E.
  vm_compute in E.
  match type of E with
  | _ = Ok (?st, ?res) =>
      destruct (drawdown_bounds fee_params round_trip st res) as [H _];
      [vm_compute; reflexivity | exists st, res]
  end.
  split; [exact E | exact H].
Defined.

(** ** Health of a run with sound fees and positive prices *)

Section Health.

Variable p : BacktestParams.
Hypothesis initial_pos : 0 < initial_capital p.
Hypothesis fee_lt_1 : commission p < 1.
Hypothesis fee_ge_0 : 0 <= commission p.
Hypothesis slip_lt_1 : slippage p < 1.
Hypothesis slip_ge_0 : 0 <= slippage p.
Hypothesis size_gt_0 : 0 < position_size p.
Hypothesis size_at_most_1 : position_size p <= 1.

Lemma init_Healthy : Healthy p (init_node p).
Proof.
  constructor.
  - apply init_Inv.
  - exact initial_pos.
  - constructor.
  - constructor.
Qed.

Lemma equity_pos (st : BacktestNode) (row : Row) :
  Inv p st -> solvent st -> 0 < close row ->
  0 < _calculate_current_equity st row.
Proof.
  intros HI Hsol Hclose. unfold _calculate_current_equity, solvent in *.
  destruct (current_position st) as [q|] eqn:Eq; [|exact Hsol].
  destruct (inv_position _ _ HI q Eq) as (_ & Hside & _). rewrite Hside.
  destruct Hsol as (Hq & Hep & Hle).
  assert (0 < close row * quantity q) by nra.
  lra.
Qed.

Lemma step_Healthy (st st' : BacktestNode) (row : Row) :
  Healthy p st -> 0 < close row -> step st row = Ok st' -> Healthy p st'.
Proof.
  intros [HI Hsol Hcurve Hledger] Hclose H.
  constructor.
  - eapply step_Inv; eassumption.
  - eapply (step_solvent p); eassumption.
  - destruct (step_curve _ _ _ H) as (pt & Hc & He & _).
    rewrite Hc. apply Forall_app. split; [exact Hcurve|].
    constructor; [|constructor]. rewrite He. now apply equity_pos.
  - destruct (step_cases _ _ _ _ HI H)
      as (pt & _ & _ & _ & [-> | [(Hnone & sig & _ & _ & Hent) | (q & sig & Hq & Hside & _ & _ & Hcl)]]).
    + exact Hledger.
    + apply enter_fields in Hent as (_ & _ & Ht & _). rewrite Ht. exact Hledger.
    + eapply close_fields in Hcl; [|exact Hq|exact Hside].
      destruct Hcl as (_ & _ & _ & _ & _ & _ & t & Ht & _ & _ & _ & _ & Hep & Hqt & _).
      rewrite Ht. apply Forall_app. split; [exact Hledger|].
      constructor; [|constructor].
      unfold solvent in Hsol. rewrite Hq in Hsol.
      rewrite Hep, Hqt. tauto.
Qed.

Lemma close_total (st : BacktestNode) (row : Row) (reason : string) :
  Inv p st -> solvent st -> exists st', _close_position st row reason = Ok st'.
Proof.
  intros HI Hsol. unfold _close_position, solvent in *.
  destruct (current_position st) as [q|] eqn:Eq; [|eauto].
  destruct Hsol as (Hq & Hep & _).
  rewrite py_div_nonzero; [cbn; eauto|].
  assert (0 < entry_price q * quantity q) by nra. lra.
Qed.

Lemma step_total (st : BacktestNode) (row : Row) :
  Healthy p st -> 0 < close row -> exists st', step st row = Ok st'.
Proof.
  intros [HI Hsol Hcurve Hledger] Hclose.
  pose proof (equity_pos st row HI Hsol Hclose) as Heq.
  unfold step.
  assert (exists dd, _calculate_current_drawdown st
                       (_calculate_current_equity st row) = Ok dd) as [dd ->].
  { unfold _calculate_current_drawdown.
    destruct (equity_curve st) as [|pt0 c]; [eauto|].
    cbn [map app]. rewrite py_max_fold. cbn [bind].
    inversion Hcurve as [|? ? H0 _]; subst.
    pose proof (fold_max_ge (map equity c ++ [_calculate_current_equity st row])
                            (equity pt0)).
    rewrite py_div_nonzero by lra. eauto. }
  cbn [bind]. unfold dispatch_signal.
  destruct (signal row) as [sig|]; [|eauto].
  destruct (Qeq_bool sig 0); [eauto|].
  unfold _process_signal. cbn [record_point current_position params].
  rewrite (inv_params _ _ HI).
  destruct (Qgtb sig 0).
  - destruct (current_position st) as [q|] eqn:Eq.
    + destruct (inv_position _ _ HI q Eq) as (_ & -> & _). eauto.
    + unfold _enter_long_position.
      rewrite py_div_nonzero; [cbn; eauto|].
      assert (0 < close row * (1 + slippage p)) by nra. lra.
  - destruct (Qltb sig 0); [|eauto].
    destruct (current_position st) as [q|] eqn:Eq; [|eauto].
    destruct (inv_position _ _ HI q Eq) as (_ & -> & _).
    apply close_total.
    + now apply record_point_Inv.
    + unfold solvent. cbn [record_point current_position capital].
      unfold solvent in Hsol. exact Hsol.
Qed.

Lemma run_loop_total (data : list Row) :
  Forall (fun r => 0 < close r) data ->
  forall st, Healthy p st ->
    exists st', run_loop st data = Ok st' /\ Healthy p st'.
Proof.
  induction 1 as [|r l Hr _ IH]; intros st Hst; cbn.
  - eauto.
  - destruct (step_total st r Hst Hr) as (st1 & H1).
    rewrite H1. cbn [bind]. apply IH. eapply step_Healthy; eassumption.
Qed.

Lemma run_loop_Healthy (data : list Row) :
  Forall (fun r => 0 < close r) data ->
  forall st st', Healthy p st -> run_loop st data = Ok st' -> Healthy p st'.
Proof.
  intros Hd st st' Hst H.
  destruct (run_loop_total data Hd st Hst) as (st2 & H2 & Hh). congruence.
Qed.

Lemma close_remaining_Healthy (st st' : BacktestNode) (l : list Row) (r : Row) :
  Healthy p st -> 0 < close r ->
  close_remaining st (l ++ [r]) = Ok st' -> Healthy p st'.
Proof.
  intros [HI Hsol Hcurve Hledger] Hclose H.
  unfold close_remaining in H. rewrite rev_unit in H.
  destruct (current_position st) as [q|] eqn:Eq.
  2:{ inv_Ok H. constructor; assumption. }
  destruct (inv_position _ _ HI q Eq) as (_ & Hside & _).
  pose proof H as H'.
  eapply close_fields in H; [|exact Eq|exact Hside].
  destruct H as (_ & Hc & _ & _ & _ & _ & t & Ht & _ & _ & _ & _ & Hep & Hqt & _).
  constructor.
  - eapply close_Inv; eassumption.
  - eapply (close_solvent p); eassumption.
  - rewrite Hc. exact Hcurve.
  - rewrite Ht. apply Forall_app. split; [exact Hledger|].
    constructor; [|constructor].
    unfold solvent in Hsol. rewrite Eq in Hsol. rewrite Hep, Hqt. tauto.
Qed.

End Health.



(** X4.  Solvency.  Under the same conditions a completed run never shows a
    non-positive equity, every stored drawdown is below 1, every trade has a
    positive quantity and entry price, and the capital after the run and the
    reported final capital are positive. *)
Theorem run_stays_solvent
        (p : BacktestParams) (data : list Row)
        (st : BacktestNode) (res : BacktestResults) :
  commission p < 1 -> slippage p < 1 ->
  Forall (fun r => 0 < close r) data ->
  run p data = Ok (st, res) ->
  Forall (fun pt => 0 < equity pt /\ drawdown pt < 1) (res_equity_curve res) /\
  Forall (fun t => 0 < quantity t /\ 0 < entry_price t) (res_trades res) /\
  0 < capital st /\ 0 < final_capital res.
Proof.
  intros Hc Hs Hprices Hrun.
  pose proof (run_Inv _ _ _ _ Hrun) as [_ Hnone].
  destruct (run_curve_shape _ _ _ _ Hrun) as (rest & _ & Heq & Hdd & _).
  pose proof (run_last_bar _ _ _ _ Hrun)
    as (l & r & st_m & st_n & Hsplit & Hloop_m & _ & Hstep & Hfin & Hfc).
  apply run_Ok in Hrun as (Hv & _ & _ & _ & Hm).
  apply validate_params_Ok in Hv as (_ & Hinit & Hc0 & Hs0 & Hz & Hz1).
  apply metrics_Ok in Hm as (Htr & Hcu & Hlast & _).
  apply merge_close_pos in Hprices. rewrite Hsplit in Hprices.
  apply Forall_app in Hprices as [Hl Hr].
  inversion Hr as [|? ? Hclose _]; subst.
  assert (Hh0 : Healthy p (init_node p)) by (now apply init_Healthy).
  assert (Hm : Healthy p st_m).
  { eapply (run_loop_Healthy p) with (data := l); eassumption. }
  assert (Hn : Healthy p st_n).
  { eapply (step_Healthy p) with (st := st_m); eassumption. }
  assert (Hst : Healthy p st).
  { eapply (close_remaining_Healthy p) with (st := st_n); eassumption. }
  destruct Hst as [_ Hsol Hcurve Hledger].
  rewrite Htr, Hcu.
  assert (Hpos : Forall (fun e => 0 < e) (map equity (equity_curve st)))
    by (rewrite Forall_map; exact Hcurve).
  split; [|split; [exact Hledger|split]].
  - rewrite Hcu in Heq, Hdd. rewrite Heq in Hpos.
    inversion Hpos as [|? ? H0 Hrest]; subst.
    pose proof (peak_drawdowns_lt_1 rest _ H0 Hrest) as Hlt.
    assert (Hd : Forall (fun d => d < 1) (map drawdown (equity_curve st)))
      by (rewrite Hdd; constructor; [lra | exact Hlt]).
    rewrite Forall_map in Hd.
    rewrite Forall_forall in *. intros pt Hin. split; auto.
  - unfold solvent in Hsol. now rewrite Hnone in Hsol.
  - unfold last_equity in Hlast.
    destruct (rev (equity_curve st)) as [|pt c] eqn:Er; [discriminate|].
    injection Hlast as <-.
    rewrite Forall_forall in Hcurve. apply Hcurve.
    apply in_rev. rewrite Er. now left.
Qed.

Lemma run_stays_solvent_witness :
  exists st res,
    run fee_params round_trip = Ok (st, res) /\
    Forall (fun pt => 0 < equity pt /\ drawdown pt < 1)
           (res_equity_curve res) /\
    Forall (fun t => 0 < quantity t /\ 0 < entry_price t) (res_trades res) /\
    0 < capital st /\ 0 < final_capital res.
Proof.
  remember (run fee_params round_trip) as o eqn:E.
  vm_compute in E.
  match type of E with
  | _ = Ok (?st, ?res) =>
      pose proof (run_stays_solvent fee_params round_trip st res) as H;
      exists st, res
  end.
  split; [exact E|]. apply H.
  - reflexivity.
  - reflexivity.
  - repeat constructor.
  - vm_compute. reflexivity.
Defined.

(** ** Drawdown duration *)

Lemma duration_loop_zero (bs : list bool) :
  forall mx c,
    duration_loop bs mx c = 0%nat <-> mx = 0%nat /\ forallb negb bs = true.
Proof.
  induction bs as [|b bs IH]; intros mx c; cbn.
  - tauto.
  - destruct b; cbn [negb andb]; rewrite IH.
    + split; [intros [H _]; lia | intros [_ H]; discriminate].
    + tauto.
Qed.

Lemma duration_loop_bound (bs : list bool) :
  forall mx c,
    (duration_loop bs mx c <= Nat.max mx (c + List.length bs))%nat.
Proof.
  induction bs as [|b bs IH]; intros mx c; cbn.
  - lia.
  - destruct b.
    + pose proof (IH (Nat.max mx (S c)) (S c)). lia.
    + pose proof (IH mx 0%nat). lia.
Qed.

Lemma series_lt_length (l : list Q) :
  forall m, List.length (series_lt l (expanding_max_from m l)) = List.length l.
Proof.
  induction l as [|e l IH]; intro m; cbn; [reflexivity|].
  now rewrite IH.
Qed.

Lemma below_peak_flags (l : list Q) :
  forall m, 0 < m ->
    forallb negb (series_lt l (expanding_max_from m l)) = true
    <-> Forall (fun d => d <= 0) (peak_drawdowns m l).
Proof.
  induction l as [|e l IH]; intros m Hm.
  - cbn. split; [constructor | reflexivity].
  - rewrite expanding_max_from_step.
    cbn [series_lt forallb peak_drawdowns].
    pose proof (max_step_ge m e) as Hge.
    set (m' := max_step m e) in *.
    assert (Hm' : 0 < m') by lra.
    assert (He : e <= m')
      by (unfold m'; destruct (max_step_cases m e) as [[-> H] | [-> H]]; lra).
    rewrite andb_true_iff, (IH m' Hm'), negb_true_iff, Qltb_false.
    split.
    + intros [H1 H2]. constructor; [|exact H2].
      apply Qle_shift_div_r; lra.
    + intro H. inversion H as [|? ? Hd Hrest]; subst. split; [|exact Hrest].
      destruct (Qlt_le_dec e m') as [Hlt | Hle]; [|exact Hle].
      assert (0 < (m' - e) / m') by (apply Qlt_shift_div_l; lra). lra.
Qed.

Lemma fold_max_dominated (l : list Q) :
  forall b, Forall (fun d => d <= b) l -> fold_left max_step l b = b.
Proof.
  induction l as [|x l IH]; intros b H; cbn.
  - reflexivity.
  - inversion H as [|? ? Hx Hl]; subst.
    assert (E : max_step b x = b).
    { unfold max_step. destruct (Qgtb x b) eqn:Eg; [|reflexivity].
      apply Qgtb_true in Eg. lra. }
    rewrite E. now apply IH.
Qed.

(** X5.  The two drawdown metrics agree on whether there was a drawdown at
    all: [max_drawdown_duration] is 0 exactly when [max_drawdown] is 0, and
    the duration is always smaller than the number of bars. *)
Theorem drawdown_duration_consistent
        (p : BacktestParams) (data : list Row)
        (st : BacktestNode) (res : BacktestResults) :
  run p data = Ok (st, res) ->
  (max_drawdown_duration res = 0%nat <-> max_drawdown res == 0) /\
  (max_drawdown_duration res < List.length data)%nat.
Proof.
  intro Hrun.
  destruct (run_curve_shape _ _ _ _ Hrun) as (rest & Hinit & Heq & _ & Hmd & Hdur).
  assert (Hlen : List.length data = S (List.length rest)).
  { apply run_Ok in Hrun as (_ & st_n & Hloop & Hfin & Hm).
    apply metrics_Ok in Hm as (_ & Hc & _).
    apply close_remaining_curve in Hfin. apply run_loop_length in Hloop.
    rewrite merge_length in Hloop. cbn in Hloop.
    apply (f_equal (@List.length _)) in Heq.
    rewrite length_map, Hc, Hfin in Heq. cbn in Heq. lia. }
  rewrite Hdur. unfold _calculate_max_drawdown_duration.
  cbn [expanding_max series_lt].
  assert (Qltb (initial_capital p) (initial_capital p) = false) as ->
    by (apply Qltb_false; lra).
  cbn [duration_loop]. split.
  - rewrite duration_loop_zero, (below_peak_flags rest _ Hinit), Hmd.
    split.
    + intros [_ H]. rewrite (fold_max_dominated _ 0 H). reflexivity.
    + intro E. split; [reflexivity|].
      rewrite Forall_forall. intros d Hd.
      pose proof (fold_max_upper _ 0 d Hd). lra.
  - pose proof (duration_loop_bound
                  (series_lt rest (expanding_max_from (initial_capital p) rest))
                  0 0) as Hb.
    rewrite series_lt_length in Hb. lia.
Qed.

Lemma drawdown_duration_consistent_witness :
  exists st res,
    run fee_params round_trip = Ok (st, res) /\
    (max_drawdown_duration res = 0%nat <-> max_drawdown res == 0) /\
    (max_drawdown_duration res < List.length round_trip)%nat.
Proof.
  remember (run fee_params round_trip) as o eqn:E.
  vm_compute in E.
  match type of E with
  | _ = Ok (?st, ?res) =>
      pose proof (drawdown_duration_consistent fee_params round_trip st res) as H;
      exists st, res
  end.
  split; [exact E|]. apply H. vm_compute. reflexivity.
Defined.

(** ** Runs without signals *)

Lemma fold_max_const (C : Q) (l : list Q) :
  Forall (fun x => x = C) l -> fold_left max_step l C = C.
Proof.
  intro H. apply fold_max_dominated.
  eapply Forall_impl; [|exact H]. cbn. intros x ->. lra.
Qed.

Lemma step_quiet (C : Q) (st : BacktestNode) (row : Row) :
  0 < C -> Quiet C st -> inert row ->
  exists st', step st row = Ok st' /\ Quiet C st'.
Proof.
  intros HC (Hpos & Htr & Hcap & Hout & Hcurve) Hin.
  unfold step, _calculate_current_equity. rewrite Hpos, Hcap.
  assert (Hdd : exists dd, _calculate_current_drawdown st C = Ok dd /\ dd == 0).
  { unfold _calculate_current_drawdown.
    destruct (equity_curve st) as [|pt0 c] eqn:Ec.
    - exists 0. split; [reflexivity | lra].
    - cbn [map app]. rewrite py_max_fold. cbn [bind].
      inversion Hcurve as [|? ? (E0 & _) Hc]; subst.
      rewrite E0. rewrite fold_max_const.
      + rewrite py_div_nonzero by lra. eexists. split; [reflexivity|].
        unfold Qdiv. ring.
      + apply Forall_app. split; [|repeat constructor].
        rewrite Forall_map. eapply Forall_impl; [|exact Hc]. cbn. tauto. }
  destruct Hdd as (dd & -> & Edd). cbn [bind].
  unfold dispatch_signal. cbn [record_point].
  assert (Hq : Quiet (capital st)
                 (record_point st
                    {| ep_timestamp := timestamp row; equity := capital st;
                       drawdown := dd; position := pos_flat |})).
  { unfold Quiet. cbn [record_point current_position trades capital stdout
                       equity_curve].
    repeat split; try assumption.
    apply Forall_app. split; [rewrite Hcap; exact Hcurve|].
    constructor; [|constructor]. cbn. auto. }
  rewrite Hcap in *.
  unfold inert in Hin. destruct (signal row) as [sig|]; [|eauto].
  apply Qeq_bool_iff in Hin. rewrite Hin. eauto.
Qed.

Lemma run_loop_quiet (C : Q) (data : list Row) :
  0 < C -> Forall inert data ->
  forall st, Quiet C st ->
    exists st', run_loop st data = Ok st' /\ Quiet C st'.
Proof.
  intros HC. induction 1 as [|r l Hr _ IH]; intros st Hq; cbn.
  - eauto.
  - destruct (step_quiet C st r HC Hq Hr) as (st1 & -> & Hq1). cbn [bind].
    now apply IH.
Qed.

Lemma merge_inert (data : list Row) :
  Forall inert data -> Forall inert (_merge_signals_and_prices data).
Proof.
  intro H. unfold _merge_signals_and_prices.
  eapply Permutation_Forall; [apply sort_values_perm|].
  rewrite Forall_map. eapply Forall_impl; [|exact H].
  intros r Hr. unfold inert, fillna in *. cbn.
  destruct (signal r); [exact Hr | reflexivity].
Qed.

Lemma run_quiet_outcome (p : BacktestParams) (data : list Row) :
  validate_params p = Ok p ->
  data <> [] -> Forall inert data ->
  exists st res,
    run p data = Ok (st, res) /\
    res_trades res = [] /\ num_trades res = 0%nat /\
    capital st = initial_capital p /\ stdout st = [] /\
    final_capital res = initial_capital p /\
    total_return res == 0 /\
    max_drawdown res == 0 /\ max_drawdown_duration res = 0%nat /\
    win_rate res = 0 /\ profit_factor res = 0 /\ avg_trade_return res = 0 /\
    Forall (fun pt => equity pt = initial_capital p /\
                      position pt = pos_flat /\ drawdown pt == 0)
           (res_equity_curve res).
Proof.
  intros Hv Hne Hin.
  pose proof (validate_params_Ok _ _ Hv) as (_ & Hinit & _).
  apply merge_inert in Hin.
  assert (Hq0 : Quiet (initial_capital p) (init_node p)).
  { unfold Quiet. cbn. repeat split. constructor. }
  destruct (run_loop_quiet _ _ Hinit Hin _ Hq0)
    as (st & Hloop & Hpos & Htr & Hcap & Hout & Hcurve).
  assert (Hlen : List.length (equity_curve st) = List.length data).
  { apply run_loop_length in Hloop. rewrite merge_length in Hloop.
    exact Hloop. }
  assert (Hrun : exists res, run p data = Ok (st, res)).
  { unfold run. rewrite Hv. cbn [bind]. unfold _run_backtest_simulation.
    change {| params := params (init_node p);
              current_position := None;
              trades := [];
              equity_curve := [];
              capital := initial_capital (params (init_node p));
              stdout := stdout (init_node p) |} with (init_node p).
    rewrite Hloop. cbn [bind]. unfold close_remaining. rewrite Hpos.
    cbn [bind].
    assert (HI : Inv p st).
    { eapply run_loop_Inv; [apply init_Inv | exact Hloop]. }
    destruct (metrics_total p st (_merge_signals_and_prices data) HI Hinit)
      as (res & ->).
    - intro E. rewrite E in Hlen. destruct data; [congruence | discriminate].
    - cbn [bind]. eauto. }
  destruct Hrun as (res & Hrun). exists st, res.
  split; [exact Hrun|].
  destruct (run_curve_shape _ _ _ _ Hrun) as (rest & _ & Heq & Hdd & Hmd & Hdur).
  pose proof Hrun as Hrun'.
  apply run_Ok in Hrun as (_ & _ & _ & _ & Hm).
  pose proof Hm as Hm'.
  apply metrics_Ok in Hm as (Ht & Hc & Hlast & _ & Hn & stats & Hstats & Hwr & Hpf & Havg).
  rewrite Htr in *. cbn in Hstats. injection Hstats as <-.
  assert (Hfc : final_capital res = initial_capital p).
  { unfold last_equity in Hlast.
    destruct (rev (equity_curve st)) as [|pt c] eqn:Er; [discriminate|].
    injection Hlast as <-.
    rewrite Forall_forall in Hcurve.
    apply (Hcurve pt). apply in_rev. rewrite Er. now left. }
  assert (Hflat : Forall (fun d => d <= 0)
                         (peak_drawdowns (initial_capital p) rest)).
  { assert (Hd : Forall (fun d => d <= 0)
                        (map drawdown (res_equity_curve res))).
    { rewrite Hc, Forall_map. eapply Forall_impl; [|exact Hcurve].
      cbn. intros pt (_ & _ & E). lra. }
    rewrite Hdd in Hd. now inversion Hd. }
  split; [exact Ht|]. split; [exact Hn|]. split; [exact Hcap|].
  split; [exact Hout|]. split; [exact Hfc|]. split.
  { unfold _calculate_performance_metrics in Hm'.
    rewrite Hlast in Hm'. cbn [bind] in Hm'. inv_bind Hm'.
    apply py_div_Ok in Ha as [_ ->]. inv_bind Hm'. inv_Ok Hm'.
    cbn [total_return]. rewrite Hfc, (inv_params _ _ (proj1 (run_Inv _ _ _ _ Hrun'))).
    unfold Qdiv. ring. }
  split; [rewrite Hmd, (fold_max_dominated _ 0 Hflat); reflexivity|].
  split.
  { rewrite Hdur. unfold _calculate_max_drawdown_duration.
    cbn [expanding_max series_lt].
    assert (Qltb (initial_capital p) (initial_capital p) = false) as ->
      by (apply Qltb_false; lra).
    cbn [duration_loop]. apply duration_loop_zero. split; [reflexivity|].
    now apply below_peak_flags. }
  split; [exact Hwr|]. split; [exact Hpf|]. split; [exact Havg|].
  rewrite Hc. exact Hcurve.
Qed.

(** X6.  A non-empty series whose signals are all 0 or missing always runs to
    completion with accepted parameters, whatever the prices: no trade is
    made, nothing is printed by the engine, every equity point is the initial
    capital with drawdown 0 and state flat, and the metrics report
    [final_capital = initial_capital], zero return, zero drawdown and zero
    trade statistics. *)
Theorem run_without_signals (p : BacktestParams) (data : list Row) :
  validate_params p = Ok p ->
  data <> [] -> Forall inert data ->
  exists st res,
    run p data = Ok (st, res) /\
    res_trades res = [] /\ num_trades res = 0%nat /\
    capital st = initial_capital p /\ stdout st = [] /\
    final_capital res = initial_capital p /\
    total_return res == 0 /\
    max_drawdown res == 0 /\ max_drawdown_duration res = 0%nat /\
    win_rate res = 0 /\ profit_factor res = 0 /\ avg_trade_return res = 0 /\
    Forall (fun pt => equity pt = initial_capital p /\
                      position pt = pos_flat /\ drawdown pt == 0)
           (res_equity_curve res).
Proof. apply run_quiet_outcome. Qed.

Lemma run_without_signals_witness :
  exists st res,
    run fee_params idle_bars = Ok (st, res) /\
    res_trades res = [] /\ final_capital res = initial_capital fee_params /\
    total_return res == 0 /\ max_drawdown res == 0.
Proof.
  destruct (run_without_signals fee_params idle_bars)
    as (st & res & H & Ht & _ & _ & _ & Hf & Hr & Hd & _).
  - reflexivity.
  - discriminate.
  - repeat constructor.
  - exists st, res. auto.
Defined.

(** ** Chronology of the ledger *)

Lemma sorted_snoc (l : list Z) (x : Z) :
  StronglySorted Z.le l -> Forall (fun a => (a <= x)%Z) l ->
  StronglySorted Z.le (l ++ [x]).
Proof.
  induction 1 as [|a l Hs IH Ha]; intro Hall; cbn.
  - constructor; constructor.
  - inversion Hall as [|? ? Hax Hl]; subst.
    constructor; [now apply IH|].
    apply Forall_app. split; [exact Ha | constructor; [exact Hax | constructor]].
Qed.

Lemma Chron_snoc (T T' : Timestamp) (l : list Z) :
  StronglySorted Z.le l -> Forall (fun x => (x <= T)%Z) l -> (T <= T')%Z ->
  StronglySorted Z.le (l ++ [T']) /\ Forall (fun x => (x <= T')%Z) (l ++ [T']).
Proof.
  intros Hs Hb Hle.
  assert (Hb' : Forall (fun x => (x <= T')%Z) l)
    by (eapply Forall_impl; [|exact Hb]; cbn; intros; lia).
  split.
  - now apply sorted_snoc.
  - apply Forall_app. split; [exact Hb' | constructor; [lia | constructor]].
Qed.

Lemma close_state_times (st st' : BacktestNode) (row : Row)
      (reason : string) (q : Trade) :
  current_position st = Some q -> side q = long ->
  _close_position st row reason = Ok st' ->
  state_times st' = state_times st ++ [timestamp row].
Proof.
  intros Hq Hside H.
  eapply close_fields in H; [|exact Hq|exact Hside].
  destruct H as (_ & _ & _ & Hnone & _ & _ & t & Ht & Hxt & _ & _ & _ & _ & _ & Het & _).
  unfold state_times, ledger_times. rewrite Hnone, Hq, Ht, flat_map_app.
  cbn [flat_map]. unfold trade_times at 2. rewrite Hxt, Het.
  rewrite !app_nil_r, <- app_assoc. reflexivity.
Qed.

Lemma step_Chron (p : BacktestParams) (T : Timestamp)
      (st st' : BacktestNode) (row : Row) :
  Inv p st -> Chron T st -> (T <= timestamp row)%Z ->
  step st row = Ok st' ->
  Chron (timestamp row) st'.
Proof.
  intros HI [Hs Hb] Hle H.
  destruct (step_cases _ _ _ _ HI H)
    as (pt & _ & _ & _ & [-> | [(Hnone & sig & _ & _ & Hent) | (q & sig & Hq & Hside & _ & _ & Hcl)]]).
  - split; [exact Hs|].
    eapply Forall_impl; [|exact Hb]. cbn. intros; lia.
  - apply enter_fields in Hent
      as (_ & _ & Ht & _ & _ & q & Hq & _ & _ & Het & _).
    unfold Chron, state_times in *. rewrite Hq, Ht, Het.
    rewrite Hnone, app_nil_r in Hs, Hb.
    cbn [record_point trades]. now apply (Chron_snoc T).
  - pose proof (close_state_times (record_point st pt) st' row _ q
                  Hq Hside Hcl) as E.
    change (state_times (record_point st pt)) with (state_times st) in E.
    unfold Chron. rewrite E. now apply (Chron_snoc T).
Qed.

Lemma run_loop_Chron (p : BacktestParams) (data : list Row) :
  StronglySorted ts_le data ->
  forall T st st',
    Forall (fun r => (T <= timestamp r)%Z) data ->
    Inv p st -> Chron T st ->
    run_loop st data = Ok st' ->
    Chron (last_timestamp T data) st'.
Proof.
  induction 1 as [|r l Hs IH Hr]; intros T st st' Hge HI Hc H; cbn in H.
  - inv_Ok H. exact Hc.
  - inv_bind H. inversion Hge as [|? ? Hr0 Hl]; subst.
    cbn [last_timestamp fold_left]. eapply (IH (timestamp r) a).
    + exact Hr.
    + eapply step_Inv; eassumption.
    + eapply step_Chron; eassumption.
    + exact H.
Qed.

Lemma last_timestamp_snoc (T : Timestamp) (l : list Row) (r : Row) :
  last_timestamp T (l ++ [r]) = timestamp r.
Proof.
  unfold last_timestamp. rewrite fold_left_app. reflexivity.
Qed.

Lemma sorted_app_inv (l1 l2 : list Z) :
  StronglySorted Z.le (l1 ++ l2) ->
  StronglySorted Z.le l1 /\ StronglySorted Z.le l2 /\
  forall a b, In a l1 -> In b l2 -> (a <= b)%Z.
Proof.
  induction l1 as [|x l1 IH]; cbn; intro H.
  - split; [constructor|]. split; [exact H|]. intros a b [].
  - inversion H as [|? ? Hs Hx]; subst.
    destruct (IH Hs) as (H1 & H2 & H12).
    apply Forall_app in Hx as [Hx1 Hx2].
    split; [now constructor|]. split; [exact H2|].
    intros a b [<- | Ha] Hb.
    + rewrite Forall_forall in Hx2. now apply Hx2.
    + now apply H12.
Qed.

(** The ledger of a completed run is chronological. *)
Lemma run_Chron (p : BacktestParams) (data : list Row)
      (st : BacktestNode) (res : BacktestResults) :
  run p data = Ok (st, res) ->
  StronglySorted Z.le (ledger_times (res_trades res)).
Proof.
  intro Hrun.
  pose proof (run_Inv _ _ _ _ Hrun) as [_ Hnone].
  pose proof (merge_sorted data) as Hsorted.
  apply run_Ok in Hrun as (_ & st_n & Hloop & Hfin & Hm).
  apply metrics_Ok in Hm as (-> & _).
  set (m := _merge_signals_and_prices data) in *. clearbody m.
  assert (HIn : Inv p st_n)
    by (eapply run_loop_Inv; [apply init_Inv | exact Hloop]).
  assert (Hst : StronglySorted Z.le (state_times st)).
  { destruct m as [|r0 m0].
    { cbn in Hloop. inv_Ok Hloop. cbn in Hfin. inv_Ok Hfin. constructor. }
    assert (Hge : Forall (fun r => (timestamp r0 <= timestamp r)%Z) (r0 :: m0)).
    { inversion Hsorted as [|? ? _ Hall]; subst.
      constructor; [lia | exact Hall]. }
    assert (Hc0 : Chron (timestamp r0) (init_node p))
      by (split; constructor).
    pose proof (run_loop_Chron p _ Hsorted _ _ _ Hge (init_Inv p) Hc0 Hloop)
      as [Hs Hb].
    unfold close_remaining in Hfin.
    destruct (current_position st_n) as [q|] eqn:Eq; [|now inv_Ok Hfin].
    destruct (inv_position _ _ HIn q Eq) as (_ & Hside & _).
    destruct (rev (r0 :: m0)) as [|last rest] eqn:Er; [discriminate|].
    assert (Hm : r0 :: m0 = rev rest ++ [last]).
    { rewrite <- (rev_involutive (r0 :: m0)), Er. reflexivity. }
    rewrite Hm, last_timestamp_snoc in Hb.
    rewrite (close_state_times _ _ _ _ q Eq Hside Hfin).
    apply (Chron_snoc (timestamp last)); [exact Hs | exact Hb | lia]. }
  unfold state_times in Hst. rewrite Hnone, app_nil_r in Hst. exact Hst.
Qed.

(** X7.  Chronology.  In the ledger of a completed run every trade exits no
    earlier than it enters, and each trade is entered no earlier than the
    previous one was exited: the times [entry_1, exit_1, entry_2, exit_2, ...]
    are in ascending order, so positions never overlap. *)
Theorem ledger_is_chronological
        (p : BacktestParams) (data : list Row)
        (st : BacktestNode) (res : BacktestResults) :
  run p data = Ok (st, res) ->
  StronglySorted Z.le (ledger_times (res_trades res)) /\
  (forall t, In t (res_trades res) ->
     exists x, exit_time t = Some x /\ (entry_time t <= x)%Z) /\
  (forall l1 t1 t2 l2,
     res_trades res = l1 ++ t1 :: t2 :: l2 ->
     exists x1, exit_time t1 = Some x1 /\ (x1 <= entry_time t2)%Z).
Proof.
  intro Hrun.
  pose proof (run_Chron _ _ _ _ Hrun) as Hs.
  pose proof (run_Inv _ _ _ _ Hrun) as [HI _].
  assert (Hclosed : forall t, In t (res_trades res) ->
                              exists x, exit_time t = Some x).
  { apply run_Ok in Hrun as (_ & _ & _ & _ & Hm).
    apply metrics_Ok in Hm as (-> & _).
    pose proof (inv_ledger _ _ HI) as Hl. rewrite Forall_forall in Hl.
    intros t Hin.
    destruct (Hl t Hin) as (_ & _ & xp & x & r & ts & _ & _ & _ & Hts & _).
    eauto. }
  split; [exact Hs|]. split.
  - intros t Hin. destruct (Hclosed t Hin) as (x & Hx).
    exists x. split; [exact Hx|].
    apply in_split in Hin as (l1 & l2 & E). rewrite E in Hs.
    unfold ledger_times in Hs. rewrite flat_map_app in Hs. cbn in Hs.
    apply sorted_app_inv in Hs as (_ & Hs & _).
    unfold trade_times in Hs. rewrite Hx in Hs. cbn in Hs.
    inversion Hs as [|? ? _ Hall]; subst.
    inversion Hall; subst. assumption.
  - intros l1 t1 t2 l2 E.
    destruct (Hclosed t1) as (x1 & Hx1).
    { rewrite E. apply in_or_app. right. now left. }
    exists x1. split; [exact Hx1|].
    rewrite E in Hs. unfold ledger_times in Hs.
    rewrite flat_map_app in Hs. cbn [flat_map] in Hs.
    apply sorted_app_inv in Hs as (_ & Hs & _).
    apply sorted_app_inv in Hs as (_ & _ & H12).
    apply H12.
    + unfold trade_times. rewrite Hx1. right. now left.
    + apply in_or_app. left. unfold trade_times.
      destruct (exit_time t2); now left.
Qed.

Lemma ledger_is_chronological_witness :
  exists st res t x,
    run fee_params round_trip = Ok (st, res) /\
    In t (res_trades res) /\
    exit_time t = Some x /\ (entry_time t <= x)%Z /\
    StronglySorted Z.le (ledger_times (res_trades res)).
Proof.
  remember (run fee_params round_trip) as o eqn:E.
  vm_compute in E.
  match type of E with
  | _ = Ok (?st, ?res) =>
      destruct (ledger_is_chronological fee_params round_trip st res)
        as (Hs & Ht & _);
      [ vm_compute; reflexivity
      | match eval cbv in (res_trades res) with
        | ?t :: _ =>
            destruct (Ht t) as (x & Hx & Hle);
            [left; reflexivity | exists st, res, t, x]
        end ]
  end.
  split; [exact E|]. split; [left; reflexivity|]. auto.
Defined.

(** ** Provenance of the trades *)

Lemma step_Prov (p : BacktestParams) (rows : list Row)
      (st st' : BacktestNode) (row : Row) :
  Inv p st -> Prov p rows st -> In row rows ->
  step st row = Ok st' ->
  Prov p rows st'.
Proof.
  intros HI [Hl Hq] Hin H.
  destruct (step_cases _ _ _ _ HI H)
    as (pt & _ & _ & _ & [-> | [(Hnone & sig & Hs & Hpos & Hent) | (q & sig & Hq' & Hside & Hs & Hneg & Hcl)]]).
  - split; assumption.
  - apply enter_fields in Hent
      as (_ & _ & Ht & _ & _ & q & Hq1 & _ & Hep & Het & _).
    split; [rewrite Ht; exact Hl|].
    intros q' E. rewrite Hq1 in E. injection E as <-.
    exists row. split; [exact Hin|].
    unfold entered_on. rewrite Het, Hep. eauto.
  - eapply close_fields in Hcl; [|exact Hq'|exact Hside].
    destruct Hcl as (_ & _ & _ & Hnone & _ & _ & t & Ht & Hxt & Hxp & _ & _ & Hep & _ & Het & _).
    cbn [record_point params] in Hxp. rewrite (inv_params _ _ HI) in Hxp.
    split; [|intros q' E; congruence].
    rewrite Ht. apply Forall_app. split; [exact Hl|].
    constructor; [|constructor].
    destruct (Hq q Hq') as (b_in & Hb & (E1 & E2 & E3)).
    exists b_in, row. split; [exact Hb|]. split; [exact Hin|].
    split; [|split].
    + unfold entered_on. rewrite Het, Hep. auto.
    + split; assumption.
    + exists sig. auto.
Qed.

Lemma run_loop_Prov (p : BacktestParams) (rows data : list Row) :
  (forall r, In r data -> In r rows) ->
  forall st st', Inv p st -> Prov p rows st ->
    run_loop st data = Ok st' -> Prov p rows st'.
Proof.
  induction data as [|r l IH]; intros Hsub st st' HI HP H; cbn in H.
  - now inv_Ok H.
  - inv_bind H. eapply IH; [| | |exact H].
    + intros x Hx. apply Hsub. now right.
    + eapply step_Inv; eassumption.
    + eapply step_Prov; [exact HI | exact HP | | exact Ha].
      apply Hsub. now left.
Qed.

Lemma merge_origin (data : list Row) (b : Row) :
  In b (_merge_signals_and_prices data) ->
  exists b0, In b0 data /\ timestamp b0 = timestamp b /\ close b0 = close b /\
    forall sig, signal b = Some sig -> ~ sig == 0 -> signal b0 = Some sig.
Proof.
  intro Hin. unfold _merge_signals_and_prices in Hin.
  apply (Permutation_in _ (Permutation_sym (sort_values_perm _))) in Hin.
  apply in_map_iff in Hin as (b0 & <- & Hb0).
  exists b0. split; [exact Hb0|]. split; [reflexivity|]. split; [reflexivity|].
  intros sig Hs Hnz. unfold fillna in Hs. cbn in Hs.
  destruct (signal b0) as [s0|]; [exact Hs|].
  injection Hs as <-. exfalso. apply Hnz. reflexivity.
Qed.

(** X8.  Provenance.  Every trade of a completed run was entered on an input
    bar with a positive signal, at that bar's close plus slippage, and exited
    at the close less slippage of an input bar that either carries a negative
    signal or is the last bar of the series (the end-of-period close). *)
Theorem trades_come_from_bars
        (p : BacktestParams) (data : list Row)
        (st : BacktestNode) (res : BacktestResults) (t : Trade) :
  run p data = Ok (st, res) ->
  In t (res_trades res) ->
  exists b_in b_out,
    In b_in data /\ In b_out data /\
    entered_on p b_in t /\ exited_on p b_out t /\
    (sell_bar b_out \/
     forall r, In r data -> (timestamp r <= timestamp b_out)%Z).
Proof.
  intros Hrun Hin.
  pose proof (merge_sorted data) as Hsorted.
  apply run_Ok in Hrun as (_ & st_n & Hloop & Hfin & Hm).
  apply metrics_Ok in Hm as (Ht & _). rewrite Ht in Hin.
  set (m := _merge_signals_and_prices data) in *.
  assert (HIn : Inv p st_n)
    by (eapply run_loop_Inv; [apply init_Inv | exact Hloop]).
  assert (HP0 : Prov p m (init_node p)).
  { split; [constructor | discriminate]. }
  pose proof (run_loop_Prov p m m (fun r H => H) _ _ (init_Inv p) HP0 Hloop)
    as [Hl Hq].
  assert (Hback : forall b u, In b m -> entered_on p b u ->
                   exists b0, In b0 data /\ entered_on p b0 u).
  { intros b u Hb (E1 & E2 & sig & Hs & Hpos).
    destruct (merge_origin data b Hb) as (b0 & Hb0 & Et & Ec & Hsig).
    exists b0. split; [exact Hb0|]. unfold entered_on.
    rewrite Et, Ec. repeat split; try assumption.
    exists sig. split; [|exact Hpos]. apply Hsig; [exact Hs | lra]. }
  assert (Hout : forall b u, In b m -> exited_on p b u ->
                  exists b0, In b0 data /\ exited_on p b0 u /\
                    timestamp b0 = timestamp b /\
                    (sell_bar b -> sell_bar b0)).
  { intros b u Hb (E1 & E2).
    destruct (merge_origin data b Hb) as (b0 & Hb0 & Et & Ec & Hsig).
    exists b0. split; [exact Hb0|]. unfold exited_on.
    rewrite Et, Ec. repeat split; try assumption.
    intros (sig & Hs & Hneg). exists sig. split; [|exact Hneg].
    apply Hsig; [exact Hs | lra]. }
  assert (Hledger : forall u, In u (trades st_n) ->
            exists b_in b_out, In b_in data /\ In b_out data /\
              entered_on p b_in u /\ exited_on p b_out u /\ sell_bar b_out).
  { rewrite Forall_forall in Hl. intros u Hu.
    destruct (Hl u Hu) as (b1 & b2 & H1 & H2 & He & Hx & Hs).
    destruct (Hback b1 u H1 He) as (a1 & Ha1 & He1).
    destruct (Hout b2 u H2 Hx) as (a2 & Ha2 & Hx2 & _ & Hs2).
    exists a1, a2. repeat (split; [assumption|]). now apply Hs2. }
  unfold close_remaining in Hfin.
  destruct (current_position st_n) as [q|] eqn:Eq.
  2:{ inv_Ok Hfin. destruct (Hledger t Hin) as (a1 & a2 & H1 & H2 & H3 & H4 & H5).
      exists a1, a2. repeat (split; [assumption|]). now left. }
  destruct (inv_position _ _ HIn q Eq) as (_ & Hside & _).
  destruct (rev m) as [|last rest] eqn:Er; [discriminate|].
  assert (Hm : m = rev rest ++ [last]).
  { rewrite <- (rev_involutive m), Er. reflexivity. }
  eapply close_fields in Hfin; [|exact Eq|exact Hside].
  destruct Hfin as (_ & _ & _ & _ & _ & _ & u & Hu & Hxt & Hxp & _ & _ & Hep & _ & Het & _).
  rewrite (inv_params _ _ HIn) in Hxp.
  rewrite Hu in Hin. apply in_app_or in Hin as [Hin | [<- | []]].
  { destruct (Hledger t Hin) as (a1 & a2 & H1 & H2 & H3 & H4 & H5).
    exists a1, a2. repeat (split; [assumption|]). now left. }
  destruct (Hq q eq_refl) as (b1 & Hb1 & (E1 & E2 & E3)).
  assert (Hlast : In last m) by (rewrite Hm; apply in_or_app; right; now left).
  destruct (Hback b1 u Hb1) as (a1 & Ha1 & He1).
  { unfold entered_on. rewrite Het, Hep. auto. }
  destruct (Hout last u Hlast) as (a2 & Ha2 & Hx2 & Ets & _).
  { split; assumption. }
  exists a1, a2. split; [exact Ha1|]. split; [exact Ha2|].
  split; [exact He1|]. split; [exact Hx2|]. right.
  intros r Hr. rewrite Ets.
  rewrite Hm in Hsorted. apply sorted_last_max in Hsorted.
  rewrite Forall_forall in Hsorted.
  change (timestamp r) with (timestamp (fillna r)).
  apply (Hsorted (fillna r)). rewrite <- Hm. unfold m, _merge_signals_and_prices.
  eapply Permutation_in; [apply sort_values_perm|]. now apply in_map.
Qed.

Lemma trades_come_from_bars_witness :
  exists st res t b_in b_out,
    run fee_params round_trip = Ok (st, res) /\
    In t (res_trades res) /\
    In b_in round_trip /\ In b_out round_trip /\
    entered_on fee_params b_in t /\ exited_on fee_params b_out t.
Proof.
  remember (run fee_params round_trip) as o eqn:E.
  vm_compute in E.
  match type of E with
  | _ = Ok (?st, ?res) =>
      match eval cbv in (res_trades res) with
      | ?t :: _ =>
          destruct (trades_come_from_bars fee_params round_trip st res t)
            as (b1 & b2 & H1 & H2 & H3 & H4 & _);
          [ vm_compute; reflexivity
          | left; reflexivity
          | exists st, res, t, b1, b2 ]
      end
  end.
  split; [exact E|]. split; [left; reflexivity|]. auto.
Defined.

(** ** Commission and slippage accounting *)

Lemma enter_record (st st' : BacktestNode) (ts : Timestamp) (price : Q) :
  _enter_long_position st ts price = Ok st' ->
  let V := capital st * position_size (params st) in
  ~ price == 0 /\
  trades st' = trades st /\
  stdout st' =
    stdout st ++ [EnteredLong ((V - V * commission (params st)) / price) price] /\
  exists q, current_position st' = Some q /\
    entry_price q = price /\
    quantity q = (V - V * commission (params st)) / price /\
    commission_paid q = V * commission (params st) /\
    slippage_cost q = V * slippage (params st).
Proof.
  intro H. unfold _enter_long_position in H. inv_bind H. inv_Ok H.
  apply py_div_Ok in Ha as [Hnz ->]. cbn.
  split; [assumption|]. split; [reflexivity|]. split; [reflexivity|].
  eexists. repeat split.
Qed.

Lemma close_record (st st' : BacktestNode) (row : Row) (reason : string)
      (q : Trade) :
  current_position st = Some q -> side q = long ->
  _close_position st row reason = Ok st' ->
  current_position st' = None /\
  (exists net ret, stdout st' = stdout st ++ [ClosedPosition net ret reason]) /\
  exists t, trades st' = trades st ++ [t] /\
    entry_price t = entry_price q /\ quantity t = quantity q /\
    slippage_cost t = slippage_cost q /\
    exit_price t = Some (close row * (1 - slippage (params st))) /\
    commission_paid t =
      commission_paid q
      + close row * (1 - slippage (params st)) * quantity q
        * commission (params st) /\
    ~ entry_price q * quantity q == 0.
Proof.
  intros Eq Hside H. unfold _close_position in H.
  rewrite Eq, Hside in H. inv_bind H. inv_Ok H.
  apply py_div_Ok in Ha as [Hnz _]. cbn.
  split; [reflexivity|]. split; [eauto|].
  eexists. repeat split. exact Hnz.
Qed.







(** ** Entries, exits and what is printed *)

Lemma count_entered_app (a b : list Printed) :
  count_entered (a ++ b) = (count_entered a + count_entered b)%nat.
Proof.
  unfold count_entered. now rewrite filter_app, length_app.
Qed.

Lemma step_Tally (p : BacktestParams) (nb ns : nat)
      (st st' : BacktestNode) (row : Row) :
  Inv p st -> Tally nb ns st -> step st row = Ok st' ->
  Tally (nb + Nat.b2n (is_buy row)) (ns + Nat.b2n (is_sell row)) st'.
Proof.
  intros HI (Hc & Hb & Hs & Hp) H.
  destruct (step_cases _ _ _ _ HI H)
    as (pt & _ & _ & _ & [-> | [(Hnone & sig & Hsig & Hpos & Hent) | (q & sig & Hq' & Hside & Hsig & Hneg & Hcl)]]).
  - unfold Tally, live in *. cbn [record_point stdout trades current_position].
    repeat split; try assumption; lia.
  - apply enter_record in Hent as (_ & Ht & Hout & q & Hq1 & _).
    assert (Eb : is_buy row = true)
      by (unfold is_buy; rewrite Hsig; now apply Qgtb_true).
    unfold Tally, live in *. rewrite Hnone in *. rewrite Hq1, Ht, Hout, Eb.
    cbn [record_point stdout trades] in *.
    rewrite count_entered_app. cbn.
    repeat split; try lia.
    apply Forall_app. split; [exact Hp | repeat constructor].
  - eapply close_record in Hcl; [|exact Hq'|exact Hside].
    destruct Hcl as (Hnone & (net & ret & Hout) & t & Ht & _).
    assert (Eb : is_sell row = true)
      by (unfold is_sell; rewrite Hsig; now apply Qltb_true).
    unfold Tally, live in *. rewrite Hq' in *. rewrite Hnone, Ht, Hout, Eb.
    cbn [record_point stdout trades] in *.
    rewrite count_entered_app, length_app. cbn.
    repeat split; try lia.
    apply Forall_app. split; [exact Hp | repeat constructor].
Qed.

Lemma run_loop_Tally (p : BacktestParams) (data : list Row) :
  forall nb ns st st',
    Inv p st -> Tally nb ns st -> run_loop st data = Ok st' ->
    Tally (nb + count_rows is_buy data) (ns + count_rows is_sell data) st'.
Proof.
  induction data as [|r l IH]; intros nb ns st st' HI HT H; cbn in H.
  - inv_Ok H. unfold count_rows. cbn. now rewrite !Nat.add_0_r.
  - inv_bind H.
    pose proof (IH _ _ _ _ (step_Inv _ _ _ _ HI Ha)
                   (step_Tally _ _ _ _ _ _ HI HT Ha) H) as HT'.
    unfold count_rows in *. cbn [filter].
    destruct (is_buy r), (is_sell r); cbn [Nat.b2n List.length] in *;
      rewrite ?Nat.add_0_r, <- ?Nat.add_assoc in HT';
      rewrite <- ?plus_n_Sm in *; cbn in HT'; exact HT' || idtac.
    all: try (rewrite ?Nat.add_1_r in HT'; exact HT').
Qed.

Lemma perm_filter_length {A : Type} (f : A -> bool) (l l' : list A) :
  Permutation l l' -> List.length (filter f l) = List.length (filter f l').
Proof.
  induction 1 as [|x l l' _ IH|x y l|l l' l'' _ IH1 _ IH2]; cbn.
  - reflexivity.
  - destruct (f x); cbn; now rewrite IH.
  - destruct (f x), (f y); reflexivity.
  - now rewrite IH1.
Qed.

Lemma merge_count (f : Row -> bool) (data : list Row) :
  (forall r, f (fillna r) = f r) ->
  count_rows f (_merge_signals_and_prices data) = count_rows f data.
Proof.
  intro Hf. unfold count_rows, _merge_signals_and_prices.
  rewrite <- (perm_filter_length f _ _ (sort_values_perm (map fillna data))).
  induction data as [|r l IH]; cbn; [reflexivity|].
  rewrite Hf. destruct (f r); cbn; now rewrite IH.
Qed.

Lemma is_buy_fillna (r : Row) : is_buy (fillna r) = is_buy r.
Proof.
  unfold is_buy, fillna. cbn. destruct (signal r); reflexivity.
Qed.

Lemma is_sell_fillna (r : Row) : is_sell (fillna r) = is_sell r.
Proof.
  unfold is_sell, fillna. cbn. destruct (signal r); reflexivity.
Qed.

(** The tally at the end of a completed run. *)
Lemma run_Tally (p : BacktestParams) (data : list Row)
      (st : BacktestNode) (res : BacktestResults) :
  run p data = Ok (st, res) ->
  count_entered (stdout st) = List.length (trades st) /\
  (List.length (trades st) <= count_rows is_buy data)%nat /\
  (List.length (trades st) <= count_rows is_sell data + 1)%nat /\
  forall net ret reason,
    In (ClosedPosition net ret reason) (stdout st) ->
    reason = "signal_exit"%string \/ reason = "end_of_period"%string.
Proof.
  intro Hrun.
  apply run_Ok in Hrun as (_ & st_n & Hloop & Hfin & _).
  assert (HIn : Inv p st_n)
    by (eapply run_loop_Inv; [apply init_Inv | exact Hloop]).
  assert (HT0 : Tally 0 0 (init_node p)).
  { unfold Tally, live. cbn. repeat split; try lia. constructor. }
  pose proof (run_loop_Tally p _ _ _ _ _ (init_Inv p) HT0 Hloop)
    as (Hc & Hb & Hs & Hp).
  cbn [Nat.add] in Hb, Hs.
  rewrite (merge_count _ _ is_buy_fillna) in Hb.
  rewrite (merge_count _ _ is_sell_fillna) in Hs.
  assert (Hreason : forall out net ret reason,
             Forall exit_printed out ->
             In (ClosedPosition net ret reason) out ->
             reason = "signal_exit"%string).
  { intros out net ret reason Hall Hin. rewrite Forall_forall in Hall.
    exact (Hall _ Hin). }
  unfold close_remaining in Hfin. unfold live in *.
  destruct (current_position st_n) as [q|] eqn:Eq.
  - destruct (inv_position _ _ HIn q Eq) as (_ & Hside & _).
    destruct (rev (_merge_signals_and_prices data)); [discriminate|].
    eapply close_record in Hfin; [|exact Eq|exact Hside].
    destruct Hfin as (_ & (net & ret & Hout) & t & Ht & _).
    rewrite Ht, Hout, count_entered_app, length_app. cbn.
    repeat split; try lia.
    intros net' ret' reason Hin. apply in_app_or in Hin as [Hin | [E | []]].
    + left. eapply Hreason; eassumption.
    + right. congruence.
  - inv_Ok Hfin. repeat split; try lia.
    intros net ret reason Hin. left. eapply Hreason; eassumption.
Qed.

(** X10.  Long only.  A completed run leaves no live position; every trade
    it reports is a closed long trade; every position the engine printed as
    entered is in the ledger; and the only reasons ever printed for a close
    are ["signal_exit"] and ["end_of_period"] (never ["signal_reversal"]:
    the short branch is not reached). *)
Theorem long_only_ledger
        (p : BacktestParams) (data : list Row)
        (st : BacktestNode) (res : BacktestResults) :
  run p data = Ok (st, res) ->
  current_position st = None /\
  Forall (fun t => side t = long /\ status t = status_closed)
         (res_trades res) /\
  count_entered (stdout st) = num_trades res /\
  forall net ret reason,
    In (ClosedPosition net ret reason) (stdout st) ->
    reason = "signal_exit"%string \/ reason = "end_of_period"%string.
Proof.
  intro Hrun.
  pose proof (run_Inv _ _ _ _ Hrun) as [HI Hnone].
  pose proof (run_Tally _ _ _ _ Hrun) as (Hc & _ & _ & Hr).
  apply run_Ok in Hrun as (_ & _ & _ & _ & Hm).
  apply metrics_Ok in Hm as (Ht & _ & _ & _ & Hn & _).
  split; [exact Hnone|]. split.
  - rewrite Ht. eapply Forall_impl; [|exact (inv_ledger _ _ HI)].
    intros t (Hs & Hside & _). auto.
  - split; [congruence | exact Hr].
Qed.

Lemma long_only_ledger_witness :
  exists st res,
    run fee_params buy_and_hold = Ok (st, res) /\
    current_position st = None /\
    Forall (fun t => side t = long /\ status t = status_closed)
           (res_trades res) /\
    count_entered (stdout st) = num_trades res.
Proof.
  remember (run fee_params buy_and_hold) as o eqn:E.
  vm_compute in E.
  match type of E with
  | _ = Ok (?st, ?res) =>
      destruct (long_only_ledger fee_params buy_and_hold st res)
        as (H1 & H2 & H3 & _);
      [vm_compute; reflexivity | exists st, res]
  end.
  split; [exact E|]. auto.
Defined.

Lemma step_progress (p : BacktestParams) (st st' : BacktestNode) (row : Row) :
  Inv p st -> step st row = Ok st' ->
  (List.length (trades st) + live st
   <= List.length (trades st') + live st')%nat /\
  (is_buy row = true -> (0 < List.length (trades st') + live st')%nat).
Proof.
  intros HI H. split.
  - destruct (step_cases _ _ _ _ HI H)
      as (pt & _ & _ & _ & [-> | [(Hnone & sig & _ & _ & Hent) | (q & sig & Hq' & Hside & _ & _ & Hcl)]]).
    + unfold live. cbn. lia.
    + apply enter_record in Hent as (_ & Ht & _ & q & Hq1 & _).
      unfold live. rewrite Hnone, Hq1, Ht. cbn. lia.
    + eapply close_record in Hcl; [|exact Hq'|exact Hside].
      destruct Hcl as (Hnone & _ & t & Ht & _).
      unfold live. rewrite Hq', Hnone, Ht, length_app. cbn. lia.
  - intro Eb. unfold is_buy in Eb.
    destruct (signal row) as [sig|] eqn:Es; [|discriminate].
    apply Qgtb_true in Eb.
    destruct (step_buy_live p st st' row sig HI Es Eb H) as (q & Hq).
    unfold live. rewrite Hq. lia.
Qed.

Lemma run_loop_progress (p : BacktestParams) (data : list Row) :
  forall st st', Inv p st -> run_loop st data = Ok st' ->
    (List.length (trades st) + live st
     <= List.length (trades st') + live st')%nat /\
    ((0 < count_rows is_buy data)%nat ->
     (0 < List.length (trades st') + live st')%nat).
Proof.
  induction data as [|r l IH]; intros st st' HI H; cbn in H.
  - inv_Ok H. split; [lia|]. unfold count_rows. cbn. lia.
  - inv_bind H.
    destruct (step_progress _ _ _ _ HI Ha) as [H1 H2].
    destruct (IH _ _ (step_Inv _ _ _ _ HI Ha) H) as [H3 H4].
    split; [lia|]. unfold count_rows in *. cbn [filter].
    destruct (is_buy r); cbn [List.length]; intro Hb.
    + specialize (H2 eq_refl). lia.
    + auto.
Qed.

(** X11.  The number of trades is bounded by the signals: at most one trade
    per bar with a positive signal, at most one more than the bars with a
    negative signal, and at least one as soon as some bar has a positive
    signal. *)
Theorem trade_count_bounds
        (p : BacktestParams) (data : list Row)
        (st : BacktestNode) (res : BacktestResults) :
  run p data = Ok (st, res) ->
  (num_trades res <= count_rows is_buy data)%nat /\
  (num_trades res <= count_rows is_sell data + 1)%nat /\
  ((0 < count_rows is_buy data)%nat -> (0 < num_trades res)%nat).
Proof.
  intro Hrun.
  pose proof (run_Inv _ _ _ _ Hrun) as [_ Hnone].
  pose proof (run_Tally _ _ _ _ Hrun) as (_ & Hb & Hs & _).
  apply run_Ok in Hrun as (_ & st_n & Hloop & Hfin & Hm).
  apply metrics_Ok in Hm as (_ & _ & _ & _ & Hn & _).
  rewrite Hn. split; [exact Hb|]. split; [exact Hs|].
  intro Hbuy. rewrite <- (merge_count _ _ is_buy_fillna) in Hbuy.
  assert (HIn : Inv p st_n)
    by (eapply run_loop_Inv; [apply init_Inv | exact Hloop]).
  destruct (run_loop_progress p _ _ _ (init_Inv p) Hloop) as [_ Hp].
  specialize (Hp Hbuy).
  unfold close_remaining in Hfin. unfold live in Hp.
  destruct (current_position st_n) as [q|] eqn:Eq.
  - destruct (inv_position _ _ HIn q Eq) as (_ & Hside & _).
    destruct (rev (_merge_signals_and_prices data)); [discriminate|].
    eapply close_record in Hfin; [|exact Eq|exact Hside].
    destruct Hfin as (_ & _ & t & Ht & _).
    rewrite Ht, length_app. cbn. lia.
  - inv_Ok Hfin. lia.
Qed.

Lemma trade_count_bounds_witness :
  exists st res,
    run fee_params round_trip = Ok (st, res) /\
    (num_trades res <= count_rows is_buy round_trip)%nat /\
    (num_trades res <= count_rows is_sell round_trip + 1)%nat /\
    (0 < num_trades res)%nat.
Proof.
  remember (run fee_params round_trip) as o eqn:E.
  vm_compute in E.
  match type of E with
  | _ = Ok (?st, ?res) =>
      destruct (trade_count_bounds fee_params round_trip st res)
        as (H1 & H2 & H3);
      [vm_compute; reflexivity | exists st, res]
  end.
  split; [exact E|]. split; [exact H1|]. split; [exact H2|].
  apply H3. vm_compute. lia.
Defined.



(** ** The order of the input rows *)

Lemma sorted_perm_unique (l1 : list Row) :
  forall l2,
    StronglySorted ts_le l1 -> StronglySorted ts_le l2 ->
    Permutation l1 l2 -> NoDup (map timestamp l1) ->
    l1 = l2.
Proof.
  induction l1 as [|a l1 IH]; intros l2 H1 H2 Hp Hnd.
  - apply Permutation_nil in Hp. now subst.
  - destruct l2 as [|b l2].
    { apply Permutation_sym, Permutation_nil in Hp. discriminate. }
    inversion H1 as [|? ? Hs1 Ha]; subst.
    inversion H2 as [|? ? Hs2 Hb]; subst.
    inversion Hnd as [|? ? Hnotin Hnd']; subst.
    assert (a = b).
    { assert (Hina : In a (b :: l2))
        by (eapply Permutation_in; [exact Hp | now left]).
      assert (Hinb : In b (a :: l1))
        by (eapply Permutation_in; [apply Permutation_sym; exact Hp | now left]).
      destruct Hina as [E | Hina]; [now subst|].
      destruct Hinb as [E | Hinb]; [now subst|].
      exfalso. rewrite Forall_forall in Ha, Hb.
      pose proof (Ha b Hinb) as Hab. pose proof (Hb a Hina) as Hba.
      unfold ts_le in *. apply Hnotin.
      replace (timestamp a) with (timestamp b) by lia.
      now apply in_map. }
    subst b. f_equal.
    apply IH; try assumption. eapply Permutation_cons_inv; exact Hp.
Qed.

Lemma merge_perm_eq (data data' : list Row) :
  Permutation data data' -> NoDup (map timestamp data) ->
  _merge_signals_and_prices data = _merge_signals_and_prices data'.
Proof.
  intros Hp Hnd. apply sorted_perm_unique.
  - apply merge_sorted.
  - apply merge_sorted.
  - unfold _merge_signals_and_prices.
    eapply perm_trans; [apply Permutation_sym, sort_values_perm|].
    eapply perm_trans; [|apply sort_values_perm].
    now apply Permutation_map.
  - eapply Permutation_NoDup; [apply merge_timestamps | exact Hnd].
Qed.

(** X13.  When the timestamps are pairwise distinct, the order in which the
    rows are supplied does not matter: any rearrangement of the input gives
    the same outcome, ledger, equity curve and metrics included. *)
Theorem run_ignores_input_order
        (p : BacktestParams) (data data' : list Row) :
  Permutation data data' -> NoDup (map timestamp data) ->
  run p data = run p data'.
Proof.
  intros Hp Hnd. unfold run.
  rewrite (merge_perm_eq data data' Hp Hnd). reflexivity.
Qed.

Lemma run_ignores_input_order_witness :
  run fee_params round_trip = run fee_params round_trip_reversed.
Proof.
  apply run_ignores_input_order.
  - apply perm_swap.
  - repeat constructor; cbn; intuition discriminate.
Defined.

(** ** Parameters *)

(** X14.  The parameters are accepted exactly when the initial capital is
    positive, commission and slippage are non-negative and the position size
    is in (0, 1]; refused parameters make every run fail with the validation
    error, whatever the data. *)
Theorem validation_accepts_exactly (p : BacktestParams) :
  (validate_params p = Ok p <-> acceptable p) /\
  (forall e data, validate_params p = Err e -> run p data = Err e) /\
  (~ acceptable p -> exists e, validate_params p = Err e).
Proof.
  assert (Hiff : validate_params p = Ok p <-> acceptable p).
  { split.
    - intro H. apply validate_params_Ok in H. unfold acceptable. tauto.
    - intros (H1 & H2 & H3 & H4 & H5).
      unfold validate_params, validate_initial_capital, validate_fees,
        validate_position_size.
      apply Qle_bool_false in H1, H4.
      apply Qltb_false in H2, H3. apply Qgtb_false in H5.
      rewrite H1, H2, H3, H4, H5. reflexivity. }
  split; [exact Hiff|]. split.
  - intros e data H. unfold run. rewrite H. reflexivity.
  - intro Hn. destruct (validate_params p) as [p'|e] eqn:E; [|eauto].
    exfalso. apply Hn.
    destruct (validate_params_Ok _ _ E) as [_ H]. unfold acceptable. tauto.
Qed.

Lemma validation_accepts_exactly_witness :
  validate_params fee_params = Ok fee_params /\
  exists e, validate_params negative_fee_params = Err e /\
            run negative_fee_params round_trip = Err e.
Proof.
  split.
  - apply (proj1 (validation_accepts_exactly fee_params)).
    unfold acceptable. cbn. repeat split; lra.
  - destruct (validation_accepts_exactly negative_fee_params)
      as (_ & Hrun & Hrej).
    destruct Hrej as (e & He).
    + unfold acceptable. cbn. intros (_ & H & _). lra.
    + exists e. split; [exact He|]. now apply Hrun.
Defined.

(** ** A constant price without fees *)

Lemma close_returns (st st' : BacktestNode) (row : Row) (reason : string)
      (q : Trade) :
  current_position st = Some q -> side q = long ->
  _close_position st row reason = Ok st' ->
  let xp := close row * (1 - slippage (params st)) in
  let net := (xp - entry_price q) * quantity q
             - xp * quantity q * commission (params st) in
  current_position st' = None /\
  equity_curve st' = equity_curve st /\
  capital st' = capital st + net /\
  exists t, trades st' = trades st ++ [t] /\
    pnl t = Some net /\
    return_pct t = Some (net / (entry_price q * quantity q)).
Proof.
  intros Eq Hside H. unfold _close_position in H.
  rewrite Eq, Hside in H. inv_bind H. inv_Ok H.
  apply py_div_Ok in Ha as [_ ->]. cbn.
  repeat split. eexists. repeat split.
Qed.

Section ConstantPrice.

Variable p : BacktestParams.
Variable k : Q.
Hypothesis no_commission : commission p == 0.
Hypothesis no_slippage : slippage p == 0.

Lemma close_Flatline (st st' : BacktestNode) (row : Row) (reason : string)
      (q : Trade) :
  params st = p -> current_position st = Some q -> side q = long ->
  close row == k -> Flatline p k st ->
  _close_position st row reason = Ok st' -> Flatline p k st'.
Proof.
  intros Hp Hq Hside Hk (Hcap & Hent & Hl & Hc) H.
  eapply close_returns in H; [|exact Hq|exact Hside].
  destruct H as (Hnone & Hcurve & Hcap' & t & Ht & Hpnl & Hret).
  rewrite Hp in *.
  assert (Hnet : (close row * (1 - slippage p) - entry_price q) * quantity q
                 - close row * (1 - slippage p) * quantity q * commission p
                 == 0).
  { rewrite no_commission, no_slippage, Hk, (Hent q Hq). ring. }
  split; [|split; [|split]].
  - rewrite Hcap', Hnet, Hcap. ring.
  - intros q' E. congruence.
  - rewrite Ht. apply Forall_app. split; [exact Hl|].
    constructor; [|constructor].
    unfold pnl_value, return_value. rewrite Hpnl, Hret.
    split; [exact Hnet|]. rewrite Hnet. unfold Qdiv. ring.
  - rewrite Hcurve. exact Hc.
Qed.

Lemma step_Flatline (st st' : BacktestNode) (row : Row) :
  Inv p st -> close row == k -> Flatline p k st ->
  step st row = Ok st' -> Flatline p k st'.
Proof.
  intros HI Hk (Hcap & Hent & Hl & Hc) H.
  assert (Heq : _calculate_current_equity st row == initial_capital p).
  { unfold _calculate_current_equity.
    destruct (current_position st) as [q|] eqn:Eq; [|exact Hcap].
    destruct (inv_position _ _ HI q Eq) as (_ & -> & _).
    rewrite Hk, (Hent q eq_refl), Hcap. ring. }
  assert (Hrec : forall pt, equity pt = _calculate_current_equity st row ->
                   Flatline p k (record_point st pt)).
  { intros pt Hpt. split; [exact Hcap|]. split; [exact Hent|].
    split; [exact Hl|]. cbn [record_point equity_curve].
    apply Forall_app. split; [exact Hc|].
    constructor; [|constructor]. now rewrite Hpt. }
  destruct (step_cases _ _ _ _ HI H)
    as (pt & Hpt & _ & _ & [-> | [(Hnone & sig & _ & _ & Hent') | (q & sig & Hq' & Hside & _ & _ & Hcl)]]).
  - now apply Hrec.
  - destruct (Hrec pt Hpt) as (Hcap1 & _ & Hl1 & Hc1).
    pose proof Hent' as Hent''.
    apply enter_fields in Hent'
      as (_ & Hcurve & Ht & _ & Hcap' & q & Hq & _ & Hep & _).
    cbn [record_point capital params] in Hcap'.
    rewrite (inv_params _ _ HI) in Hcap'.
    split; [|split; [|split]].
    + rewrite Hcap', no_commission, Hcap. ring.
    + intros q' E. rewrite Hq in E. injection E as <-.
      rewrite Hep, no_slippage, Hk. ring.
    + rewrite Ht. exact Hl1.
    + rewrite Hcurve. exact Hc1.
  - eapply (close_Flatline (record_point st pt)); [| | | | |exact Hcl].
    + exact (inv_params _ _ HI).
    + exact Hq'.
    + exact Hside.
    + exact Hk.
    + now apply Hrec.
Qed.

Lemma run_loop_Flatline (data : list Row) :
  Forall (fun r => close r == k) data ->
  forall st st', Inv p st -> Flatline p k st ->
    run_loop st data = Ok st' -> Flatline p k st'.
Proof.
  induction 1 as [|r l Hr _ IH]; intros st st' HI HF H; cbn in H.
  - now inv_Ok H.
  - inv_bind H. eapply IH; [| |exact H].
    + eapply step_Inv; eassumption.
    + eapply step_Flatline; eassumption.
Qed.

End ConstantPrice.

Lemma peak_drawdowns_flat (C : Q) (l : list Q) :
  forall m, m == C -> Forall (fun e => e == C) l ->
    Forall (fun d => d <= 0) (peak_drawdowns m l).
Proof.
  induction l as [|e l IH]; intros m Hm Hl; cbn [peak_drawdowns].
  - constructor.
  - inversion Hl as [|? ? He Hl']; subst.
    assert (Hm' : max_step m e == C)
      by (destruct (max_step_cases m e) as [[-> _] | [-> _]]; assumption).
    constructor; [|now apply IH].
    assert (E : max_step m e - e == 0) by (rewrite Hm', He; ring).
    unfold Qdiv. rewrite E. lra.
Qed.

Lemma metrics_total_return (st : BacktestNode) (data : list Row)
      (res : BacktestResults) :
  _calculate_performance_metrics st data = Ok res ->
  total_return res
  = (final_capital res - initial_capital (params st))
    / initial_capital (params st).
Proof.
  intro H. unfold _calculate_performance_metrics in H.
  inv_bind H. inv_bind H. apply py_div_Ok in Ha0 as [_ ->].
  inv_bind H. inv_Ok H. reflexivity.
Qed.

(** X15.  With commission 0 and slippage 0, a series whose close never moves
    leaves the account untouched: every trade has [pnl] 0 and [return_pct] 0,
    every equity point, the final capital and the engine's capital equal the
    initial capital, and total return and maximum drawdown are 0. *)
Theorem flat_market_is_neutral
        (p : BacktestParams) (k : Q) (data : list Row)
        (st : BacktestNode) (res : BacktestResults) :
  commission p == 0 -> slippage p == 0 ->
  Forall (fun r => close r == k) data ->
  run p data = Ok (st, res) ->
  Forall (fun t => pnl_value t == 0 /\ return_value t == 0) (res_trades res) /\
  Forall (fun pt => equity pt == initial_capital p) (res_equity_curve res) /\
  final_capital res == initial_capital p /\
  capital st == initial_capital p /\
  total_return res == 0 /\ max_drawdown res == 0.
Proof.
  intros Hc Hs Hk Hrun.
  destruct (run_curve_shape _ _ _ _ Hrun) as (rest & _ & Heq & _ & Hmd & _).
  pose proof Hrun as Hrun'.
  apply run_Ok in Hrun as (_ & st_n & Hloop & Hfin & Hm).
  pose proof (metrics_total_return _ _ _ Hm) as Htr.
  apply metrics_Ok in Hm as (Ht & Hcu & Hlast & _).
  assert (Hkm : Forall (fun r => close r == k) (_merge_signals_and_prices data)).
  { unfold _merge_signals_and_prices.
    eapply Permutation_Forall; [apply sort_values_perm|].
    rewrite Forall_map. exact Hk. }
  assert (HIn : Inv p st_n)
    by (eapply run_loop_Inv; [apply init_Inv | exact Hloop]).
  assert (HF0 : Flatline p k (init_node p)).
  { split; [reflexivity|]. split; [discriminate|]. split; constructor. }
  pose proof (run_loop_Flatline p k Hc Hs _ Hkm _ _ (init_Inv p) HF0 Hloop) as HFn.
  assert (HF : Flatline p k st).
  { unfold close_remaining in Hfin.
    destruct (current_position st_n) as [q|] eqn:Eq; [|now inv_Ok Hfin].
    destruct (inv_position _ _ HIn q Eq) as (_ & Hside & _).
    destruct (rev (_merge_signals_and_prices data)) as [|last rest'] eqn:Er;
      [discriminate|].
    eapply (close_Flatline p k Hc Hs st_n st last); try eassumption.
    - exact (inv_params _ _ HIn).
    - rewrite Forall_forall in Hkm. apply Hkm. apply in_rev.
      rewrite Er. now left. }
  destruct HF as (Hcap & _ & Hl & Hcurve).
  assert (Hfc : final_capital res == initial_capital p).
  { unfold last_equity in Hlast.
    destruct (rev (equity_curve st)) as [|pt c] eqn:Er; [discriminate|].
    injection Hlast as <-. rewrite Forall_forall in Hcurve.
    apply Hcurve. apply in_rev. rewrite Er. now left. }
  rewrite Ht, Hcu.
  split; [exact Hl|]. split; [exact Hcurve|]. split; [exact Hfc|].
  split; [exact Hcap|]. split.
  - rewrite Htr, (inv_params _ _ (proj1 (run_Inv _ _ _ _ Hrun'))), Hfc.
    unfold Qdiv. ring.
  - rewrite Hmd.
    assert (Hrest : Forall (fun e => e == initial_capital p) rest).
    { assert (Hall : Forall (fun e => e == initial_capital p)
                            (map equity (res_equity_curve res)))
        by (rewrite Hcu, Forall_map; exact Hcurve).
      rewrite Heq in Hall. now inversion Hall. }
    rewrite (fold_max_dominated _ 0
               (peak_drawdowns_flat _ rest _ (Qeq_refl _) Hrest)).
    reflexivity.
Qed.

Lemma flat_market_is_neutral_witness :
  exists st res,
    run free_params flat_market = Ok (st, res) /\
    num_trades res = 1%nat /\
    Forall (fun t => pnl_value t == 0 /\ return_value t == 0)
           (res_trades res) /\
    final_capital res == initial_capital free_params /\
    total_return res == 0 /\ max_drawdown res == 0.
Proof.
  remember (run free_params flat_market) as o eqn:E.
  vm_compute in E.
  match type of E with
  | _ = Ok (?st, ?res) =>
      destruct (flat_market_is_neutral free_params 50 flat_market st res)
        as (H1 & _ & H3 & _ & H5 & H6);
      [ reflexivity | reflexivity | repeat constructor
      | vm_compute; reflexivity | exists st, res ]
  end.
  split; [exact E|]. split; [reflexivity|]. auto.
Defined.

(** ** Consistency of the trade statistics *)

Lemma select_trades_length (test : Q -> bool) (l : list Trade) :
  forall sel, select_trades test l = Ok sel ->
    (List.length sel <= List.length l)%nat.
Proof.
  induction l as [|t l IH]; intros sel H; cbn in H.
  - inv_Ok H. cbn. lia.
  - inv_bind H. inv_bind H. inv_Ok H.
    specialize (IH _ Ha0). destruct (test a); cbn; lia.
Qed.

Lemma total_nonneg (l : list Trade) :
  Forall (fun t => 0 <= pnl_value t) l -> 0 <= total pnl_value l.
Proof.
  induction 1 as [|t l Ht _ IH]; cbn.
  - lra.
  - fold (total pnl_value l). lra.
Qed.

Lemma len_nonneg {A : Type} (l : list A) : 0 <= len l.
Proof.
  unfold len. change 0 with (inject_Z 0). rewrite <- Zle_Qle. lia.
Qed.

Lemma len_le {A B : Type} (l : list A) (l' : list B) :
  (List.length l <= List.length l')%nat -> len l <= len l'.
Proof.
  intro H. unfold len. rewrite <- Zle_Qle. lia.
Qed.

(** What the statistics of a non-empty ledger of sealed trades are. *)
Lemma trade_statistics_values (t0 : Trade) (l : list Trade) (stats : TradeStats) :
  Forall recorded (t0 :: l) ->
  trade_statistics (t0 :: l) = Ok stats ->
  exists winners,
    select_trades (fun x => Qgtb x 0) (t0 :: l) = Ok winners /\
    ts_win_rate stats = len winners / len (t0 :: l) /\
    0 <= ts_profit_factor stats /\
    ts_avg_trade_return stats * len (t0 :: l)
    == total return_value (t0 :: l).
Proof.
  intros Hrec Hst.
  destruct (trade_statistics_Ok t0 l Hrec)
    as (w & lo & vw & vl & stats' & Hw & Hl & _ & _ & Evw & _ & Hst' & Hwr & Hpf).
  rewrite Hst in Hst'. injection Hst' as <-.
  exists w. split; [exact Hw|]. split; [exact Hwr|].
  pose proof (len_cons_nonzero t0 l) as Hnz.
  split.
  - rewrite Hpf. cbn zeta.
    assert (Hwins : 0 <= match w with [] => 0 | _ :: _ => vw end).
    { destruct w as [|w0 w']; [lra|]. rewrite Evw. apply total_nonneg.
      destruct (select_trades_spec (fun x => Qgtb x 0) _ Hrec)
        as (w2 & Hw2 & _ & Hin).
      rewrite Hw in Hw2. injection Hw2 as <-.
      rewrite Forall_forall. intros t Ht. apply Hin in Ht as [_ Ht].
      apply Qgtb_true in Ht. lra. }
    destruct (Qgtb _ 0) eqn:Eg; [|lra].
    apply Qgtb_true in Eg. apply Qle_shift_div_l; [exact Eg | lra].
  - unfold trade_statistics in Hst. rewrite Hw, Hl in Hst. cbn [bind] in Hst.
    inv_bind Hst. inv_bind Hst. inv_bind Hst. inv_bind Hst. inv_bind Hst.
    inv_bind Hst. inv_Ok Hst. cbn [ts_avg_trade_return].
    apply py_div_Ok in Ha4 as [_ ->].
    destruct (py_sum_from_recorded_return _ Hrec 0) as (vr & Hvr & Evr).
    fold (py_sum return_pct_of (t0 :: l)) in Hvr.
    rewrite Hvr in Ha3. injection Ha3 as <-.
    rewrite Evr. field. exact Hnz.
Qed.

(** X16.  The trade statistics of a completed run are consistent with its
    ledger: [num_trades] is the length of the ledger, [win_rate] is the share
    of trades with positive [pnl] and lies in [0, 1], [profit_factor] is never
    negative, [avg_trade_return] times the number of trades is the sum of the
    [return_pct], and [total_return] is the relative change of
    [final_capital] against the initial capital. *)
Theorem trade_statistics_consistent
        (p : BacktestParams) (data : list Row)
        (st : BacktestNode) (res : BacktestResults) :
  run p data = Ok (st, res) ->
  num_trades res = List.length (res_trades res) /\
  0 <= win_rate res /\ win_rate res <= 1 /\
  0 <= profit_factor res /\
  avg_trade_return res * len (res_trades res)
  == total return_value (res_trades res) /\
  (exists winners,
     select_trades (fun x => Qgtb x 0) (res_trades res) = Ok winners /\
     win_rate res * len (res_trades res) == len winners) /\
  total_return res
  = (final_capital res - initial_capital p) / initial_capital p.
Proof.
  intro Hrun.
  pose proof (run_ledger_recorded _ _ _ _ Hrun) as Hrec.
  pose proof (run_Inv _ _ _ _ Hrun) as [HI _].
  apply run_Ok in Hrun as (_ & _ & _ & _ & Hm).
  pose proof (metrics_total_return _ _ _ Hm) as Htr.
  rewrite (inv_params _ _ HI) in Htr.
  apply metrics_Ok in Hm as (Ht & _ & _ & _ & Hn & stats & Hst & Hwr & Hpf & Havg).
  rewrite Ht in *. rewrite Hwr, Hpf, Havg.
  split; [exact Hn|].
  destruct (trades st) as [|t0 l] eqn:Et.
  - cbn in Hst. injection Hst as <-. cbn.
    do 3 (split; [lra|]). split; [reflexivity|].
    split; [|exact Htr].
    exists []. split; reflexivity.
  - destruct (trade_statistics_values t0 l stats Hrec Hst)
      as (w & Hw & Ewr & Hpf0 & Eavg).
    pose proof (len_cons_nonzero t0 l) as Hnz.
    pose proof (len_nonneg (t0 :: l)) as Hn0.
    pose proof (len_nonneg w) as Hw0.
    pose proof (len_le w (t0 :: l) (select_trades_length _ _ _ Hw)) as Hwl.
    assert (Hpos : 0 < len (t0 :: l)) by lra.
    rewrite Ewr.
    split; [apply Qle_shift_div_l; lra|].
    split; [apply Qle_shift_div_r; lra|].
    split; [exact Hpf0|]. split; [exact Eavg|]. split; [|exact Htr].
    exists w. split; [exact Hw|]. field. exact Hnz.
Qed.

Lemma trade_statistics_consistent_witness :
  exists st res,
    run fee_params round_trip = Ok (st, res) /\
    num_trades res = List.length (res_trades res) /\
    0 <= win_rate res /\ win_rate res <= 1 /\ 0 <= profit_factor res.
Proof.
  remember (run fee_params round_trip) as o eqn:E.
  vm_compute in E.
  match type of E with
  | _ = Ok (?st, ?res) =>
      destruct (trade_statistics_consistent fee_params round_trip st res)
        as (H1 & H2 & H3 & H4 & _);
      [vm_compute; reflexivity | exists st, res]
  end.
  split; [exact E|]. auto.
Defined.

(** * The input adapter *)

Lemma extract_loop_passed_over (pre : list (string * InputValue)) :
  Forall (fun kv => no_prices (snd kv)) pre ->
  forall rest c, extract_loop (pre ++ rest) c = extract_loop rest c.
Proof.
  induction 1 as [|[n v] pre Hv _ IH]; intros rest c; cbn [app extract_loop].
  - reflexivity.
  - cbn [snd] in Hv. unfold no_prices in Hv.
    destruct v as [|[ty|] data]; try apply IH.
    destruct (String.eqb ty "dataframe") eqn:E; [|apply IH].
    destruct (Hv eq_refl) as (df & -> & Ho).
    rewrite Ho. cbn [obind andb]. apply IH.
Qed.

Lemma extract_loop_chooses (pre : list (string * InputValue)) :
  Forall (fun kv => passed_over (snd kv)) pre ->
  forall n df post c,
    _is_ohlcv_data df = Returned true -> has_label "signal" df = true ->
    extract_loop (pre ++ (n, dataframe df) :: post) c = Returned (Some df).
Proof.
  induction 1 as [|[n0 v] pre Hv _ IH]; intros n df post c Ho Hs;
    cbn [app extract_loop].
  - unfold dataframe. cbn. rewrite Ho. cbn [obind]. rewrite Hs. reflexivity.
  - cbn [snd] in Hv. unfold passed_over in Hv.
    destruct v as [|[ty|] data]; try (now apply IH).
    destruct (String.eqb ty "dataframe") eqn:E; [|now apply IH].
    destruct (Hv eq_refl) as (df0 & -> & [Hf | [Ht Hn]]).
    + rewrite Hf. cbn [obind andb]. now apply IH.
    + rewrite Ht. cbn [obind]. rewrite Hn. cbn [andb]. now apply IH.
Qed.

(** X17.  Choice of the input.  The first dataframe input that has the OHLCV
    columns and a [signal] column is the one the run uses, provided the inputs
    before it are well formed; whatever follows it is not even looked at.
    When no input is an OHLCV dataframe the extraction fails with "No signals
    data found", and with no inputs at all [run] fails with "BacktestNode
    requires input data". *)
Theorem input_selection :
  (forall pre n df post,
     Forall (fun kv => passed_over (snd kv)) pre ->
     _is_ohlcv_data df = Returned true -> has_label "signal" df = true ->
     _extract_input_data (pre ++ (n, dataframe df) :: post) = Returned df) /\
  (forall inputs,
     Forall (fun kv => no_prices (snd kv)) inputs ->
     _extract_input_data inputs =
     RuntimeError (Raised (ValueError
       "No signals data found in inputs. Expected dataframe with OHLCV data and 'signal' column"))) /\
  (forall node,
     BacktestNode_run node [] =
     RuntimeError (Raised (ValueError "BacktestNode requires input data"))).
Proof.
  split; [|split].
  - intros pre n df post Hpre Ho Hs. unfold _extract_input_data.
    rewrite (extract_loop_chooses pre Hpre n df post None Ho Hs). reflexivity.
  - intros inputs Hin. unfold _extract_input_data.
    rewrite <- (app_nil_r inputs).
    rewrite (extract_loop_passed_over inputs Hin [] None). reflexivity.
  - reflexivity.
Qed.

Lemma input_selection_witness :
  _extract_input_data pipeline_inputs = Returned signal_frame /\
  _extract_input_data useless_inputs =
  RuntimeError (Raised (ValueError
    "No signals data found in inputs. Expected dataframe with OHLCV data and 'signal' column")).
Proof.
  destruct input_selection as (Hchoose & Hnone & _).
  split.
  - apply (Hchoose [("price_data"%string, dataframe price_frame)]
                   "signals"%string signal_frame
                   [("broken"%string, DictValue (Some "dataframe"%string) None)]).
    + constructor; [|constructor]. cbn. intros _.
      exists price_frame. split; [reflexivity|]. right. split; reflexivity.
    + reflexivity.
    + reflexivity.
  - apply Hnone. repeat constructor; cbn; discriminate.
Defined.

(** ** From the chosen frame to the engine *)

Lemma has_all_keys (df : Frame) :
  (forall k, In k row_keys -> has_label k df = true) -> missing_key df = None.
Proof.
  intro H. unfold missing_key.
  destruct (find (fun k => negb (has_label k df)) row_keys) as [k|] eqn:E;
    [|reflexivity].
  apply find_some in E as [Hin Hk]. rewrite (H k Hin) in Hk. discriminate.
Qed.

Lemma run_unfold (p : BacktestParams) (data : list Row) :
  validate_params p = Ok p ->
  run p data =
  (st <- _run_backtest_simulation (init_node p)
           (_merge_signals_and_prices data) ;;
   results <- _calculate_performance_metrics
                st (_merge_signals_and_prices data) ;;
   Ok (st, results)).
Proof.
  intro Hv. unfold run. rewrite Hv. reflexivity.
Qed.

Lemma run_on_frame (p : BacktestParams) (inputs : list (string * InputValue))
      (df : Frame) :
  validate_params p = Ok p -> inputs <> [] ->
  _extract_input_data inputs = Returned df ->
  (forall k, In k row_keys -> has_label k df = true) ->
  BacktestNode_run (init_node p) inputs = lift (run p (records df)).
Proof.
  intros Hv Hne Hx Hkeys.
  unfold BacktestNode_run. destruct inputs as [|i0 inputs0]; [congruence|].
  rewrite Hx. cbn [obind]. unfold merge_combined.
  assert (Hs : has_label "signal" df = true)
    by (apply Hkeys; cbn; tauto).
  assert (Ht : has_label "timestamp" df = true)
    by (apply Hkeys; cbn; tauto).
  rewrite Hs. unfold has_label at 1. cbn [columns].
  fold (has_label "timestamp" df). rewrite Ht. cbn [obind records].
  change (missing_key {| columns := columns df;
                         records := sort_values (map fillna (records df)) |})
    with (missing_key df).
  rewrite (has_all_keys _ Hkeys).
  fold (_merge_signals_and_prices (records df)).
  rewrite (run_unfold p _ Hv).
  destruct (_merge_signals_and_prices (records df)); reflexivity.
Qed.

(** X18.  When the chosen frame carries the labels the loop reads
    ([timestamp], [open], [high], [low], [close], [signal]), [run] on the
    inputs is the engine run on the records of that frame: it returns what the
    engine returns and raises [RuntimeError] with the engine's error as
    cause. *)
Theorem node_run_is_engine_run
        (p : BacktestParams) (inputs : list (string * InputValue)) (df : Frame) :
  validate_params p = Ok p -> inputs <> [] ->
  _extract_input_data inputs = Returned df ->
  (forall k, In k row_keys -> has_label k df = true) ->
  BacktestNode_run (init_node p) inputs = lift (run p (records df)).
Proof. apply run_on_frame. Qed.

Lemma node_run_is_engine_run_witness :
  BacktestNode_run (init_node fee_params) pipeline_inputs
  = lift (run fee_params round_trip).
Proof.
  apply (node_run_is_engine_run fee_params pipeline_inputs signal_frame).
  - reflexivity.
  - discriminate.
  - reflexivity.
  - intros k Hk. cbn in Hk.
    repeat (destruct Hk as [<- | Hk]; [reflexivity|]). contradiction.
Defined.

(** ** Labels are matched without case but read with it *)

(** X19.  [_is_ohlcv_data] compares lower-cased labels, the engine reads the
    exact ones.  A chosen frame without the exact label [timestamp] fails
    with [KeyError('timestamp')] in the sort; one that has it and has records
    fails with the [KeyError] of the first label the loop cannot find.  A
    table labelled [Open, High, Low, Close, Volume] is accepted as OHLCV data
    and then fails this way. *)
Theorem labels_read_case_sensitively
        (node : BacktestNode) (inputs : list (string * InputValue)) (df : Frame) :
  inputs <> [] ->
  _extract_input_data inputs = Returned df ->
  has_label "signal" df = true ->
  (has_label "timestamp" df = false ->
   BacktestNode_run node inputs = RuntimeError (KeyError "timestamp")) /\
  (forall k,
     has_label "timestamp" df = true -> records df <> [] ->
     missing_key df = Some k ->
     BacktestNode_run node inputs = RuntimeError (KeyError k)).
Proof.
  intros Hne Hx Hs.
  unfold BacktestNode_run. destruct inputs as [|i0 inputs0]; [congruence|].
  rewrite Hx. cbn [obind]. unfold merge_combined. rewrite Hs.
  change (has_label "timestamp"
            {| columns := columns df; records := map fillna (records df) |})
    with (has_label "timestamp" df).
  split.
  - intros ->. reflexivity.
  - intros k -> Hrec Hk. cbn [obind records columns].
    change (missing_key {| columns := columns df;
                           records := sort_values (map fillna (records df)) |})
      with (missing_key df).
    rewrite Hk.
    destruct (sort_values (map fillna (records df))) eqn:E; [|reflexivity].
    exfalso. apply Hrec.
    pose proof (sort_values_perm (map fillna (records df))) as Hp.
    rewrite E in Hp. apply Permutation_sym, Permutation_nil in Hp.
    destruct (records df); [reflexivity | discriminate].
Qed.

Lemma labels_read_case_sensitively_witness :
  _is_ohlcv_data capital_frame = Returned true /\
  BacktestNode_run (init_node fee_params)
                   [("data"%string, dataframe capital_frame)]
  = RuntimeError (KeyError "open").
Proof.
  split; [reflexivity|].
  apply (proj2 (labels_read_case_sensitively (init_node fee_params)
                  [("data"%string, dataframe capital_frame)] capital_frame
                  ltac:(discriminate) eq_refl eq_refl)).
  - reflexivity.
  - discriminate.
  - reflexivity.
Defined.

(** ** Prices without signals *)

Lemma extract_loop_passes (pre : list (string * InputValue)) :
  Forall (fun kv => passed_over (snd kv)) pre ->
  forall c, exists c', forall rest,
    extract_loop (pre ++ rest) c = extract_loop rest c'.
Proof.
  induction 1 as [|[n0 v] pre Hv _ IH]; intro c.
  - exists c. reflexivity.
  - cbn [snd] in Hv. unfold passed_over in Hv. cbn [app extract_loop].
    destruct v as [|[ty|] data]; try (now apply IH).
    destruct (String.eqb ty "dataframe") eqn:E; [|now apply IH].
    destruct (Hv eq_refl) as (df0 & -> & [Hf | [Ht Hn]]).
    + rewrite Hf. cbn [obind andb]. now apply IH.
    + rewrite Ht. cbn [obind]. rewrite Hn. cbn [andb].
      destruct (IH (Some (assign_signal_zero df0))) as (c' & Hc').
      exists c'. exact Hc'.
Qed.

Lemma extract_fallback (pre post : list (string * InputValue))
      (n : string) (df : Frame) :
  Forall (fun kv => passed_over (snd kv)) pre ->
  Forall (fun kv => no_prices (snd kv)) post ->
  _is_ohlcv_data df = Returned true -> has_label "signal" df = false ->
  _extract_input_data (pre ++ (n, dataframe df) :: post)
  = Returned (assign_signal_zero df).
Proof.
  intros Hpre Hpost Ho Hs. unfold _extract_input_data.
  destruct (extract_loop_passes pre Hpre None) as (c' & ->).
  cbn [extract_loop dataframe]. cbn. rewrite Ho. cbn [obind].
  rewrite Hs. cbn [andb].
  rewrite <- (app_nil_r post).
  rewrite (extract_loop_passed_over post Hpost [] _). reflexivity.
Qed.

(** X20.  Prices without signals.  When no input has a [signal] column, the
    last OHLCV dataframe is used with every signal set to 0.  If it carries
    the exact labels and at least one record, the run then completes without
    a trade and reports the initial capital as final capital, with zero
    return and zero drawdown. *)
Theorem prices_without_signals
        (p : BacktestParams) (pre post : list (string * InputValue))
        (n : string) (df : Frame) :
  Forall (fun kv => passed_over (snd kv)) pre ->
  Forall (fun kv => no_prices (snd kv)) post ->
  _is_ohlcv_data df = Returned true -> has_label "signal" df = false ->
  _extract_input_data (pre ++ (n, dataframe df) :: post)
  = Returned (assign_signal_zero df) /\
  (validate_params p = Ok p -> records df <> [] ->
   (forall k, In k ["timestamp"; "open"; "high"; "low"; "close"]%string ->
              has_label k df = true) ->
   exists st res,
     BacktestNode_run (init_node p) (pre ++ (n, dataframe df) :: post)
     = Returned (st, res) /\
     res_trades res = [] /\ final_capital res = initial_capital p /\
     total_return res == 0 /\ max_drawdown res == 0).
Proof.
  intros Hpre Hpost Ho Hs.
  pose proof (extract_fallback pre post n df Hpre Hpost Ho Hs) as Hx.
  split; [exact Hx|].
  intros Hv Hrec Hkeys.
  assert (Hall : forall k, In k row_keys ->
                           has_label k (assign_signal_zero df) = true).
  { intros k Hk. unfold assign_signal_zero. rewrite Hs.
    unfold has_label. cbn [columns]. rewrite existsb_app.
    fold (has_label k df). cbn in Hk.
    destruct Hk as [<- | [<- | [<- | [<- | [<- | [<- | []]]]]]].
    1-5: (rewrite Hkeys; [reflexivity | cbn; tauto]).
    cbn. apply orb_true_r. }
  rewrite (run_on_frame p _ (assign_signal_zero df) Hv);
    [| destruct pre; discriminate | exact Hx | exact Hall].
  destruct (run_quiet_outcome p (records (assign_signal_zero df)) Hv)
    as (st & res & Hrun & Ht & _ & _ & _ & Hf & Hr & Hd & _).
  - cbn. destruct (records df); [congruence | discriminate].
  - cbn. rewrite Forall_map. rewrite Forall_forall. intros r _.
    unfold inert. cbn. reflexivity.
  - exists st, res. rewrite Hrun. cbn. auto.
Qed.

Lemma prices_without_signals_witness :
  _extract_input_data price_only_inputs
  = Returned (assign_signal_zero price_frame) /\
  exists st res,
    BacktestNode_run (init_node fee_params) price_only_inputs
    = Returned (st, res) /\
    res_trades res = [] /\
    final_capital res = initial_capital fee_params.
Proof.
  destruct (prices_without_signals fee_params
              [("signals"%string,
                DictValue (Some "signals"%string) (Some signal_frame))]
              [] "price_data"%string price_frame)
    as [Hx Hrun].
  - repeat constructor. cbn. discriminate.
  - constructor.
  - reflexivity.
  - reflexivity.
  - split; [exact Hx|].
    destruct Hrun as (st & res & H & Ht & Hf & _).
    + reflexivity.
    + discriminate.
    + intros k Hk. cbn in Hk.
      repeat (destruct Hk as [<- | Hk]; [reflexivity|]). contradiction.
    + exists st, res. auto.
Defined.
